(** * TalentScout: résumé field extraction and candidate anonymisation

    A shallow embedding of [resume_parser.py] (class [ResumeParser]) and of
    the class [DataPrivacyManager] of [prompt_manager.py], with the
    properties of the specification proved, or refuted, on it.
    The second half covers the rest of [ResumeParser], the lookups of
    [PromptManager] and what [app.py] hands to the parser.

    Conventions of the embedding.
    - A Python [str] is a [string]; each character is read as the Unicode
      code point of the same number, so the strings covered are those whose
      code points are below 256.  [str.lower], [str.strip], [str.split] and
      the regular-expression classes [\d], [\s], [\b] are the restrictions
      of the Unicode ones to that range.
    - [bytes] are lists of integers in [0, 256).
    - A Python [dict] with string keys is a [gmap string value].
    - A call that may raise returns a [result].
    - The file system is a parameter: a write gives the state after it
      and returns, or raises. *)

From Stdlib Require Import ZArith Ascii String List Lia Bool DecimalString.
From stdpp Require Import gmap strings sorting.

Local Open Scope Z_scope.

(* ===================================================================== *)
(** ** Python strings                                                    *)
(* ===================================================================== *)

Module PyStr.

Definition code (c : ascii) : Z := Z.of_N (N_of_ascii c).
Definition chr (n : Z) : ascii := ascii_of_N (Z.to_N n).

Definition in_range (lo hi : Z) (c : ascii) : bool :=
  (lo <=? code c) && (code c <=? hi).

(** [str.isspace] on one character: the white space of Unicode below
    256, which is what [str.strip()] and [str.split()] remove. *)
Definition isspace (c : ascii) : bool :=
  in_range 9 13 c || in_range 28 32 c
  || (code c =? 133) || (code c =? 160).

(** Unicode decimal digits (category Nd) below 256: only [0-9]. *)
Definition isdecimal (c : ascii) : bool := in_range 48 57 c.

(** Word characters of [re] for [str] patterns: alphanumeric (letters,
    decimal digits, other digits and numerics) or underscore. *)
Definition isword (c : ascii) : bool :=
  in_range 48 57 c || in_range 65 90 c || in_range 97 122 c
  || (code c =? 95) || (code c =? 170) || (code c =? 178)
  || (code c =? 179) || (code c =? 181) || (code c =? 185)
  || (code c =? 186) || in_range 188 190 c
  || in_range 192 214 c || in_range 216 246 c || in_range 248 255 c.

(** [str.lower] on one character. *)
Definition lower_char (c : ascii) : ascii :=
  if in_range 65 90 c || in_range 192 214 c || in_range 216 222 c
  then chr (code c + 32) else c.

Fixpoint lower (s : string) : string :=
  match s with
  | EmptyString => EmptyString
  | String c s' => String (lower_char c) (lower s')
  end.

Fixpoint lstrip (s : string) : string :=
  match s with
  | EmptyString => EmptyString
  | String c s' => if isspace c then lstrip s' else s
  end.

(** [rstrip] keeps a white-space character only when something that is
    kept follows it. *)
Fixpoint rstrip (s : string) : string :=
  match s with
  | EmptyString => EmptyString
  | String c s' =>
      match rstrip s' with
      | EmptyString => if isspace c then EmptyString else String c EmptyString
      | r => String c r
      end
  end.

Definition strip (s : string) : string := rstrip (lstrip s).

(** Truth value of a string: [not s] is [true] on the empty string only. *)
Definition falsy (s : string) : bool :=
  match s with EmptyString => true | _ => false end.

(** [s.split(sep)] for a one-character separator: never empty, one more
    piece than there are separators. *)
Fixpoint split (sep : ascii) (s : string) : list string :=
  match s with
  | EmptyString => [EmptyString]
  | String c s' =>
      if Ascii.eqb c sep then EmptyString :: split sep s'
      else match split sep s' with
           | p :: ps => String c p :: ps
           | [] => [String c EmptyString]
           end
  end.

(** [s.split()]: the maximal runs of characters that are not white space. *)
Fixpoint split_ws_go (cur : string) (s : string) : list string :=
  match s with
  | EmptyString =>
      match cur with EmptyString => [] | _ => [String.rev cur] end
  | String c s' =>
      if isspace c
      then match cur with
           | EmptyString => split_ws_go EmptyString s'
           | _ => String.rev cur :: split_ws_go EmptyString s'
           end
      else split_ws_go (String c cur) s'
  end.

Definition split_ws (s : string) : list string := split_ws_go EmptyString s.

(** [sep.join(parts)] *)
Fixpoint join (sep : string) (parts : list string) : string :=
  match parts with
  | [] => EmptyString
  | [p] => p
  | p :: ps => p +:+ sep +:+ join sep ps
  end.

(** [s[:n]] and [s[n:]] for [0 <= n]. *)
Fixpoint take (n : nat) (s : string) : string :=
  match n, s with
  | S n', String c s' => String c (take n' s')
  | _, _ => EmptyString
  end.

Fixpoint drop (n : nat) (s : string) : string :=
  match n, s with
  | S n', String _ s' => drop n' s'
  | _, _ => s
  end.

(** [s[:-n]] and [s[-n:]] for [0 < n]. *)
Definition drop_last (n : nat) (s : string) : string :=
  take (String.length s - n) s.
Definition take_last (n : nat) (s : string) : string :=
  drop (String.length s - n) s.

Fixpoint startswith (p s : string) : bool :=
  match p, s with
  | EmptyString, _ => true
  | String a p', String b s' => Ascii.eqb a b && startswith p' s'
  | String _ _, EmptyString => false
  end.

(** [p in s]: [p] occurs somewhere in [s]. *)
Fixpoint contains (p s : string) : bool :=
  startswith p s ||
  match s with
  | EmptyString => false
  | String _ s' => contains p s'
  end.

Fixpoint filter (f : ascii -> bool) (s : string) : string :=
  match s with
  | EmptyString => EmptyString
  | String c s' => if f c then String c (filter f s') else filter f s'
  end.

Fixpoint count (c : ascii) (s : string) : nat :=
  match s with
  | EmptyString => O
  | String a s' => (if Ascii.eqb a c then 1 else 0)%nat + count c s'
  end.

Fixpoint all (f : ascii -> bool) (s : string) : bool :=
  match s with
  | EmptyString => true
  | String c s' => f c && all f s'
  end.

(** [s.encode()]: UTF-8; a code point in [128, 256) takes two bytes. *)
Definition encode_char (c : ascii) : list Z :=
  if code c <? 128 then [code c]
  else [Z.lor 192 (Z.shiftr (code c) 6); Z.lor 128 (Z.land (code c) 63)].

Fixpoint encode (s : string) : list Z :=
  match s with
  | EmptyString => []
  | String c s' => encode_char c ++ encode s'
  end.

End PyStr.

(* ===================================================================== *)
(** ** [hashlib.sha256]                                                  *)
(* ===================================================================== *)

Module SHA256.

Definition wrap (x : Z) : Z := x mod 2 ^ 32.
Definition add (x y : Z) : Z := wrap (x + y).
Definition rotr (n x : Z) : Z :=
  wrap (Z.lor (Z.shiftr x n) (Z.shiftl x (32 - n))).
Definition shr (n x : Z) : Z := Z.shiftr x n.
Definition lnot32 (x : Z) : Z := Z.lxor x 4294967295.

Definition Ch (x y z : Z) : Z :=
  Z.lxor (Z.land x y) (Z.land (lnot32 x) z).
Definition Maj (x y z : Z) : Z :=
  Z.lxor (Z.lxor (Z.land x y) (Z.land x z)) (Z.land y z).
Definition Sigma0 (x : Z) : Z :=
  Z.lxor (Z.lxor (rotr 2 x) (rotr 13 x)) (rotr 22 x).
Definition Sigma1 (x : Z) : Z :=
  Z.lxor (Z.lxor (rotr 6 x) (rotr 11 x)) (rotr 25 x).
Definition sigma0 (x : Z) : Z :=
  Z.lxor (Z.lxor (rotr 7 x) (rotr 18 x)) (shr 3 x).
Definition sigma1 (x : Z) : Z :=
  Z.lxor (Z.lxor (rotr 17 x) (rotr 19 x)) (shr 10 x).

(** The round constants (FIPS 180-4, 4.2.2), in decimal. *)
Definition K : list Z :=
  [ 1116352408; 1899447441; 3049323471; 3921009573;
    961987163; 1508970993; 2453635748; 2870763221;
    3624381080; 310598401; 607225278; 1426881987;
    1925078388; 2162078206; 2614888103; 3248222580;
    3835390401; 4022224774; 264347078; 604807628;
    770255983; 1249150122; 1555081692; 1996064986;
    2554220882; 2821834349; 2952996808; 3210313671;
    3336571891; 3584528711; 113926993; 338241895;
    666307205; 773529912; 1294757372; 1396182291;
    1695183700; 1986661051; 2177026350; 2456956037;
    2730485921; 2820302411; 3259730800; 3345764771;
    3516065817; 3600352804; 4094571909; 275423344;
    430227734; 506948616; 659060556; 883997877;
    958139571; 1322822218; 1537002063; 1747873779;
    1955562222; 2024104815; 2227730452; 2361852424;
    2428436474; 2756734187; 3204031479; 3329325298 ].

Record state : Type := State
  { ha : Z; hb : Z; hc : Z; hd : Z; he : Z; hf : Z; hg : Z; hh : Z }.

(** The initial hash value (FIPS 180-4, 5.3.3), in decimal. *)
Definition H0 : state :=
  State 1779033703 3144134277 1013904242 2773480762
        1359893119 2600822924 528734635 1541459225.

Definition word_at (w : list Z) (i : nat) : Z := nth i w 0.

(** One of the 64 rounds.  [w] holds the sixteen most recent words of
    the message schedule, the current one first. *)
Definition round (sw : state * list Z) (k : Z) : state * list Z :=
  let '(s, w) := sw in
  let t1 := add (add (add (add (hh s) (Sigma1 (he s)))
                           (Ch (he s) (hf s) (hg s))) k) (word_at w 0) in
  let t2 := add (Sigma0 (ha s)) (Maj (ha s) (hb s) (hc s)) in
  let next := add (add (add (sigma1 (word_at w 14)) (word_at w 9))
                       (sigma0 (word_at w 1))) (word_at w 0) in
  (State (add t1 t2) (ha s) (hb s) (hc s) (add (hd s) t1) (he s) (hf s) (hg s),
   tl w ++ [next]).

Definition be32 (b0 b1 b2 b3 : Z) : Z :=
  Z.lor (Z.lor (Z.shiftl b0 24) (Z.shiftl b1 16)) (Z.lor (Z.shiftl b2 8) b3).

Fixpoint words_of (bytes : list Z) : list Z :=
  match bytes with
  | b0 :: b1 :: b2 :: b3 :: rest => be32 b0 b1 b2 b3 :: words_of rest
  | _ => []
  end.

Definition compress (s : state) (block : list Z) : state :=
  let s' := fst (fold_left round K (s, words_of block)) in
  State (add (ha s) (ha s')) (add (hb s) (hb s')) (add (hc s) (hc s'))
        (add (hd s) (hd s')) (add (he s) (he s')) (add (hf s) (hf s'))
        (add (hg s) (hg s')) (add (hh s) (hh s')).

Definition be64 (n : Z) : list Z :=
  map (fun i => Z.land (Z.shiftr n (8 * i)) 255) [7; 6; 5; 4; 3; 2; 1; 0].

Definition pad (msg : list Z) : list Z :=
  let len := Z.of_nat (length msg) in
  msg ++ [128] ++ repeat 0 (Z.to_nat ((55 - len) mod 64)) ++ be64 (8 * len).

Fixpoint blocks (n : nat) (s : state) (bytes : list Z) : state :=
  match n with
  | O => s
  | S n' => blocks n' (compress s (firstn 64 bytes)) (skipn 64 bytes)
  end.

Definition digest (msg : list Z) : state :=
  let p := pad msg in blocks (length p / 64) H0 p.

Definition hex_digit (n : Z) : ascii :=
  match String.get (Z.to_nat (n mod 16)) "0123456789abcdef" with
  | Some c => c
  | None => "0"%char
  end.

Definition hex8 (w : Z) : string :=
  String (hex_digit (Z.shiftr w 28)) (String (hex_digit (Z.shiftr w 24))
 (String (hex_digit (Z.shiftr w 20)) (String (hex_digit (Z.shiftr w 16))
 (String (hex_digit (Z.shiftr w 12)) (String (hex_digit (Z.shiftr w 8))
 (String (hex_digit (Z.shiftr w 4))  (String (hex_digit w) EmptyString))))))).

(** [hashlib.sha256(msg).hexdigest()] *)
Definition hexdigest (msg : list Z) : string :=
  let s := digest msg in
  hex8 (ha s) +:+ hex8 (hb s) +:+ hex8 (hc s) +:+ hex8 (hd s) +:+
  hex8 (he s) +:+ hex8 (hf s) +:+ hex8 (hg s) +:+ hex8 (hh s).

End SHA256.


(* ===================================================================== *)
(** ** Values, exceptions, the clock                                     *)
(* ===================================================================== *)

(** The exceptions the embedded code raises, by class; [Exception] keeps
    the message of an explicit [raise Exception(...)];
    [FileNotFoundError] is what [open] raises for a path into a directory
    that does not exist. *)
Inductive exn : Type :=
| AttributeError
| TypeError
| ValueError
| IndexError
| FileNotFoundError
| Exception (msg : string).

Inductive result (A : Type) : Type :=
| Return (a : A)
| Raise (e : exn).
Arguments Return {A} a.
Arguments Raise {A} e.

#[export] Instance result_ret : MRet result := @Return.
#[export] Instance result_bind : MBind result := fun A B k r =>
  match r with
  | Return a => k a
  | Raise e => Raise e
  end.

(** The values a candidate record holds: [None], a [str], an [int] or a
    list of [str] (the tech stack). *)
Inductive value : Type :=
| VNone
| VStr (s : string)
| VInt (n : Z)
| VList (l : list string).

(** A reading of [datetime.utcnow()]. *)
Record datetime : Type := DateTime
  { year : Z; month : Z; day : Z;
    hour : Z; minute : Z; second : Z; microsecond : Z }.

Module Clock.

Definition digit (n : Z) : ascii := PyStr.chr (48 + n mod 10).

Definition dec2 (n : Z) : string :=
  String (digit (n / 10)) (String (digit n) EmptyString).
Definition dec4 (n : Z) : string := dec2 (n / 100) +:+ dec2 n.
Definition dec6 (n : Z) : string := dec2 (n / 10000) +:+ dec4 n.

(** [t.strftime('%Y%m%d%H%M%S')], for the four-digit years a clock
    reading has. *)
Definition strftime (t : datetime) : string :=
  dec4 (year t) +:+ dec2 (month t) +:+ dec2 (day t) +:+
  dec2 (hour t) +:+ dec2 (minute t) +:+ dec2 (second t).

(** [t.isoformat()]: the fraction is printed only when it is not zero. *)
Definition isoformat (t : datetime) : string :=
  dec4 (year t) +:+ "-" +:+ dec2 (month t) +:+ "-" +:+ dec2 (day t) +:+ "T" +:+
  dec2 (hour t) +:+ ":" +:+ dec2 (minute t) +:+ ":" +:+ dec2 (second t) +:+
  (if microsecond t =? 0 then "" else "." +:+ dec6 (microsecond t)).

(** Two readings within the same second. *)
Definition same_second (t u : datetime) : Prop :=
  year t = year u /\ month t = month u /\ day t = day u /\
  hour t = hour u /\ minute t = minute u /\ second t = second u.

End Clock.

(* ===================================================================== *)
(** ** [prompt_manager.py]: class [DataPrivacyManager]                   *)
(* ===================================================================== *)

Module DataPrivacyManager.

(** [hashlib.sha256(s.encode()).hexdigest()[:n]] *)
Definition sha_prefix (n : nat) (s : string) : string :=
  PyStr.take n (SHA256.hexdigest (PyStr.encode s)).

(** [s[0]] *)
Definition first_char (s : string) : result string :=
  match s with
  | EmptyString => Raise IndexError
  | String c _ => Return (String c EmptyString)
  end.

Definition _hash_email (email : value) : result string :=
  match email with
  | VStr s =>
      match PyStr.split "@" s with
      | [username; domain] =>
          let hashed_username := sha_prefix 8 username in
          Return (hashed_username +:+ "@" +:+ domain)
      | _ => Raise ValueError
      end
  | _ => Raise AttributeError
  end.

Definition _hash_phone (phone : value) : result string :=
  match phone with
  | VStr s =>
      let digits := PyStr.filter PyStr.isdecimal s in
      if (10 <? String.length digits)%nat then
        let country_code := PyStr.drop_last 10 digits in
        let number := PyStr.take_last 10 digits in
        let hashed_number := sha_prefix 6 number in
        Return ("+" +:+ country_code +:+ "-XXX-" +:+ hashed_number)
      else
        let hashed_number := sha_prefix 6 digits in
        Return ("XXX-" +:+ hashed_number)
  | _ => Raise TypeError
  end.

Definition _hash_name (name : value) : result string :=
  match name with
  | VStr s =>
      let parts := PyStr.split_ws s in
      if (2 <=? length parts)%nat then
        first_initial ← first_char (List.hd EmptyString parts);
        last_initial ← first_char (List.last parts EmptyString);
        let hashed_middle :=
          sha_prefix 4 (PyStr.join " " (removelast (tl parts))) in
        Return (first_initial +:+ "." +:+ hashed_middle +:+ "." +:+
                last_initial +:+ ".")
      else Return (sha_prefix 8 s)
  | _ => Raise AttributeError
  end.

(** [if key in anonymized: anonymized[key] = hash(anonymized[key])] *)
Definition hash_field (key : string) (hash : value -> result string)
    (anonymized : gmap string value) : result (gmap string value) :=
  match anonymized !! key with
  | Some v => h ← hash v; Return (<[key := VStr h]> anonymized)
  | None => Return anonymized
  end.

Definition anonymize_data (data : gmap string value)
    : result (gmap string value) :=
  let anonymized := data in
  anonymized ← hash_field "email" _hash_email anonymized;
  anonymized ← hash_field "phone" _hash_phone anonymized;
  anonymized ← hash_field "full_name" _hash_name anonymized;
  Return anonymized.

(** [part.lstrip('/')] *)
Fixpoint lstrip_sep (part : string) : string :=
  match part with
  | EmptyString => EmptyString
  | String c rest => if Ascii.eqb c "/" then lstrip_sep rest else part
  end.

(** The root pathlib reads off a path on POSIX, and what follows it: a
    path that starts with [/] has the root [/], or the root [//] when it
    starts with two slashes exactly. *)
Definition splitroot (part : string) : string * string :=
  match part with
  | EmptyString => (EmptyString, part)
  | String c _ =>
      if Ascii.eqb c "/" then
        let stripped_part := lstrip_sep part in
        if (String.length part - String.length stripped_part =? 2)%nat
        then ("//", stripped_part)
        else ("/", stripped_part)
      else (EmptyString, part)
  end.

(** The components pathlib keeps: [x for x in rel.split('/') if x and
    x != '.']. *)
Definition path_parts (rel : string) : list string :=
  List.filter (fun x => negb (PyStr.falsy x) && negb (String.eqb x "."))
    (PyStr.split "/" rel).

(** [str(Path(...) / key)] for a relative path of the components
    [parts]: a key with a root replaces the path, another one is put
    after it. *)
Definition truediv (parts : list string) (key : string) : string :=
  let '(root, rel) := splitroot key in
  if PyStr.falsy root then PyStr.join "/" (parts ++ path_parts rel)
  else root +:+ PyStr.join "/" (path_parts rel).

(** [self.candidate_dir], that is [Path("candidates")] *)
Definition candidate_dir : list string := ["candidates"].

(** [self.candidate_dir / f"{candidate_id}_anonymized.json"], as the
    string [open] receives. *)
Definition file_path (candidate_id : string) : string :=
  truediv candidate_dir (candidate_id +:+ "_anonymized.json").

Section Files.

(** The file system.  [fs] are its states; [write_json path record]
    stands for [with open(path, "w") as f: json.dump(record, f, indent=2)]:
    it gives the state after, and returns, or raises what [open], the
    dump or the closing of the file raises. *)
Variable fs : Type.
Variable write_json : string -> gmap string value -> fs -> result unit * fs.

Definition save_anonymized_data (data : gmap string value)
    (candidate_id : string) (utcnow : datetime) (s : fs)
    : result unit * fs :=
  match anonymize_data data with
  | Raise e => (Raise e, s)
  | Return anonymized_data =>
      let anonymized_data :=
        <["candidate_id" := VStr candidate_id]> anonymized_data in
      let anonymized_data :=
        <["timestamp" := VStr (Clock.isoformat utcnow)]> anonymized_data in
      let file_path := file_path candidate_id in
      write_json file_path anonymized_data s
  end.

End Files.

Arguments save_anonymized_data {fs} write_json data candidate_id utcnow s.

(** [data.get('email', '')] *)
Definition get_email (data : gmap string value) : value :=
  match data !! "email" with
  | Some v => v
  | None => VStr EmptyString
  end.

Definition generate_candidate_id (data : gmap string value)
    (utcnow : datetime) : result string :=
  match get_email data with
  | VStr s =>
      let email_hash := sha_prefix 8 s in
      let timestamp := Clock.strftime utcnow in
      Return ("CAND_" +:+ email_hash +:+ "_" +:+ timestamp)
  | _ => Raise AttributeError
  end.

End DataPrivacyManager.


(* ===================================================================== *)
(** ** Regular expressions, as [re] matches them                         *)
(* ===================================================================== *)

Module Re.

(** The part of the pattern language the phone patterns use.  A
    quantifier [x?], [x*], [x{n}] or [x{m,n}] is one [Repeat], greedy,
    with its lower bound and its upper bound ([None] when unbounded). *)
Inductive regex : Type :=
| Lit (c : ascii)
| Class (f : ascii -> bool)
| WordBoundary
| Seq (r1 r2 : regex)
| Repeat (lo : nat) (hi : option nat) (r : regex).

Definition isword_at (c : option ascii) : bool :=
  match c with Some a => PyStr.isword a | None => false end.

Definition peek (s : string) : option ascii :=
  match s with EmptyString => None | String c _ => Some c end.

(** Backtracking matcher.  [prev] is the character before the cursor,
    [s] the text from the cursor on, [k] what remains to be matched,
    given the cursor reached; the outcome is the text left after the
    whole match.  Alternatives are tried in the order of [re]: a
    repetition takes one more iteration first, and gives it back when
    the rest fails.  An unbounded repetition is cut at the number of
    characters left (its bodies here consume a character). *)
Fixpoint exec (r : regex) (prev : option ascii) (s : string)
    (k : option ascii -> string -> option string) : option string :=
  match r with
  | Lit c =>
      match s with
      | String a s' => if Ascii.eqb a c then k (Some a) s' else None
      | EmptyString => None
      end
  | Class f =>
      match s with
      | String a s' => if f a then k (Some a) s' else None
      | EmptyString => None
      end
  | WordBoundary =>
      if xorb (isword_at prev) (isword_at (peek s)) then k prev s else None
  | Seq r1 r2 => exec r1 prev s (fun prev' s' => exec r2 prev' s' k)
  | Repeat lo hi r' =>
      let optional :=
        fix optional (n : nat) (prev : option ascii) (s : string) :=
          match n with
          | O => k prev s
          | S n' =>
              match exec r' prev s (optional n') with
              | Some rest => Some rest
              | None => k prev s
              end
          end in
      let mandatory :=
        fix mandatory (n : nat) (prev : option ascii) (s : string) :=
          match n with
          | O =>
              optional
                (match hi with
                 | Some h => (h - lo)%nat
                 | None => String.length s
                 end) prev s
          | S n' => exec r' prev s (mandatory n')
          end in
      mandatory lo prev s
  end.

(** A match anchored at the cursor: the text matched. *)
Definition match_here (r : regex) (prev : option ascii) (s : string)
    : option string :=
  match exec r prev s (fun _ rest => Some rest) with
  | Some rest => Some (PyStr.take (String.length s - String.length rest) s)
  | None => None
  end.

(** [re.search(r, text)] followed by [.group(0)]: the match at the
    leftmost position that has one. *)
Fixpoint search_from (r : regex) (prev : option ascii) (s : string)
    : option string :=
  match match_here r prev s with
  | Some m => Some m
  | None =>
      match s with
      | EmptyString => None
      | String c s' => search_from r (Some c) s'
      end
  end.

Definition search (r : regex) (text : string) : option string :=
  search_from r None text.

(** The pieces of a pattern written one after the other. *)
Fixpoint seq (r : regex) (rs : list regex) : regex :=
  match rs with
  | [] => r
  | r' :: rs' => Seq r (seq r' rs')
  end.

(** [\d], [\s], [[-.]] *)
Definition digit : regex := Class PyStr.isdecimal.
Definition space : regex := Class PyStr.isspace.
Definition dash_or_dot : regex :=
  Class (fun c => Ascii.eqb c "-" || Ascii.eqb c ".").

Definition opt (r : regex) : regex := Repeat 0 (Some 1%nat) r.
Definition star (r : regex) : regex := Repeat 0 None r.
Definition times (n : nat) (r : regex) : regex := Repeat n (Some n) r.
Definition range (lo hi : nat) (r : regex) : regex := Repeat lo (Some hi) r.

End Re.

(* ===================================================================== *)
(** ** The PDF libraries                                                 *)
(* ===================================================================== *)

(** What the run of [extract_text_from_pdf] does to the outside: the calls
    into PyMuPDF ([fitz]) and pdfplumber, and the lines printed (a prefix
    followed by [str(e)]). *)
Inductive event : Type :=
| FitzOpen
| FitzGetText (page : nat)
| FitzClose
| PdfplumberOpen
| PdfplumberExtractText (page : nat)
| Print (prefix : string) (e : exn).

(** A computation that calls the libraries: it extends the trace of events
    (most recent last) and returns or raises. *)
Definition io (A : Type) : Type := list event -> result A * list event.

Definition io_ret {A : Type} (a : A) : io A := fun tr => (Return a, tr).
Definition io_raise {A : Type} (e : exn) : io A := fun tr => (Raise e, tr).
Definition io_bind {A B : Type} (m : io A) (k : A -> io B) : io B :=
  fun tr =>
    match m tr with
    | (Return a, tr') => k a tr'
    | (Raise e, tr') => (Raise e, tr')
    end.
Definition io_try {A : Type} (m : io A) (handler : exn -> io A) : io A :=
  fun tr =>
    match m tr with
    | (Return a, tr') => (Return a, tr')
    | (Raise e, tr') => handler e tr'
    end.
(** A call into a library: the event, then the outcome of the call. *)
Definition io_call {A : Type} (ev : event) (outcome : result A) : io A :=
  fun tr => (outcome, tr ++ [ev]).
Definition io_print (prefix : string) (e : exn) : io unit :=
  fun tr => (Return tt, tr ++ [Print prefix e]).

Notation "'let*' x ':=' m 'in' k" := (io_bind m (fun x => k))
  (at level 10, x name, m at level 100, k at level 200).

(* ===================================================================== *)
(** ** [resume_parser.py]: class [ResumeParser]                          *)
(* ===================================================================== *)

Module ResumeParser.

(** [self.tech_keywords], in the order the dict is written. *)
Definition tech_keywords : list (string * list string) :=
  [ ("languages", ["python"; "java"; "javascript"; "typescript"; "c++"; "c#";
                   "ruby"; "php"; "swift"; "kotlin"; "go"; "rust"]);
    ("frameworks", ["django"; "flask"; "spring"; "react"; "angular"; "vue";
                    "express"; "rails"; "laravel"; "asp.net"]);
    ("databases", ["mysql"; "postgresql"; "mongodb"; "redis"; "oracle";
                   "sql server"; "cassandra"]);
    ("cloud", ["aws"; "azure"; "gcp"; "heroku"; "digitalocean"]);
    ("tools", ["docker"; "kubernetes"; "jenkins"; "git"; "jira"; "confluence"]);
    ("ai_ml", ["tensorflow"; "pytorch"; "scikit-learn"; "pandas"; "numpy";
               "keras"]) ].

(** *** [extract_text_from_pdf] *)

Section Pdf.

(** [fitz.open(stream=file_content, filetype="pdf")]: the document
    opens, or the call raises; an open document has pages, and
    [page.get_text()] returns a text or raises. *)
Variable fitz_open : list Z -> result (list (result string)).

(** [pdfplumber.open(io.BytesIO(file_content))] and, for each page,
    [page.extract_text()], which returns a text or [None], or raises. *)
Variable pdfplumber_open : list Z -> result (list (result (option string))).

(** [for page in doc: text += page.get_text()] *)
Fixpoint fitz_pages (doc : list (result string)) (n : nat) (text : string)
    : io string :=
  match doc with
  | [] => io_ret text
  | page :: doc' =>
      let* t := io_call (FitzGetText n) page in
      fitz_pages doc' (S n) (text +:+ t)
  end.

(** [x or ""] *)
Definition or_empty (x : option string) : string :=
  match x with
  | Some t => if PyStr.falsy t then EmptyString else t
  | None => EmptyString
  end.

(** [for page in pdf.pages: text += page.extract_text() or ""] *)
Fixpoint pdfplumber_pages (pages : list (result (option string))) (n : nat)
    (text : string) : io string :=
  match pages with
  | [] => io_ret text
  | page :: pages' =>
      let* t := io_call (PdfplumberExtractText n) page in
      pdfplumber_pages pages' (S n) (text +:+ or_empty t)
  end.

Definition extract_text_from_pdf (file_content : list Z) : io string :=
  let text := EmptyString in
  let* text :=
    io_try
      (let* doc := io_call FitzOpen (fitz_open file_content) in
       let* text := fitz_pages doc 0 text in
       let* _ := io_call FitzClose (Return tt) in
       io_ret text)
      (fun e =>
         let* _ := io_print "PyMuPDF extraction failed: " e in
         io_ret EmptyString) in
  if PyStr.falsy (PyStr.strip text) then
    io_try
      (let* pdf := io_call PdfplumberOpen (pdfplumber_open file_content) in
       pdfplumber_pages pdf 0 text)
      (fun e =>
         let* _ := io_print "pdfplumber extraction failed: " e in
         io_raise (Exception "Failed to extract text from PDF"))
  else io_ret text.

End Pdf.

(** *** [extract_phone] *)

(** [\b\d{3}[-.]?\d{3}[-.]?\d{4}\b] *)
Definition plain_pattern : Re.regex :=
  Re.seq Re.WordBoundary
         [ Re.times 3 Re.digit; Re.opt Re.dash_or_dot;
           Re.times 3 Re.digit; Re.opt Re.dash_or_dot;
           Re.times 4 Re.digit; Re.WordBoundary ].

(** [\+\d{1,3}[-.]?\d{3}[-.]?\d{3}[-.]?\d{4}\b] *)
Definition international_pattern : Re.regex :=
  Re.seq (Re.Lit "+")
         [ Re.range 1 3 Re.digit; Re.opt Re.dash_or_dot;
           Re.times 3 Re.digit; Re.opt Re.dash_or_dot;
           Re.times 3 Re.digit; Re.opt Re.dash_or_dot;
           Re.times 4 Re.digit; Re.WordBoundary ].

(** [\(\d{3}\)\s*\d{3}[-.]?\d{4}\b] *)
Definition parenthesized_pattern : Re.regex :=
  Re.seq (Re.Lit "(")
         [ Re.times 3 Re.digit; Re.Lit ")"; Re.star Re.space;
           Re.times 3 Re.digit; Re.opt Re.dash_or_dot;
           Re.times 4 Re.digit; Re.WordBoundary ].

Definition phone_patterns : list Re.regex :=
  [ plain_pattern; international_pattern; parenthesized_pattern ].

(** [for pattern in patterns: match = re.search(pattern, text);
     if match: return match.group(0)], then [return None]. *)
Fixpoint first_match (patterns : list Re.regex) (text : string)
    : option string :=
  match patterns with
  | [] => None
  | pattern :: patterns' =>
      match Re.search pattern text with
      | Some m => Some m
      | None => first_match patterns' text
      end
  end.

Definition extract_phone (text : string) : option string :=
  first_match phone_patterns text.

(** *** [extract_tech_stack] *)

(** [sorted(list(found))]: ascending in the order of [str], which
    compares code points. *)
Definition sorted (found : gset string) : list string :=
  merge_sort String.le (elements found).

Definition extract_tech_stack (text : string) : list string :=
  let text_lower := PyStr.lower text in
  let found_tech : gset string :=
    fold_left
      (fun found '(category, keywords) =>
         fold_left
           (fun found tech =>
              if PyStr.contains tech text_lower then found ∪ {[tech]}
              else found)
           keywords found)
      tech_keywords ∅ in
  sorted found_tech.

End ResumeParser.


(* ===================================================================== *)
(** ** Predicates of the specification                                   *)
(* ===================================================================== *)

Module Spec.

(** A lowercase hexadecimal digit. *)
Definition is_hex (c : ascii) : bool :=
  PyStr.in_range 48 57 c || PyStr.in_range 97 102 c.

(** A field that is unset (its key is not in the record) or holds a
    [str]. *)
Definition absent_or_str (field : option value) : bool :=
  match field with
  | None | Some (VStr _) => true
  | Some _ => false
  end.

(** A candidate record whose three personal fields have the type the
    data model gives them. *)
Definition structurally_valid (data : gmap string value) : bool :=
  absent_or_str (data !! "full_name") && absent_or_str (data !! "email")
  && absent_or_str (data !! "phone").

(** An e-mail field that is unset or of the form [local@domain]: one
    [@] exactly. *)
Definition email_well_formed (field : option value) : bool :=
  match field with
  | None => true
  | Some (VStr s) => Nat.eqb (PyStr.count "@" s) 1
  | Some _ => false
  end.

Definition well_formed (data : gmap string value) : bool :=
  structurally_valid data && email_well_formed (data !! "email").

(** The fields [anonymize_data] rewrites. *)
Definition personal_fields : list string := ["email"; "phone"; "full_name"].

(** The keywords of the taxonomy, all categories together. *)
Definition taxonomy_keywords : list string :=
  concat (map snd ResumeParser.tech_keywords).

(** A text that is empty or all white space: [not text.strip()]. *)
Definition blank (text : string) : bool := PyStr.falsy (PyStr.strip text).

(** What a strategy yields on its own: the texts of its pages one after
    the other, or the exception of the first page that raises. *)
Fixpoint concat_pages (pages : list (result string)) : result string :=
  match pages with
  | [] => Return EmptyString
  | page :: pages' =>
      t ← page; rest ← concat_pages pages'; Return (t +:+ rest)
  end.

Definition page_text (page : result (option string)) : result string :=
  match page with
  | Return t => Return (ResumeParser.or_empty t)
  | Raise e => Raise e
  end.

Definition primary (fitz_open : list Z → result (list (result string)))
    (file_content : list Z) : result string :=
  doc ← fitz_open file_content; concat_pages doc.

Definition secondary
    (pdfplumber_open : list Z → result (list (result (option string))))
    (file_content : list Z) : result string :=
  pdf ← pdfplumber_open file_content; concat_pages (map page_text pdf).

(** The text the second strategy starts from: what the first one
    yielded, nothing when it raised. *)
Definition text_of (outcome : result string) : string :=
  match outcome with Return t => t | Raise _ => EmptyString end.

(** The events of the primary strategy: anything but a call into
    pdfplumber. *)
Definition primary_event (ev : event) : Prop :=
  match ev with
  | PdfplumberOpen | PdfplumberExtractText _ => False
  | _ => True
  end.

(** The character before the position reached after [pre], coming
    from a position whose previous character is [prev]. *)
Fixpoint char_before (prev : option ascii) (pre : string) : option ascii :=
  match pre with
  | EmptyString => prev
  | String c pre' => char_before (Some c) pre'
  end.

Definition no_digit (s : string) : bool :=
  PyStr.all (fun c => negb (PyStr.isdecimal c)) s.

(** [k] occurs somewhere in [s]. *)
Definition occurs_in (k s : string) : Prop :=
  ∃ pre post, s = pre +:+ k +:+ post.



End Spec.

(* ===================================================================== *)
(** ** Sample inputs                                                     *)
(* ===================================================================== *)

Module Sample.

(** A record as the résumé form fills it. *)
Definition jane : gmap string value :=
  <["full_name" := VStr "Jane Q. Doe"]>
 (<["email" := VStr "jane@example.com"]>
 (<["phone" := VStr "+1 (555) 123-4567"]>
 (<["years_experience" := VInt 7]>
 (<["desired_position" := VStr "Engineer"]>
 (<["current_location" := VStr "Pune, India"]>
 (<["tech_stack" := VList ["python"; "react"]]> ∅)))))).

Definition jane_anonymized : gmap string value :=
  <["full_name" := VStr "J.b5cc.D."]>
 (<["email" := VStr "81f8f6dd@example.com"]>
 (<["phone" := VStr "+1-XXX-3c9527"]>
 (<["years_experience" := VInt 7]>
 (<["desired_position" := VStr "Engineer"]>
 (<["current_location" := VStr "Pune, India"]>
 (<["tech_stack" := VList ["python"; "react"]]> ∅)))))).

(** Only a tech stack: the three personal fields are unset. *)
Definition skills_only : gmap string value :=
  <["tech_stack" := VList ["go"]]> ∅.

(** An e-mail field typed into the form without an [@]. *)
Definition no_at_sign : gmap string value :=
  <["email" := VStr "jane.example.com"]>
 (<["tech_stack" := VList ["python"]]> ∅).

(** A scanned PDF: PyMuPDF finds one page holding a space, pdfplumber
    finds a text. *)
Definition scan_fitz (_ : list Z) : result (list (result string)) :=
  Return [Return " "].
Definition scan_pdfplumber (_ : list Z)
    : result (list (result (option string))) :=
  Return [Return (Some "x")].

(** An image-only PDF: neither library finds any text, neither raises. *)
Definition image_fitz (_ : list Z) : result (list (result string)) :=
  Return [Return ""].
Definition image_pdfplumber (_ : list Z)
    : result (list (result (option string))) :=
  Return [Return None].

(** A PDF that PyMuPDF reads: one page of text. *)
Definition text_fitz (_ : list Z) : result (list (result string)) :=
  Return [Return "Jane Doe"; Return " "].

(** A PDF that neither library can open. *)
Definition broken_fitz (_ : list Z) : result (list (result string)) :=
  Raise (Exception "cannot open broken document").
Definition broken_pdfplumber (_ : list Z)
    : result (list (result (option string))) :=
  Raise (Exception "No /Root object").

Definition noon : datetime := DateTime 2024 3 7 12 0 5 0.
Definition noon_later : datetime := DateTime 2024 3 7 12 0 5 730000.

End Sample.

(* ===================================================================== *)
(** ** The words a pattern matches                                       *)
(* ===================================================================== *)

Module ReSem.

Fixpoint concat_words (ws : list string) : string :=
  match ws with
  | [] => EmptyString
  | w :: ws' => w +:+ concat_words ws'
  end.

(** The words a pattern can match, whatever stands around them (a word
    boundary matches the empty word). *)
Fixpoint lang (r : Re.regex) (w : string) : Prop :=
  match r with
  | Re.Lit c => w = String c EmptyString
  | Re.Class f => exists c, w = String c EmptyString /\ f c = true
  | Re.WordBoundary => w = EmptyString
  | Re.Seq r1 r2 => exists w1 w2, w = w1 +:+ w2 /\ lang r1 w1 /\ lang r2 w2
  | Re.Repeat lo hi r' =>
      exists ws, w = concat_words ws /\ Forall (lang r') ws
                 /\ (lo <= length ws)%nat
                 /\ match hi with
                    | Some h => (length ws <= Nat.max lo h)%nat
                    | None => True
                    end
  end.

(** The 256 characters. *)
Definition all_ascii : list ascii := map ascii_of_nat (seq 0 256).

(** Every character of the class [f] satisfies [q]; some character of
    [f] satisfies [q]. *)
Definition class_within (f q : ascii -> bool) : bool :=
  forallb (fun c => implb (f c) (q c)) all_ascii.
Definition class_meets (f q : ascii -> bool) : bool :=
  existsb (fun c => f c && q c) all_ascii.

(** Every character the pattern consumes satisfies [q]. *)
Fixpoint alphabet_within (q : ascii -> bool) (r : Re.regex) : bool :=
  match r with
  | Re.Lit c => q c
  | Re.Class f => class_within f q
  | Re.WordBoundary => true
  | Re.Seq r1 r2 => alphabet_within q r1 && alphabet_within q r2
  | Re.Repeat _ _ r' => alphabet_within q r'
  end.

(** Bounds on the number of characters satisfying [q] in a word of the
    pattern: at least [min_count], at most [max_count] ([None] when there
    is no bound). *)
Fixpoint min_count (q : ascii -> bool) (r : Re.regex) : nat :=
  match r with
  | Re.Lit c => if q c then 1 else 0
  | Re.Class f => if class_within f q then 1 else 0
  | Re.WordBoundary => 0
  | Re.Seq r1 r2 => min_count q r1 + min_count q r2
  | Re.Repeat lo _ r' => lo * min_count q r'
  end.

Fixpoint max_count (q : ascii -> bool) (r : Re.regex) : option nat :=
  match r with
  | Re.Lit c => Some (if q c then 1 else 0)%nat
  | Re.Class f => Some (if class_meets f q then 1 else 0)%nat
  | Re.WordBoundary => Some 0%nat
  | Re.Seq r1 r2 =>
      match max_count q r1, max_count q r2 with
      | Some a, Some b => Some (a + b)%nat
      | _, _ => None
      end
  | Re.Repeat lo hi r' =>
      match max_count q r', hi with
      | Some O, _ => Some 0%nat
      | Some m, Some h => Some (Nat.max lo h * m)%nat
      | _, _ => None
      end
  end.

(** The number of characters of [w] that satisfy [q]. *)
Definition count_if (q : ascii -> bool) (w : string) : nat :=
  String.length (PyStr.filter q w).

(** The two loops of a repetition, over the matcher of its body. *)
Definition optional_loop
    (body : option ascii → string →
            (option ascii → string → option string) → option string)
    (k : option ascii → string → option string) :=
  fix optional (n : nat) (prev : option ascii) (s : string) :=
    match n with
    | O => k prev s
    | S n' =>
        match body prev s (optional n') with
        | Some rest => Some rest
        | None => k prev s
        end
    end.

Definition mandatory_loop
    (body : option ascii → string →
            (option ascii → string → option string) → option string)
    (k : option ascii → string → option string)
    (lo : nat) (hi : option nat) :=
  fix mandatory (n : nat) (prev : option ascii) (s : string) :=
    match n with
    | O =>
        optional_loop body k
          (match hi with
           | Some h => (h - lo)%nat
           | None => String.length s
           end) prev s
    | S n' => body prev s (mandatory n')
    end.

(** What a successful run of the matcher has consumed, when it hands over
    to [k], is a word of the pattern. *)
Definition sound
    (body : option ascii → string →
            (option ascii → string → option string) → option string)
    (L : string → Prop) : Prop :=
  ∀ prev s k res,
    body prev s k = Some res →
    ∃ w s' prev', s = w +:+ s' ∧ L w ∧ k prev' s' = Some res.

End ReSem.

(* ===================================================================== *)
(** ** Regular expressions with a capturing group                        *)
(* ===================================================================== *)

Module ReGroup.

(** The part of the pattern language the experience patterns use: no
    word boundary, but alternation and one capturing group.  [(?:x)] is
    [x] itself. *)
Inductive regex : Type :=
| Empty
| Lit (c : ascii)
| Class (f : ascii -> bool)
| Seq (r1 r2 : regex)
| Alt (r1 r2 : regex)
| Repeat (lo : nat) (hi : option nat) (r : regex)
| Group (r : regex).

(** Backtracking matcher, as [Re.exec]; [cap] is what group 1 holds so
    far, and the outcome is the text left with the final content of the
    group.  The first alternative is tried first. *)
Fixpoint exec (r : regex) (s : string) (cap : option string)
    (k : string -> option string -> option (string * option string))
    : option (string * option string) :=
  match r with
  | Empty => k s cap
  | Lit c =>
      match s with
      | String a s' => if Ascii.eqb a c then k s' cap else None
      | EmptyString => None
      end
  | Class f =>
      match s with
      | String a s' => if f a then k s' cap else None
      | EmptyString => None
      end
  | Seq r1 r2 => exec r1 s cap (fun s' cap' => exec r2 s' cap' k)
  | Alt r1 r2 =>
      match exec r1 s cap k with
      | Some res => Some res
      | None => exec r2 s cap k
      end
  | Repeat lo hi r' =>
      let optional :=
        fix optional (n : nat) (s : string) (cap : option string) :=
          match n with
          | O => k s cap
          | S n' =>
              match exec r' s cap (optional n') with
              | Some res => Some res
              | None => k s cap
              end
          end in
      let mandatory :=
        fix mandatory (n : nat) (s : string) (cap : option string) :=
          match n with
          | O =>
              optional
                (match hi with
                 | Some h => (h - lo)%nat
                 | None => String.length s
                 end) s cap
          | S n' => exec r' s cap (mandatory n')
          end in
      mandatory lo s cap
  | Group r' =>
      exec r' s cap
        (fun s' _ =>
           k s' (Some (PyStr.take (String.length s - String.length s') s)))
  end.

(** A match object: [group(0)] and [group(1)], which is [None] when the
    group took no part in the match. *)
Record match_object : Type := Match
  { group0 : string; group1 : option string }.

Definition match_here (r : regex) (s : string) : option match_object :=
  match exec r s None (fun rest cap => Some (rest, cap)) with
  | Some (rest, cap) =>
      Some (Match (PyStr.take (String.length s - String.length rest) s) cap)
  | None => None
  end.

(** [re.search(r, text)] *)
Fixpoint search (r : regex) (s : string) : option match_object :=
  match match_here r s with
  | Some m => Some m
  | None =>
      match s with
      | EmptyString => None
      | String _ s' => search r s'
      end
  end.

Fixpoint seq (rs : list regex) : regex :=
  match rs with
  | [] => Empty
  | [r] => r
  | r :: rs' => Seq r (seq rs')
  end.

(** A literal text. *)
Fixpoint text (s : string) : regex :=
  match s with
  | EmptyString => Empty
  | String c EmptyString => Lit c
  | String c s' => Seq (Lit c) (text s')
  end.

Definition digit : regex := Class PyStr.isdecimal.
Definition space : regex := Class PyStr.isspace.
Definition opt (r : regex) : regex := Repeat 0 (Some 1%nat) r.
Definition star (r : regex) : regex := Repeat 0 None r.
Definition plus (r : regex) : regex := Repeat 1 None r.

End ReGroup.

(* ===================================================================== *)
(** ** [int(s)]                                                          *)
(* ===================================================================== *)

Module PyInt.

(** The digits of a literal: groups of decimal digits, with single
    underscores between them. *)
Fixpoint digits_value (acc : Z) (after_digit : bool) (s : string)
    : option Z :=
  match s with
  | EmptyString => if after_digit then Some acc else None
  | String c s' =>
      if PyStr.isdecimal c
      then digits_value (10 * acc + (PyStr.code c - 48)) true s'
      else if Ascii.eqb c "_" && after_digit
           then match s' with
                | String d _ =>
                    if PyStr.isdecimal d then digits_value acc false s'
                    else None
                | EmptyString => None
                end
           else None
  end.

Section Limit.

(** [sys.get_int_max_str_digits()]: the number of digits above which the
    conversion is refused (4300 unless configured), [None] where the
    interpreter has no such limit. *)
Variable max_str_digits : option nat.

Definition too_long (body : string) : bool :=
  match max_str_digits with
  | Some limit =>
      (limit <? String.length (PyStr.filter PyStr.isdecimal body))%nat
  | None => false
  end.

(** [int(s)] for a [str]: white space around, an optional sign, then the
    digits; [ValueError] otherwise. *)
Definition int (s : string) : result Z :=
  let body := PyStr.strip s in
  let parsed :=
    match body with
    | String c rest =>
        if Ascii.eqb c "+" then digits_value 0 false rest
        else if Ascii.eqb c "-"
             then option_map Z.opp (digits_value 0 false rest)
             else digits_value 0 false body
    | EmptyString => None
    end in
  match parsed with
  | Some n => if too_long body then Raise ValueError else Return n
  | None => Raise ValueError
  end.

(** [int(x)] for [x] a [str] or [None]. *)
Definition int_of_group (g : option string) : result Z :=
  match g with
  | Some s => int s
  | None => Raise TypeError
  end.

End Limit.

End PyInt.

(* ===================================================================== *)
(** ** [resume_parser.py]: e-mail, years of experience, DOCX, the whole   *)
(* ===================================================================== *)

(** What [Document(io.BytesIO(file_content))] does: it gives a document,
    of which the texts of the paragraphs are read, or it raises [e], of
    which [str(e)] is read. *)
Inductive docx_outcome : Type :=
| Paragraphs (texts : list string)
| DocxError (str_e : string).

Module Resume.

Definition ascii_letter (c : ascii) : bool :=
  PyStr.in_range 65 90 c || PyStr.in_range 97 122 c.
Definition ascii_digit (c : ascii) : bool := PyStr.in_range 48 57 c.

(** [[A-Za-z0-9._%+-]] *)
Definition email_local (c : ascii) : bool :=
  ascii_letter c || ascii_digit c || Ascii.eqb c "." || Ascii.eqb c "_"
  || Ascii.eqb c "%" || Ascii.eqb c "+" || Ascii.eqb c "-".

(** [[A-Za-z0-9.-]] *)
Definition email_domain (c : ascii) : bool :=
  ascii_letter c || ascii_digit c || Ascii.eqb c "." || Ascii.eqb c "-".

(** [[A-Z|a-z]]: the bar is a member of the set. *)
Definition email_tld (c : ascii) : bool :=
  ascii_letter c || Ascii.eqb c "|".

(** [\b[A-Za-z0-9._%+-]+@[A-Za-z0-9.-]+\.[A-Z|a-z]{2,}\b] *)
Definition email_pattern : Re.regex :=
  Re.seq Re.WordBoundary
         [ Re.Repeat 1 None (Re.Class email_local); Re.Lit "@";
           Re.Repeat 1 None (Re.Class email_domain); Re.Lit ".";
           Re.Repeat 2 None (Re.Class email_tld); Re.WordBoundary ].

Definition extract_email (text : string) : option string :=
  Re.search email_pattern text.

(** [(?:years?|yrs?)] *)
Definition years_word : ReGroup.regex :=
  ReGroup.Alt
    (ReGroup.Seq (ReGroup.text "year") (ReGroup.opt (ReGroup.Lit "s")))
    (ReGroup.Seq (ReGroup.text "yr") (ReGroup.opt (ReGroup.Lit "s"))).

(** [(\d+)\+?] *)
Definition number : list ReGroup.regex :=
  [ ReGroup.Group (ReGroup.plus ReGroup.digit);
    ReGroup.opt (ReGroup.Lit "+") ].

(** [(\d+)\+?\s*(?:years?|yrs?)\s*(?:of)?\s*experience] *)
Definition years_of_experience : ReGroup.regex :=
  ReGroup.seq
    (number ++
     [ ReGroup.star ReGroup.space; years_word; ReGroup.star ReGroup.space;
       ReGroup.opt (ReGroup.text "of"); ReGroup.star ReGroup.space;
       ReGroup.text "experience" ]).

(** [experience:\s*(\d+)\+?\s*(?:years?|yrs?)] *)
Definition experience_colon : ReGroup.regex :=
  ReGroup.seq
    ([ ReGroup.text "experience:"; ReGroup.star ReGroup.space ] ++ number ++
     [ ReGroup.star ReGroup.space; years_word ]).

(** [(\d+)\+?\s*(?:years?|yrs?)\s*(?:in)?\s*the\s*field] *)
Definition years_in_the_field : ReGroup.regex :=
  ReGroup.seq
    (number ++
     [ ReGroup.star ReGroup.space; years_word; ReGroup.star ReGroup.space;
       ReGroup.opt (ReGroup.text "in"); ReGroup.star ReGroup.space;
       ReGroup.text "the"; ReGroup.star ReGroup.space;
       ReGroup.text "field" ]).

Definition exp_patterns : list ReGroup.regex :=
  [ years_of_experience; experience_colon; years_in_the_field ].

(** The line feed, ["\n"]. *)
Definition newline : string := String (ascii_of_nat 10) EmptyString.

Section Libraries.

Variable fitz_open : list Z -> result (list (result string)).
Variable pdfplumber_open : list Z -> result (list (result (option string))).
Variable docx_open : list Z -> docx_outcome.
Variable max_str_digits : option nat.

(** [for pattern in exp_patterns: match = re.search(pattern, lowered);
     if match: try: return int(match.group(1));
               except ValueError: continue], then [return None]. *)
Fixpoint first_int (patterns : list ReGroup.regex) (lowered : string)
    : result (option Z) :=
  match patterns with
  | [] => Return None
  | pattern :: patterns' =>
      match ReGroup.search pattern lowered with
      | Some m =>
          match PyInt.int_of_group max_str_digits (ReGroup.group1 m) with
          | Return n => Return (Some n)
          | Raise ValueError => first_int patterns' lowered
          | Raise e => Raise e
          end
      | None => first_int patterns' lowered
      end
  end.

Definition extract_years_experience (text : string) : result (option Z) :=
  first_int exp_patterns (PyStr.lower text).


Definition extract_text_from_docx (file_content : list Z) : result string :=
  match docx_open file_content with
  | Paragraphs texts => Return (PyStr.join newline texts)
  | DocxError str_e =>
      Raise (Exception ("Failed to extract text from DOCX: " +:+ str_e))
  end.

(** [str(e)], of an exception raised with a message. *)
Definition str_exn (e : exn) : string :=
  match e with
  | Exception msg => msg
  | _ => EmptyString
  end.

Definition io_lift {A : Type} (r : result A) : io A := fun tr => (r, tr).

Definition optional_str (x : option string) : value :=
  match x with Some s => VStr s | None => VNone end.
Definition optional_int (x : option Z) : value :=
  match x with Some n => VInt n | None => VNone end.

(** The [ValueError] of an unsupported type is raised and caught inside
    the function: only its [str] is kept, so it is raised here as an
    exception with that message. *)
Definition parse_resume (file_content : list Z) (file_type : string)
    : io (gmap string value) :=
  io_try
    (let* text :=
       if String.eqb (PyStr.lower file_type) "pdf" then
         ResumeParser.extract_text_from_pdf
           fitz_open pdfplumber_open file_content
       else if String.eqb (PyStr.lower file_type) "docx" then
         io_lift (extract_text_from_docx file_content)
       else
         io_raise (Exception ("Unsupported file type: " +:+ file_type)) in
     let* years := io_lift (extract_years_experience text) in
     io_ret
       (<["email" := optional_str (extract_email text)]>
       (<["phone" := optional_str (ResumeParser.extract_phone text)]>
       (<["years_experience" := optional_int years]>
       (<["tech_stack" := VList (ResumeParser.extract_tech_stack text)]>
          ∅)))))
    (fun e =>
       io_raise (Exception ("Failed to parse resume: " +:+ str_exn e))).

End Libraries.

End Resume.

(* ===================================================================== *)
(** ** [app.py]: what the form hands to the parser                       *)
(* ===================================================================== *)

Module App.

(** [uploaded_file.name.split('.')[-1].lower()] *)
Definition file_type (name : string) : string :=
  PyStr.lower (List.last (PyStr.split "." name) EmptyString).

(** [[t.strip() for t in tech_stack_input.split(',') if t.strip()]] *)
Definition parse_tech_stack (tech_stack_input : string) : list string :=
  List.map PyStr.strip
    (List.filter (fun t => negb (PyStr.falsy (PyStr.strip t)))
       (PyStr.split "," tech_stack_input)).

(** [", ".join(tech_stack)], the text the form shows for a tech stack. *)
Definition show_tech_stack (tech_stack : list string) : string :=
  PyStr.join ", " tech_stack.

End App.

(* ===================================================================== *)
(** ** [prompt_manager.py]: class [PromptManager]                        *)
(* ===================================================================== *)

Module PromptManager.

Definition TECH_CATEGORIES : list (string * list string) :=
  [ ("languages", ["python"; "java"; "javascript"; "typescript"; "c++"; "c#";
                   "ruby"; "php"; "swift"; "kotlin"; "go"; "rust"]);
    ("frameworks", ["django"; "flask"; "spring"; "react"; "angular"; "vue";
                    "express"; "rails"; "laravel"; "asp.net"]);
    ("databases", ["mysql"; "postgresql"; "mongodb"; "redis"; "oracle";
                   "sql server"; "cassandra"]);
    ("cloud", ["aws"; "azure"; "gcp"; "heroku"; "digitalocean"]);
    ("tools", ["docker"; "kubernetes"; "jenkins"; "git"; "jira"; "confluence"]);
    ("ai_ml", ["tensorflow"; "pytorch"; "scikit-learn"; "pandas"; "numpy";
               "keras"]) ].

Record role_info : Type := RoleInfo
  { technical_focus : list string; behavioral_focus : list string }.

Definition ROLE_FOCUS_AREAS : list (string * role_info) :=
  [ ("AI Intern",
     RoleInfo ["machine learning concepts"; "data preprocessing";
               "model evaluation"; "basic algorithms"]
              ["learning ability"; "problem-solving approach";
               "teamwork in research"]);
    ("Software Engineer",
     RoleInfo ["system design"; "code quality"; "testing";
               "performance optimization"]
              ["problem-solving"; "team collaboration";
               "code review practices"]);
    ("Data Scientist",
     RoleInfo ["statistical analysis"; "data modeling"; "experiment design";
               "data visualization"]
              ["research methodology"; "stakeholder communication";
               "project management"]);
    ("DevOps Engineer",
     RoleInfo ["infrastructure as code"; "CI/CD"; "monitoring"; "security"]
              ["incident response"; "team coordination";
               "automation mindset"]);
    ("Full Stack Developer",
     RoleInfo ["frontend-backend integration"; "API design";
               "database optimization"; "security"]
              ["end-to-end thinking"; "cross-functional collaboration";
               "user experience"]);
    ("Backend Developer",
     RoleInfo ["API design"; "database optimization"; "scalability";
               "security"]
              ["system architecture"; "performance optimization";
               "code maintainability"]);
    ("Frontend Developer",
     RoleInfo ["UI/UX implementation"; "state management";
               "performance optimization"; "accessibility"]
              ["user-centric thinking"; "design collaboration";
               "cross-browser compatibility"]);
    ("Machine Learning Engineer",
     RoleInfo ["model deployment"; "MLOps"; "model optimization";
               "data pipeline"]
              ["production ML systems"; "cross-team collaboration";
               "model monitoring"]);
    ("Data Engineer",
     RoleInfo ["data pipeline design"; "ETL processes"; "data warehousing";
               "data quality"]
              ["data governance"; "cross-functional collaboration";
               "data architecture"]) ].

(** [{category: [] for category in self.tech_categories.keys()}] *)
Definition empty_categories : gmap string (list string) :=
  list_to_map (map (fun entry => (fst entry, [])) TECH_CATEGORIES).

(** [for category, keywords in self.tech_categories.items():
       if tech_lower in keywords:
         categorized[category].append(tech); break] *)
Fixpoint place (categories : list (string * list string))
    (tech_lower tech : string) (categorized : gmap string (list string))
    : gmap string (list string) :=
  match categories with
  | [] => categorized
  | (category, keywords) :: categories' =>
      if bool_decide (tech_lower ∈ keywords)
      then <[category := default [] (categorized !! category) ++ [tech]]>
             categorized
      else place categories' tech_lower tech categorized
  end.

Definition categorize_tech_stack (tech_stack : list string)
    : gmap string (list string) :=
  fold_left
    (fun categorized tech =>
       let tech_lower := PyStr.lower tech in
       place TECH_CATEGORIES tech_lower tech categorized)
    tech_stack empty_categories.

(** [self.role_focus.get(position, self.role_focus['Software Engineer'])];
    the second argument is evaluated first; [None] stands for the
    [KeyError] of a table without that role. *)
Fixpoint lookup_role (table : list (string * role_info)) (position : string)
    : option role_info :=
  match table with
  | [] => None
  | (role, info) :: table' =>
      if String.eqb role position then Some info
      else lookup_role table' position
  end.

Definition role_or_default (position : string) : option role_info :=
  fallback ← lookup_role ROLE_FOCUS_AREAS "Software Engineer";
  Some (default fallback (lookup_role ROLE_FOCUS_AREAS position)).

Definition get_role_focus (position : string) : option string :=
  role_info ← role_or_default position;
  Some (PyStr.join ", " (technical_focus role_info)).

Definition get_behavioral_focus (position : string) : option string :=
  role_info ← role_or_default position;
  Some (PyStr.join ", " (behavioral_focus role_info)).

End PromptManager.

(* ===================================================================== *)
(** ** The matches of a pattern with a group                             *)
(* ===================================================================== *)

Module ReGroupSem.

(** [matches r cap w cap']: the pattern matches the word [w], and group 1,
    which held [cap] before, holds [cap'] after; [iter r n] is [n]
    matches of [r] one after the other. *)
Inductive matches
    : ReGroup.regex -> option string -> string -> option string -> Prop :=
| M_Empty cap : matches ReGroup.Empty cap EmptyString cap
| M_Lit c cap : matches (ReGroup.Lit c) cap (String c EmptyString) cap
| M_Class f c cap :
    f c = true -> matches (ReGroup.Class f) cap (String c EmptyString) cap
| M_Seq r1 r2 cap w1 cap1 w2 cap2 :
    matches r1 cap w1 cap1 -> matches r2 cap1 w2 cap2 ->
    matches (ReGroup.Seq r1 r2) cap (w1 +:+ w2) cap2
| M_Alt_l r1 r2 cap w cap' :
    matches r1 cap w cap' -> matches (ReGroup.Alt r1 r2) cap w cap'
| M_Alt_r r1 r2 cap w cap' :
    matches r2 cap w cap' -> matches (ReGroup.Alt r1 r2) cap w cap'
| M_Repeat lo hi r n cap w cap' :
    (lo <= n)%nat -> iter r n cap w cap' ->
    matches (ReGroup.Repeat lo hi r) cap w cap'
| M_Group r cap w cap' :
    matches r cap w cap' -> matches (ReGroup.Group r) cap w (Some w)
with iter
    : ReGroup.regex -> nat -> option string -> string -> option string
      -> Prop :=
| I_zero r cap : iter r 0 cap EmptyString cap
| I_more r n cap w1 cap1 w2 cap2 :
    matches r cap w1 cap1 -> iter r n cap1 w2 cap2 ->
    iter r (S n) cap (w1 +:+ w2) cap2.

(** Every character the pattern consumes satisfies [q]. *)
Fixpoint alphabet_within (q : ascii -> bool) (r : ReGroup.regex) : bool :=
  match r with
  | ReGroup.Empty => true
  | ReGroup.Lit c => q c
  | ReGroup.Class f => ReSem.class_within f q
  | ReGroup.Seq r1 r2 | ReGroup.Alt r1 r2 =>
      alphabet_within q r1 && alphabet_within q r2
  | ReGroup.Repeat _ _ r' | ReGroup.Group r' => alphabet_within q r'
  end.

(** A lower bound on the length of a match. *)
Fixpoint min_length (r : ReGroup.regex) : nat :=
  match r with
  | ReGroup.Empty => 0
  | ReGroup.Lit _ | ReGroup.Class _ => 1
  | ReGroup.Seq r1 r2 => min_length r1 + min_length r2
  | ReGroup.Alt r1 r2 => Nat.min (min_length r1) (min_length r2)
  | ReGroup.Repeat lo _ r' => lo * min_length r'
  | ReGroup.Group r' => min_length r'
  end.

(** A lower bound on the number of characters satisfying [q] in a
    match. *)
Fixpoint min_count (q : ascii -> bool) (r : ReGroup.regex) : nat :=
  match r with
  | ReGroup.Empty => 0
  | ReGroup.Lit c => if q c then 1 else 0
  | ReGroup.Class f => if ReSem.class_within f q then 1 else 0
  | ReGroup.Seq r1 r2 => min_count q r1 + min_count q r2
  | ReGroup.Alt r1 r2 => Nat.min (min_count q r1) (min_count q r2)
  | ReGroup.Repeat lo _ r' => lo * min_count q r'
  | ReGroup.Group r' => min_count q r'
  end.

(** Every match of the pattern fills the group. *)
Fixpoint sets_group (r : ReGroup.regex) : bool :=
  match r with
  | ReGroup.Group _ => true
  | ReGroup.Seq r1 r2 => sets_group r1 || sets_group r2
  | ReGroup.Alt r1 r2 => sets_group r1 && sets_group r2
  | ReGroup.Repeat lo _ r' => (0 <? lo)%nat && sets_group r'
  | _ => false
  end.

(** Whatever the pattern puts in the group is not empty and is written
    with characters satisfying [q]. *)
Fixpoint group_within (q : ascii -> bool) (r : ReGroup.regex) : bool :=
  match r with
  | ReGroup.Group r' =>
      alphabet_within q r' && (0 <? min_length r')%nat && group_within q r'
  | ReGroup.Seq r1 r2 | ReGroup.Alt r1 r2 =>
      group_within q r1 && group_within q r2
  | ReGroup.Repeat _ _ r' => group_within q r'
  | _ => true
  end.

(** A content of the group that is absent, or not empty and written with
    characters satisfying [q]. *)
Definition group_ok (q : ascii -> bool) (cap : option string) : Prop :=
  forall g, cap = Some g -> PyStr.all q g = true /\ g <> EmptyString.

Scheme matches_ind' := Minimality for matches Sort Prop
  with iter_ind' := Minimality for iter Sort Prop.
Combined Scheme matches_iter_ind from matches_ind', iter_ind'.

(** The loops of a repetition, as for the matcher without group. *)
Definition optional_loop_g
    (body : string → option string →
            (string → option string → option (string * option string)) →
            option (string * option string))
    (k : string → option string → option (string * option string)) :=
  fix optional (n : nat) (s : string) (cap : option string) :=
    match n with
    | O => k s cap
    | S n' =>
        match body s cap (optional n') with
        | Some res => Some res
        | None => k s cap
        end
    end.

Definition mandatory_loop_g
    (body : string → option string →
            (string → option string → option (string * option string)) →
            option (string * option string))
    (k : string → option string → option (string * option string))
    (lo : nat) (hi : option nat) :=
  fix mandatory (n : nat) (s : string) (cap : option string) :=
    match n with
    | O =>
        optional_loop_g body k
          (match hi with
           | Some h => (h - lo)%nat
           | None => String.length s
           end) s cap
    | S n' => body s cap (mandatory n')
    end.

(** What a successful run has consumed is a word of the pattern, with the
    group as the run left it. *)
Definition sound_g
    (body : string → option string →
            (string → option string → option (string * option string)) →
            option (string * option string))
    (r : ReGroup.regex) : Prop :=
  ∀ s cap k res,
    body s cap k = Some res →
    ∃ w s' cap', s = w +:+ s' ∧ matches r cap w cap' ∧ k s' cap' = Some res.

End ReGroupSem.

(* ===================================================================== *)
(** ** Predicates and samples for the further properties                 *)
(* ===================================================================== *)

Module Props.

Definition any_char (_ : ascii) : bool := true.

Definition is_at (c : ascii) : bool := Ascii.eqb c "@".

(** The characters of a phone number as [extract_phone] returns it. *)
Definition phone_char (c : ascii) : bool :=
  PyStr.isdecimal c || PyStr.isspace c || Ascii.eqb c "-" || Ascii.eqb c "."
  || Ascii.eqb c "+" || Ascii.eqb c "(" || Ascii.eqb c ")".

(** The characters of an e-mail address as [extract_email] returns it. *)
Definition email_char (c : ascii) : bool :=
  Resume.email_local c || Ascii.eqb c "@" || Ascii.eqb c "|".

(** The record [parse_resume] builds from the text of a résumé. *)
Definition parsed (max_str_digits : option nat) (text : string)
    : gmap string value :=
  <["email" := Resume.optional_str (Resume.extract_email text)]>
 (<["phone" := Resume.optional_str (ResumeParser.extract_phone text)]>
 (<["years_experience" :=
      match Resume.extract_years_experience max_str_digits text with
      | Return years => Resume.optional_int years
      | Raise _ => VNone
      end]>
 (<["tech_stack" := VList (ResumeParser.extract_tech_stack text)]> ∅))).

(** The record of a résumé in which nothing was found. *)
Definition empty_profile : gmap string value :=
  <["email" := VNone]>
 (<["phone" := VNone]>
 (<["years_experience" := VNone]>
 (<["tech_stack" := VList []]> ∅))).

Definition parsed_keys : gset string :=
  {["email"; "phone"; "years_experience"; "tech_stack"]}.

(** The category that claims a technology, written in lower case: the
    first one whose keywords hold it. *)
Definition category_of (tech_lower : string) : option string :=
  fst <$> List.find (fun entry => bool_decide (tech_lower ∈ snd entry))
            PromptManager.TECH_CATEGORIES.

(** A technology that belongs to the keywords, whatever its letter case. *)
Definition in_category (keywords : list string) (tech : string) : bool :=
  bool_decide (PyStr.lower tech ∈ keywords).

Definition category_names : gset string :=
  list_to_set (map fst PromptManager.TECH_CATEGORIES).

Definition role_names : list string :=
  map fst PromptManager.ROLE_FOCUS_AREAS.

(** An entry of a tech stack as the form accepts it: not empty, without
    white space around it, without comma. *)
Definition clean_entry (t : string) : Prop :=
  t <> EmptyString /\ PyStr.strip t = t /\ PyStr.count "," t = 0%nat.

End Props.

(* ===================================================================== *)
(** ** More sample inputs                                                *)
(* ===================================================================== *)

Module Cases.

(** The same candidate as [Sample.jane], with fewer years. *)
Definition jane_later : gmap string value :=
  <["years_experience" := VInt 2]> Sample.jane.

Definition stored (candidate_id : string) (utcnow : datetime)
    (anonymized : gmap string value) : gmap string value :=
  <["timestamp" := VStr (Clock.isoformat utcnow)]>
    (<["candidate_id" := VStr candidate_id]> anonymized).

(** A file system with the directory [candidates] and no other: the
    states are the files by their paths; a file is written when its path
    is [candidates/<name>], and [open] raises otherwise. *)
Definition flat_write (path : string) (record : gmap string value)
    (files : gmap string (gmap string value))
    : result unit * gmap string (gmap string value) :=
  match PyStr.split "/" path with
  | [dir; name] =>
      if String.eqb dir "candidates"
      then (Return tt, <[path := record]> files)
      else (Raise FileNotFoundError, files)
  | _ => (Raise FileNotFoundError, files)
  end.

Definition flat_read (path : string)
    (files : gmap string (gmap string value)) : option (gmap string value) :=
  files !! path.

Definition files_after_first : gmap string (gmap string value) :=
  <[DataPrivacyManager.file_path "CAND_8c87b489_20240307120005" :=
      stored "CAND_8c87b489_20240307120005" Sample.noon
        Sample.jane_anonymized]> ∅.

Definition files_after_both : gmap string (gmap string value) :=
  <[DataPrivacyManager.file_path "CAND_8c87b489_20240307120005" :=
      stored "CAND_8c87b489_20240307120005" Sample.noon_later
        (<["years_experience" := VInt 2]> Sample.jane_anonymized)]>
    ∅.

(** A DOCX file with four paragraphs, and the record parsed from it. *)
Definition resume_docx (_ : list Z) : docx_outcome :=
  Paragraphs ["Jane Doe"; "jane.doe@example.com"; "+1-555-123-4567";
              "5 years of experience in Python and AWS"].

Definition resume_record : gmap string value :=
  <["email" := VStr "jane.doe@example.com"]>
 (<["phone" := VStr "555-123-4567"]>
 (<["years_experience" := VInt 5]>
 (<["tech_stack" := VList ["aws"; "python"]]> ∅))).

(** A file that python-docx cannot open. *)
Definition broken_docx (_ : list Z) : docx_outcome :=
  DocxError "File is not a zip file".

(** The limit of [int] on the digits of a string, as Python 3.11 sets it. *)
Definition default_limit : option nat := Some 4300%nat.

End Cases.

(* ===================================================================== *)
(** * Properties                                                         *)
(* ===================================================================== *)

(** Closes an equation between closed terms by evaluation. *)
Ltac vm_refl :=
  match goal with
  | |- ?a = ?b => exact (@eq_refl _ b <: a = b)
  end.

(** ** Test vectors for the digest *)

Example sha256_empty :
  SHA256.hexdigest [] =
  "e3b0c44298fc1c149afbf4c8996fb92427ae41e4649b934ca495991b7852b855".
Proof. vm_refl. Qed.

Example sha256_abc :
  SHA256.hexdigest (PyStr.encode "abc") =
  "ba7816bf8f01cfea414140de5dae2223b00361a396177a9cb410ff61f20015ad".
Proof. vm_refl. Qed.

Example sha256_two_blocks :
  SHA256.hexdigest
    (PyStr.encode "abcdbcdecdefdefgefghfghighijhijkijkljklmklmnlmnomnopnopq") =
  "248d6a61d20638b8e5c026930c3e6039a33ce45964ff2167f6ecedd419db06c1".
Proof. vm_refl. Qed.

(** ** Strings *)

#[local] Arguments String.append !_ _ / : simpl nomatch.

Section PyStrFacts.
Import PyStr.

Lemma append_empty_r (s : string) : s +:+ "" = s.
Proof. induction s as [|c s IH]; [reflexivity|]. cbn. by rewrite IH. Qed.

Lemma append_assoc (a b c : string) : (a +:+ b) +:+ c = a +:+ (b +:+ c).
Proof. induction a as [|x a IH]; [reflexivity|]. cbn. by rewrite IH. Qed.

Lemma length_append (a b : string) :
  String.length (a +:+ b) = (String.length a + String.length b)%nat.
Proof. induction a as [|x a IH]; [reflexivity|]. cbn. by rewrite IH. Qed.

Lemma take_append_length (a b : string) :
  take (String.length (a +:+ b) - String.length b) (a +:+ b) = a.
Proof.
  rewrite length_append.
  replace (String.length a + String.length b - String.length b)%nat
    with (String.length a) by lia.
  induction a as [|x a IH]; cbn.
  - by destruct b.
  - by rewrite IH.
Qed.

(** [split] yields one more piece than there are separators. *)
Lemma length_split (sep : ascii) (s : string) :
  length (split sep s) = S (count sep s).
Proof.
  induction s as [|c s IH]; [reflexivity|]. cbn.
  destruct (Ascii.eqb c sep); cbn; [by rewrite IH|].
  destruct (split sep s) as [|p ps]; cbn in *; congruence.
Qed.

Lemma split_no_sep (sep : ascii) (s : string) :
  count sep s = 0%nat → split sep s = [s].
Proof.
  induction s as [|c s IH]; [reflexivity|]. cbn.
  destruct (Ascii.eqb c sep); [discriminate|].
  intros H. by rewrite IH.
Qed.

Lemma split_at_sep (sep : ascii) (a b : string) :
  count sep a = 0%nat →
  split sep (a +:+ String sep b) = a :: split sep b.
Proof.
  induction a as [|c a IH]; cbn.
  - intros _. by rewrite Ascii.eqb_refl.
  - destruct (Ascii.eqb c sep); [discriminate|].
    intros H. by rewrite IH.
Qed.

(** Every token of [s.split()] has a first character. *)
Lemma rev_app_nonempty (s acc : string) :
  acc ≠ "" → String.rev_app s acc ≠ "".
Proof.
  revert acc. induction s as [|c s IH]; intros acc H; cbn; [done|].
  by apply IH.
Qed.

Lemma rev_cons_nonempty (c : ascii) (s : string) :
  String.rev (String c s) ≠ "".
Proof. unfold String.rev. cbn. by apply rev_app_nonempty. Qed.

Lemma split_ws_go_nonempty (cur s t : string) :
  t ∈ split_ws_go cur s → t ≠ "".
Proof.
  revert cur. induction s as [|c s IH]; intros cur; cbn.
  - destruct cur as [|x cur]; [by intros ?%elem_of_nil|].
    intros ->%list_elem_of_singleton. by apply rev_cons_nonempty.
  - destruct (isspace c); [|by apply IH].
    destruct cur as [|x cur]; [by apply IH|].
    intros [->|?]%elem_of_cons; [by apply rev_cons_nonempty|by eapply IH].
Qed.

Lemma split_ws_nonempty (s t : string) : t ∈ split_ws s → t ≠ "".
Proof. apply split_ws_go_nonempty. Qed.

(** [contains] is the occurrence of a substring. *)
Lemma startswith_spec (p s : string) :
  startswith p s = true ↔ ∃ post, s = p +:+ post.
Proof.
  revert s. induction p as [|a p IH]; intros s; cbn.
  - split; [by exists s|done].
  - destruct s as [|b s].
    + split; [done|by intros [? ?]].
    + rewrite andb_true_iff, IH. split.
      * intros [->%Ascii.eqb_eq [post ->]]. by exists post.
      * intros [post [= -> ->]]. rewrite Ascii.eqb_refl. eauto.
Qed.

Lemma contains_spec (p s : string) :
  contains p s = true ↔ ∃ pre post, s = pre +:+ p +:+ post.
Proof.
  induction s as [|c s IH].
  - cbn. rewrite orb_false_r, startswith_spec. split.
    + intros [post H]. by exists "", post.
    + intros [[|x pre] [post H]]; [by exists post|discriminate].
  - cbn [contains]. rewrite orb_true_iff, startswith_spec, IH. split.
    + intros [[post H]|(pre & post & ->)].
      * by exists "", post.
      * by exists (String c pre), post.
    + intros [[|x pre] [post H]]; [left; by exists post|].
      right. injection H as -> ->. by exists pre, post.
Qed.

End PyStrFacts.

(** ** Digests *)

Section DigestFacts.
Import PyStr SHA256 Spec DataPrivacyManager.

Lemma hex_digit_is_hex (n : Z) : is_hex (hex_digit n) = true.
Proof.
  unfold hex_digit.
  assert (Z.to_nat (n mod 16) < 16)%nat as H
    by (pose proof (Z.mod_pos_bound n 16); lia).
  generalize dependent (Z.to_nat (n mod 16)). intros k H.
  do 16 (destruct k as [|k]; [reflexivity|]). lia.
Qed.

Lemma hex8_is_hex (w : Z) : all is_hex (hex8 w) = true.
Proof. unfold hex8. cbn. by rewrite !hex_digit_is_hex. Qed.

Lemma sha_prefix_8 (s : string) :
  sha_prefix 8 s = hex8 (ha (digest (encode s))).
Proof. unfold sha_prefix, hexdigest. by generalize (digest (encode s)). Qed.

Lemma sha_prefix_8_hex (s : string) :
  String.length (sha_prefix 8 s) = 8%nat ∧ all is_hex (sha_prefix 8 s) = true.
Proof. rewrite sha_prefix_8. split; [reflexivity|apply hex8_is_hex]. Qed.

Lemma digit_isdecimal (n : Z) : isdecimal (Clock.digit n) = true.
Proof.
  unfold Clock.digit.
  assert (Z.to_nat (n mod 10) < 10)%nat as H
    by (pose proof (Z.mod_pos_bound n 10); lia).
  replace (n mod 10) with (Z.of_nat (Z.to_nat (n mod 10)))
    by (pose proof (Z.mod_pos_bound n 10); lia).
  generalize dependent (Z.to_nat (n mod 10)). intros k H.
  do 10 (destruct k as [|k]; [reflexivity|]). lia.
Qed.

Lemma strftime_digits (t : datetime) :
  String.length (Clock.strftime t) = 14%nat
  ∧ all isdecimal (Clock.strftime t) = true.
Proof.
  split; [reflexivity|].
  unfold Clock.strftime, Clock.dec4, Clock.dec2. cbn.
  by rewrite !digit_isdecimal.
Qed.

End DigestFacts.

(** ** [DataPrivacyManager] *)

Section PrivacyFacts.
Import PyStr Spec DataPrivacyManager.

Lemma bind_Return {A B : Type} (r : result A) (k : A → result B) (b : B) :
  r ≫= k = Return b → ∃ a, r = Return a ∧ k a = Return b.
Proof. destruct r as [a|e]; [by exists a|discriminate]. Qed.

Lemma last_elem_of (l : list string) (d : string) :
  l ≠ [] → List.last l d ∈ l.
Proof.
  induction l as [|x [|y l] IH]; [done|by left|].
  intros _. right. by apply IH.
Qed.

Lemma first_char_returns (t : string) :
  t ≠ "" → ∃ c, first_char t = Return c.
Proof. destruct t as [|c t]; [done|]. by exists (String c ""). Qed.

(** The three hash functions return on a string, [_hash_email] when the
    string has one [@]. *)
Lemma hash_email_returns (s : string) :
  count "@" s = 1%nat → ∃ h, _hash_email (VStr s) = Return h.
Proof.
  intros H. pose proof (length_split "@" s) as Hlen. rewrite H in Hlen.
  unfold _hash_email.
  destruct (split "@" s) as [|a [|b [|c l]]]; try discriminate. eauto.
Qed.

Lemma hash_email_raises (s : string) :
  count "@" s ≠ 1%nat → _hash_email (VStr s) = Raise ValueError.
Proof.
  intros H. pose proof (length_split "@" s) as Hlen.
  unfold _hash_email.
  destruct (split "@" s) as [|a [|b [|c l]]]; try reflexivity.
  cbn in Hlen. congruence.
Qed.

Lemma hash_phone_returns (s : string) : ∃ h, _hash_phone (VStr s) = Return h.
Proof. unfold _hash_phone. case (_ <? _)%nat; eauto. Qed.

Lemma hash_name_returns (s : string) : ∃ h, _hash_name (VStr s) = Return h.
Proof.
  unfold _hash_name. pose proof (split_ws_nonempty s) as Hne.
  destruct (split_ws s) as [|a [|b l]] eqn:Hparts; cbn -[sha_prefix List.last];
    [eauto..|].
  destruct (first_char_returns a) as [x ->]; [apply Hne; by left|].
  destruct (first_char_returns (List.last (a :: b :: l) "")) as [y Hy];
    [apply Hne, last_elem_of; done|].
  cbn -[sha_prefix List.last]. rewrite Hy. cbn -[sha_prefix]. eauto.
Qed.

(** What a guarded update does to the record. *)
Lemma hash_field_absent (key : string) (hash : value → result string)
    (m : gmap string value) :
  m !! key = None → hash_field key hash m = Return m.
Proof. unfold hash_field. by intros ->. Qed.

Lemma hash_field_inv (key : string) (hash : value → result string)
    (m m' : gmap string value) :
  hash_field key hash m = Return m' →
  (m !! key = None ∧ m' = m) ∨
  (∃ v h, m !! key = Some v ∧ hash v = Return h ∧ m' = <[key := VStr h]> m).
Proof.
  unfold hash_field. destruct (m !! key) as [v|] eqn:Hk.
  - intros (h & Hh & Heq)%bind_Return. injection Heq as <-.
    right. by exists v, h.
  - intros Heq. injection Heq as <-. by left.
Qed.

Lemma hash_field_lookup_ne (key key' : string) (hash : value → result string)
    (m m' : gmap string value) :
  hash_field key hash m = Return m' → key ≠ key' → m' !! key' = m !! key'.
Proof.
  intros [[_ ->]|(v & h & _ & _ & ->)]%hash_field_inv Hne; [done|].
  by rewrite lookup_insert_ne.
Qed.

Lemma hash_field_dom (key : string) (hash : value → result string)
    (m m' : gmap string value) :
  hash_field key hash m = Return m' → dom m' = dom m.
Proof.
  intros [[_ ->]|(v & h & Hk & _ & ->)]%hash_field_inv; [done|].
  rewrite dom_insert_L. apply elem_of_dom_2 in Hk.
  apply (subseteq_union_1_L (C := gset string)).
  by apply singleton_subseteq_l.
Qed.

Lemma hash_field_lookup (key : string) (hash : value → result string)
    (m m' : gmap string value) :
  hash_field key hash m = Return m' →
  match m !! key with
  | None => m' !! key = None
  | Some v => ∃ h, hash v = Return h ∧ m' !! key = Some (VStr h)
  end.
Proof.
  intros [[Hk ->]|(v & h & Hk & Hh & ->)]%hash_field_inv; rewrite Hk; [done|].
  exists h. by rewrite lookup_insert_eq.
Qed.

Lemma hash_field_returns (key : string) (hash : value → result string)
    (m : gmap string value) :
  (∀ v, m !! key = Some v → ∃ h, hash v = Return h) →
  ∃ m', hash_field key hash m = Return m'.
Proof.
  unfold hash_field. destruct (m !! key) as [v|]; [|eauto].
  intros H. destruct (H v eq_refl) as [h ->]. cbn. eauto.
Qed.

(** The three guarded updates of [anonymize_data], one after the other. *)
Lemma anonymize_data_inv (data out : gmap string value) :
  anonymize_data data = Return out →
  ∃ m1 m2, hash_field "email" _hash_email data = Return m1
           ∧ hash_field "phone" _hash_phone m1 = Return m2
           ∧ hash_field "full_name" _hash_name m2 = Return out.
Proof.
  unfold anonymize_data.
  intros (m1 & H1 & (m2 & H2 & (m3 & H3 & [= <-])%bind_Return)%bind_Return)
    %bind_Return.
  by exists m1, m2.
Qed.

Lemma not_personal (key : string) :
  key ∉ personal_fields →
  "email" ≠ key ∧ "phone" ≠ key ∧ "full_name" ≠ key.
Proof.
  unfold personal_fields. rewrite !not_elem_of_cons.
  intros (He & Hp & Hn & _). repeat split; congruence.
Qed.

(** Fields other than the three personal ones are left as they are. *)
Lemma anonymize_data_frame (data out : gmap string value) (key : string) :
  anonymize_data data = Return out →
  key ∉ personal_fields → out !! key = data !! key.
Proof.
  intros (m1 & m2 & H1 & H2 & H3)%anonymize_data_inv Hkey.
  apply not_personal in Hkey as (He & Hp & Hn).
  rewrite (hash_field_lookup_ne _ key _ _ _ H3 Hn).
  rewrite (hash_field_lookup_ne _ key _ _ _ H2 Hp).
  by rewrite (hash_field_lookup_ne _ key _ _ _ H1 He).
Qed.

Lemma anonymize_data_dom (data out : gmap string value) :
  anonymize_data data = Return out → dom out = dom data.
Proof.
  intros (m1 & m2 & H1 & H2 & H3)%anonymize_data_inv.
  rewrite (hash_field_dom _ _ _ _ H3), (hash_field_dom _ _ _ _ H2).
  by apply hash_field_dom in H1.
Qed.

(** A personal field that is set comes out as a string, one that is
    unset stays unset. *)
Lemma anonymize_data_personal (data out : gmap string value) (key : string) :
  anonymize_data data = Return out → key ∈ personal_fields →
  match data !! key with
  | None => out !! key = None
  | Some _ => ∃ h, out !! key = Some (VStr h)
  end.
Proof.
  intros (m1 & m2 & H1 & H2 & H3)%anonymize_data_inv Hkey.
  pose proof (hash_field_lookup _ _ _ _ H1) as L1.
  pose proof (hash_field_lookup _ _ _ _ H2) as L2.
  pose proof (hash_field_lookup _ _ _ _ H3) as L3.
  unfold personal_fields in Hkey.
  apply elem_of_cons in Hkey as [->|Hkey];
    [|apply elem_of_cons in Hkey as [->|Hkey];
      [|apply list_elem_of_singleton in Hkey as ->]].
  - rewrite (hash_field_lookup_ne _ "email" _ _ _ H3) by done.
    rewrite (hash_field_lookup_ne _ "email" _ _ _ H2) by done.
    destruct (data !! "email"); [|done]. destruct L1 as (h & _ & ->). eauto.
  - rewrite (hash_field_lookup_ne _ "phone" _ _ _ H3) by done.
    rewrite <- (hash_field_lookup_ne _ "phone" _ _ _ H1) by done.
    destruct (m1 !! "phone"); [|done]. destruct L2 as (h & _ & ->). eauto.
  - rewrite <- (hash_field_lookup_ne _ "full_name" _ _ _ H1) by done.
    rewrite <- (hash_field_lookup_ne _ "full_name" _ _ _ H2) by done.
    destruct (m2 !! "full_name"); [|done]. destruct L3 as (h & _ & ->). eauto.
Qed.

(** [anonymize_data] returns on every well-formed record. *)
Lemma anonymize_data_returns (data : gmap string value) :
  well_formed data = true → ∃ out, anonymize_data data = Return out.
Proof.
  unfold well_formed, structurally_valid.
  rewrite !andb_true_iff. intros [[[Hname _] Hphone] Hemail].
  destruct (hash_field_returns "email" _hash_email data) as [m1 H1].
  { intros v Hv. rewrite Hv in Hemail. destruct v; try discriminate.
    apply hash_email_returns. by apply Nat.eqb_eq. }
  destruct (hash_field_returns "phone" _hash_phone m1) as [m2 H2].
  { intros v. rewrite (hash_field_lookup_ne _ "phone" _ _ _ H1) by done.
    intros Hv. rewrite Hv in Hphone. destruct v; try discriminate.
    apply hash_phone_returns. }
  destruct (hash_field_returns "full_name" _hash_name m2) as [m3 H3].
  { intros v. rewrite (hash_field_lookup_ne _ "full_name" _ _ _ H2) by done.
    rewrite (hash_field_lookup_ne _ "full_name" _ _ _ H1) by done.
    intros Hv. rewrite Hv in Hname. destruct v; try discriminate.
    apply hash_name_returns. }
  exists m3. unfold anonymize_data. rewrite H1. cbn. rewrite H2. cbn.
  by rewrite H3.
Qed.

End PrivacyFacts.

(** ** The contract of [DataPrivacyManager] *)

Section PrivacyContract.
Import PyStr Spec DataPrivacyManager.

Example anonymize_jane :
  anonymize_data Sample.jane = Return Sample.jane_anonymized.
Proof. vm_refl. Qed.

Example hash_email_john :
  _hash_email (VStr "john@example.com") = Return "96d9632f@example.com".
Proof. vm_refl. Qed.

Example hash_email_none : _hash_email VNone = Raise AttributeError.
Proof. reflexivity. Qed.

(** A key that is present and holds [None], as [parse_resume] writes a
    field it did not find, is not an unset field for [anonymize_data]. *)
Example anonymize_data_none_email :
  anonymize_data (<["email" := VNone]> Sample.skills_only)
  = Raise AttributeError.
Proof. vm_refl. Qed.

(** C2, as the specification states it, fails: a record whose personal
    fields all have the right type, with an e-mail that has no [@],
    makes [anonymize_data] raise [ValueError]. *)
Lemma anonymize_data_raises_on_valid_record :
  structurally_valid Sample.no_at_sign = true
  ∧ anonymize_data Sample.no_at_sign = Raise ValueError.
Proof. split; vm_refl. Qed.

(** C2, amended: on a record whose full_name, email and phone are each
    unset or a string, the e-mail, when set, holding exactly one [@],
    [anonymize_data] does not raise; every unset field stays unset in the
    result, and the guarded update of an unset field leaves the record as
    it is whatever the hash function (it is not applied). *)
Theorem anonymize_data_well_formed (data : gmap string value) :
  well_formed data = true →
  ∃ out, anonymize_data data = Return out
    ∧ (∀ key, key ∈ personal_fields → data !! key = None → out !! key = None)
    ∧ (∀ key hash, data !! key = None → hash_field key hash data = Return data).
Proof.
  intros [out Hout]%anonymize_data_returns. exists out.
  split; [done|]. split.
  - intros key Hkey Hnone.
    pose proof (anonymize_data_personal _ _ _ Hout Hkey) as H.
    by rewrite Hnone in H.
  - intros key hash. apply hash_field_absent.
Qed.

Lemma anonymize_data_well_formed_witness :
  well_formed Sample.skills_only = true
  ∧ ∃ out, anonymize_data Sample.skills_only = Return out
    ∧ (∀ key, key ∈ personal_fields →
         Sample.skills_only !! key = None → out !! key = None)
    ∧ (∀ key hash, Sample.skills_only !! key = None →
         hash_field key hash Sample.skills_only = Return Sample.skills_only).
Proof.
  split; [reflexivity|].
  apply (anonymize_data_well_formed Sample.skills_only). reflexivity.
Defined.

(** C4: whenever [anonymize_data] returns, on a valid record or on any
    other, the years_experience, desired_position, current_location and
    tech_stack of the record returned are those of the input, unchanged:
    the same value under the key, or the key absent in both. *)
Theorem anonymize_data_copies_verbatim (data out : gmap string value) :
  anonymize_data data = Return out →
  out !! "years_experience" = data !! "years_experience"
  ∧ out !! "desired_position" = data !! "desired_position"
  ∧ out !! "current_location" = data !! "current_location"
  ∧ out !! "tech_stack" = data !! "tech_stack".
Proof.
  intros Hout.
  repeat split; apply (anonymize_data_frame _ _ _ Hout);
    unfold personal_fields; rewrite !not_elem_of_cons;
    repeat split; try discriminate; apply not_elem_of_nil.
Qed.

Lemma anonymize_data_copies_verbatim_witness :
  anonymize_data Sample.jane = Return Sample.jane_anonymized
  ∧ Sample.jane_anonymized !! "years_experience"
    = Sample.jane !! "years_experience"
  ∧ Sample.jane_anonymized !! "desired_position"
    = Sample.jane !! "desired_position"
  ∧ Sample.jane_anonymized !! "current_location"
    = Sample.jane !! "current_location"
  ∧ Sample.jane_anonymized !! "tech_stack" = Sample.jane !! "tech_stack".
Proof.
  split; [vm_refl|].
  apply (anonymize_data_copies_verbatim Sample.jane Sample.jane_anonymized).
  vm_refl.
Defined.

(** C5: on an e-mail [username@domain], neither part holding an [@],
    [_hash_email] returns the first eight characters of the SHA-256
    hexadecimal digest of the username, which are eight hexadecimal
    digits, then [@] and the domain as it was; equal inputs give equal
    results. *)
Theorem hash_email_username_domain (username domain : string) :
  count "@" username = 0%nat → count "@" domain = 0%nat →
  let digest := take 8 (SHA256.hexdigest (encode username)) in
  _hash_email (VStr (username +:+ "@" +:+ domain))
    = Return (digest +:+ "@" +:+ domain)
  ∧ String.length digest = 8%nat
  ∧ all is_hex digest = true
  ∧ (∀ email email', email = email' → _hash_email email = _hash_email email').
Proof.
  intros Hu Hd digest. split; [|split; [|split]].
  - unfold _hash_email. cbn [String.append].
    by rewrite (split_at_sep "@" username domain Hu), (split_no_sep _ _ Hd).
  - apply (sha_prefix_8_hex username).
  - apply (sha_prefix_8_hex username).
  - by intros email email' ->.
Qed.

Lemma hash_email_username_domain_witness :
  count "@" "john" = 0%nat ∧ count "@" "example.com" = 0%nat
  ∧ (_hash_email (VStr ("john" +:+ "@" +:+ "example.com"))
       = Return (take 8 (SHA256.hexdigest (encode "john"))
                 +:+ "@" +:+ "example.com")
     ∧ String.length (take 8 (SHA256.hexdigest (encode "john"))) = 8%nat
     ∧ all is_hex (take 8 (SHA256.hexdigest (encode "john"))) = true
     ∧ (∀ email email', email = email' →
          _hash_email email = _hash_email email')).
Proof.
  split; [reflexivity|]. split; [reflexivity|].
  apply (hash_email_username_domain "john" "example.com"); reflexivity.
Defined.

Example generate_candidate_id_noon :
  generate_candidate_id Sample.jane Sample.noon
  = Return "CAND_8c87b489_20240307120005".
Proof. vm_refl. Qed.

Example generate_candidate_id_no_email :
  generate_candidate_id Sample.skills_only Sample.noon
  = Return "CAND_e3b0c442_20240307120005".
Proof. vm_refl. Qed.









(** C9: when the e-mail of the record is a string that does not hold
    exactly one [@], [anonymize_data] raises ([ValueError], from the
    unpacking of the split into two names) and returns no record. *)
Theorem anonymize_data_malformed_email (data : gmap string value)
    (email : string) :
  data !! "email" = Some (VStr email) → count "@" email ≠ 1%nat →
  anonymize_data data = Raise ValueError.
Proof.
  intros Hemail Hcount. unfold anonymize_data, hash_field.
  rewrite Hemail. by rewrite (hash_email_raises _ Hcount).
Qed.

Lemma anonymize_data_malformed_email_witness :
  Sample.no_at_sign !! "email" = Some (VStr "jane.example.com")
  ∧ count "@" "jane.example.com" ≠ 1%nat
  ∧ anonymize_data Sample.no_at_sign = Raise ValueError.
Proof.
  split; [reflexivity|]. split; [discriminate|].
  apply (anonymize_data_malformed_email Sample.no_at_sign "jane.example.com");
    [reflexivity|discriminate].
Defined.

Example anonymize_data_two_ats :
  anonymize_data (<["email" := VStr "a@b@c"]> ∅) = Raise ValueError.
Proof. vm_refl. Qed.

(** C10: when [anonymize_data] returns, the record returned has the keys
    of the input, no more and no fewer; every key other than email,
    phone and full_name keeps its value, and those three, when present,
    hold the hashed string; candidate_id and timestamp are put in by
    [save_anonymized_data], on the record it hands to the writing of the
    file, whatever the file system is: the save returns or raises as that
    writing does. *)
Theorem anonymize_data_same_fields (data out : gmap string value) :
  anonymize_data data = Return out →
  dom out = dom data
  ∧ (∀ key, key ∉ personal_fields → out !! key = data !! key)
  ∧ (∀ key, key ∈ personal_fields →
       match data !! key with
       | None => out !! key = None
       | Some _ => ∃ h, out !! key = Some (VStr h)
       end)
  ∧ (∀ (fs : Type)
       (write_json : string → gmap string value → fs → result unit * fs)
       candidate_id utcnow (s : fs),
       ∃ record,
         save_anonymized_data write_json data candidate_id utcnow s
           = write_json (file_path candidate_id) record s
         ∧ dom record = dom data ∪ {["candidate_id"; "timestamp"]}
         ∧ record !! "candidate_id" = Some (VStr candidate_id)
         ∧ record !! "timestamp" = Some (VStr (Clock.isoformat utcnow))
         ∧ (∀ key, key ≠ "candidate_id" → key ≠ "timestamp" →
              record !! key = out !! key)).
Proof.
  intros Hout. split; [by apply anonymize_data_dom|].
  split; [intros key; by apply anonymize_data_frame|].
  split; [intros key; by apply anonymize_data_personal|].
  intros fs write_json candidate_id utcnow s.
  eexists. unfold save_anonymized_data. rewrite Hout. cbv zeta.
  split; [reflexivity|]. split; [|split; [|split]].
  - rewrite !dom_insert_L, (anonymize_data_dom _ _ Hout).
    apply set_eq. intros key.
    rewrite !elem_of_union, !elem_of_singleton. tauto.
  - by rewrite lookup_insert_ne, lookup_insert_eq.
  - by rewrite lookup_insert_eq.
  - intros key H1 H2. by rewrite !lookup_insert_ne.
Qed.

Lemma anonymize_data_same_fields_witness :
  anonymize_data Sample.jane = Return Sample.jane_anonymized
  ∧ dom Sample.jane_anonymized = dom Sample.jane.
Proof.
  split; [vm_refl|].
  apply (anonymize_data_same_fields Sample.jane Sample.jane_anonymized).
  vm_refl.
Defined.

End PrivacyContract.

(** ** [extract_tech_stack] *)

Section TechStackFacts.
Import PyStr Spec ResumeParser.

(** The inner loop adds the keywords of one category found in the text. *)
Lemma scan_keywords (t : string) (keywords : list string)
    (found : gset string) (k : string) :
  k ∈ fold_left
        (fun found tech =>
           if contains tech t then found ∪ {[tech]} else found)
        keywords found
  ↔ k ∈ found ∨ (k ∈ keywords ∧ contains k t = true).
Proof.
  revert found. induction keywords as [|tech keywords IH]; intros found; cbn.
  - rewrite elem_of_nil. tauto.
  - rewrite IH, elem_of_cons. destruct (contains tech t) eqn:Ht.
    + rewrite elem_of_union, elem_of_singleton. split.
      * intros [[?| ->]|[? ?]]; auto.
      * intros [?|[[->|?] ?]]; auto.
    + split.
      * intros [?|[? ?]]; auto.
      * intros [?|[[->|?] ?]]; auto. congruence.
Qed.

(** The outer loop does so for every category. *)
Lemma scan_categories (t : string) (categories : list (string * list string))
    (found : gset string) (k : string) :
  k ∈ fold_left
        (fun found '(category, keywords) =>
           fold_left
             (fun found tech =>
                if contains tech t then found ∪ {[tech]} else found)
             keywords found)
        categories found
  ↔ k ∈ found ∨ (k ∈ concat (map snd categories) ∧ contains k t = true).
Proof.
  revert found.
  induction categories as [|[category keywords] categories IH];
    intros found; cbn.
  - rewrite elem_of_nil. tauto.
  - rewrite IH, scan_keywords, elem_of_app. tauto.
Qed.

Lemma elem_of_sorted (found : gset string) (k : string) :
  k ∈ sorted found ↔ k ∈ found.
Proof.
  unfold sorted. by rewrite merge_sort_Permutation, elem_of_elements.
Qed.

Lemma elem_of_extract_tech_stack (text k : string) :
  k ∈ extract_tech_stack text
  ↔ k ∈ taxonomy_keywords ∧ contains k (lower text) = true.
Proof.
  unfold extract_tech_stack. rewrite elem_of_sorted, scan_categories.
  rewrite elem_of_empty. unfold taxonomy_keywords. tauto.
Qed.

Lemma taxonomy_lowercase (k : string) :
  k ∈ taxonomy_keywords → lower k = k.
Proof.
  unfold taxonomy_keywords. cbn.
  repeat (intros [->|H]%elem_of_cons; [reflexivity|revert H]).
  by intros ?%elem_of_nil.
Qed.

(** C7: [extract_tech_stack] returns the list, in ascending order and
    without duplicates, of exactly the taxonomy keywords that occur
    somewhere in the lowercased text, with no condition on what stands
    around the occurrence; the keywords come out as the taxonomy writes
    them, in lower case; the list is the only one with these properties.
    On ["I use Python and react daily"] it is [["python"; "react"]], and
    ["go"] is found inside ["gopher"]. *)
Theorem extract_tech_stack_sorted_keywords (text : string) :
  Sorted String.le (extract_tech_stack text)
  ∧ NoDup (extract_tech_stack text)
  ∧ (∀ k, k ∈ extract_tech_stack text
          ↔ k ∈ taxonomy_keywords ∧ occurs_in k (lower text))
  ∧ (∀ k, k ∈ extract_tech_stack text → lower k = k)
  ∧ (∀ l, Sorted String.le l → NoDup l →
          (∀ k, k ∈ l ↔ k ∈ taxonomy_keywords ∧ occurs_in k (lower text)) →
          l = extract_tech_stack text)
  ∧ extract_tech_stack "I use Python and react daily" = ["python"; "react"]
  ∧ extract_tech_stack "gopher" = ["go"].
Proof.
  assert (Sorted String.le (extract_tech_stack text)) as Hsorted
    by apply (Sorted_merge_sort String.le).
  assert (NoDup (extract_tech_stack text)) as Hnodup.
  { unfold extract_tech_stack, sorted.
    rewrite merge_sort_Permutation. apply NoDup_elements. }
  assert (∀ k, k ∈ extract_tech_stack text
               ↔ k ∈ taxonomy_keywords ∧ occurs_in k (lower text)) as Hmem.
  { intros k. rewrite elem_of_extract_tech_stack. unfold occurs_in.
    by rewrite contains_spec. }
  split; [done|]. split; [done|]. split; [done|]. split; [|split].
  - intros k [Hk _]%Hmem. by apply taxonomy_lowercase.
  - intros l Hl Hnd Hl_mem.
    apply (Sorted_unique String.le); [done..|].
    apply NoDup_Permutation; [done..|].
    intros k. by rewrite Hl_mem, Hmem.
  - split; vm_refl.
Qed.

Lemma extract_tech_stack_sorted_keywords_witness :
  "react" ∈ extract_tech_stack "I use Python and react daily"
  ↔ "react" ∈ taxonomy_keywords
    ∧ occurs_in "react" (lower "I use Python and react daily").
Proof.
  apply (extract_tech_stack_sorted_keywords "I use Python and react daily").
Defined.

Example extract_tech_stack_mixed_case :
  extract_tech_stack "PostgreSQL, Node and JAVASCRIPT; Django REST"
  = ["django"; "go"; "java"; "javascript"; "postgresql"].
Proof. vm_refl. Qed.

End TechStackFacts.

(** ** [extract_text_from_pdf] *)

Section PdfFacts.
Import PyStr Spec ResumeParser.

Variable fitz_open : list Z → result (list (result string)).
Variable pdfplumber_open : list Z → result (list (result (option string))).

Lemma primary_event_not_pdfplumber (evs : list event) :
  Forall primary_event evs →
  (PdfplumberOpen ∉ evs) ∧ (∀ i, PdfplumberExtractText i ∉ evs).
Proof.
  intros H. split; [|intros i];
    intros Hin; by apply (proj1 (Forall_forall _ _) H) in Hin.
Qed.

(** The loop over the pages of PyMuPDF appends the texts, or stops at the
    first page that raises; it calls nothing but [get_text]. *)
Lemma fitz_pages_run (doc : list (result string)) (n : nat) (text : string)
    (tr : list event) :
  ∃ evs,
    fitz_pages doc n text tr
      = (match concat_pages doc with
         | Return t => Return (text +:+ t)
         | Raise e => Raise e
         end, tr ++ evs)
    ∧ Forall primary_event evs.
Proof.
  revert n text tr. induction doc as [|page doc IH]; intros n text tr.
  - exists []. cbn. by rewrite append_empty_r, app_nil_r.
  - cbn. unfold io_bind, io_call. destruct page as [t|e]; cbn.
    + destruct (IH (S n) (text +:+ t) (tr ++ [FitzGetText n]))
        as (evs & -> & Hevs).
      exists (FitzGetText n :: evs). split.
      * rewrite <- app_assoc. cbn.
        destruct (concat_pages doc); cbn; [by rewrite append_assoc|done].
      * constructor; [exact I|done].
    + exists [FitzGetText n]. split; [done|]. repeat constructor.
Qed.

Lemma pdfplumber_pages_run (pages : list (result (option string))) (n : nat)
    (text : string) (tr : list event) :
  ∃ evs,
    pdfplumber_pages pages n text tr
      = (match concat_pages (map page_text pages) with
         | Return t => Return (text +:+ t)
         | Raise e => Raise e
         end, tr ++ evs).
Proof.
  revert n text tr. induction pages as [|page pages IH]; intros n text tr.
  - exists []. cbn. by rewrite append_empty_r, app_nil_r.
  - cbn. unfold io_bind, io_call. destruct page as [t|e]; cbn.
    + destruct (IH (S n) (text +:+ or_empty t)
                   (tr ++ [PdfplumberExtractText n])) as (evs & ->).
      exists (PdfplumberExtractText n :: evs).
      rewrite <- app_assoc. cbn.
      destruct (concat_pages (map page_text pages)); cbn;
        [by rewrite append_assoc|done].
    + by exists [PdfplumberExtractText n].
Qed.

(** The first [try]: the text of the primary strategy, or nothing when
    it raised; pdfplumber is not called there. *)
Lemma primary_run (file_content : list Z) :
  ∃ evs,
    io_try
      (let* doc := io_call FitzOpen (fitz_open file_content) in
       let* text := fitz_pages doc 0 EmptyString in
       let* _ := io_call FitzClose (Return tt) in
       io_ret text)
      (fun e =>
         let* _ := io_print "PyMuPDF extraction failed: " e in
         io_ret EmptyString) []
    = (Return (text_of (primary fitz_open file_content)), evs)
    ∧ Forall primary_event evs.
Proof.
  unfold primary, io_try, io_bind, io_call, io_print, io_ret. cbn.
  destruct (fitz_open file_content) as [doc|e]; cbn.
  - destruct (fitz_pages_run doc 0 "" [FitzOpen]) as (evs & Hrun & Hevs).
    rewrite Hrun.
    destruct (concat_pages doc) as [t|e]; cbn; eexists; (split; [done|]);
      (constructor; [exact I|]); (apply Forall_app; split; [done|]);
      repeat constructor.
  - eexists. split; [done|]. repeat constructor.
Qed.

(** C8, as the specification states it, fails: a primary text that is
    not empty but holds white space only sends the run to pdfplumber,
    and what is returned is not that text. *)
Lemma extract_text_from_pdf_whitespace_falls_back :
  primary Sample.scan_fitz [] = Return " "
  ∧ " " ≠ ""
  ∧ extract_text_from_pdf Sample.scan_fitz Sample.scan_pdfplumber [] []
    = (Return " x",
       [FitzOpen; FitzGetText 0; FitzClose;
        PdfplumberOpen; PdfplumberExtractText 0]).
Proof. repeat split. discriminate. Qed.

(** C8, amended: when the primary strategy yields a text that is not
    blank (not empty and not all white space), [extract_text_from_pdf]
    returns exactly that text and pdfplumber is not called. *)
Theorem extract_text_from_pdf_primary (file_content : list Z)
    (text : string) :
  primary fitz_open file_content = Return text → blank text = false →
  ∃ trace,
    extract_text_from_pdf fitz_open pdfplumber_open file_content []
      = (Return text, trace)
    ∧ (PdfplumberOpen ∉ trace)
    ∧ (∀ i, PdfplumberExtractText i ∉ trace).
Proof.
  intros Hprimary Hblank.
  destruct (primary_run file_content) as (evs & Hrun & Hevs).
  rewrite Hprimary in Hrun. cbn in Hrun.
  exists evs. split; [|by apply primary_event_not_pdfplumber].
  unfold extract_text_from_pdf, io_bind at 1. rewrite Hrun.
  unfold blank in Hblank. by rewrite Hblank.
Qed.

(** C1, as the specification states it, fails: when both strategies
    yield no text and neither raises, the empty text is returned, not an
    error. *)
Lemma extract_text_from_pdf_returns_blank :
  blank (text_of (primary Sample.image_fitz [])) = true
  ∧ secondary Sample.image_pdfplumber [] = Return ""
  ∧ extract_text_from_pdf Sample.image_fitz Sample.image_pdfplumber [] []
    = (Return "",
       [FitzOpen; FitzGetText 0; FitzClose;
        PdfplumberOpen; PdfplumberExtractText 0]).
Proof. repeat split. Qed.

(** C1, amended: when the primary strategy yields a blank text, or
    raises, pdfplumber is called; when the secondary strategy raises,
    [extract_text_from_pdf] raises [Exception("Failed to extract text
    from PDF")]; when it does not raise, the text returned is the
    primary text followed by the page texts of pdfplumber. *)
Theorem extract_text_from_pdf_fallback (file_content : list Z) :
  blank (text_of (primary fitz_open file_content)) = true →
  ∃ trace,
    PdfplumberOpen ∈ trace
    ∧ extract_text_from_pdf fitz_open pdfplumber_open file_content []
      = (match secondary pdfplumber_open file_content with
         | Return t =>
             Return (text_of (primary fitz_open file_content) +:+ t)
         | Raise _ => Raise (Exception "Failed to extract text from PDF")
         end, trace).
Proof.
  intros Hblank.
  destruct (primary_run file_content) as (evs & Hrun & _).
  unfold extract_text_from_pdf, io_bind at 1. rewrite Hrun.
  unfold blank in Hblank. rewrite Hblank.
  unfold secondary, io_try, io_bind, io_call, io_print, io_raise. cbn.
  destruct (pdfplumber_open file_content) as [pdf|e]; cbn.
  - destruct (pdfplumber_pages_run pdf 0
                (text_of (primary fitz_open file_content))
                (evs ++ [PdfplumberOpen])) as (evs' & ->).
    destruct (concat_pages (map page_text pdf)); eexists;
      (split; [|reflexivity]);
      rewrite !elem_of_app, list_elem_of_singleton; auto.
  - eexists. split; [|reflexivity].
    rewrite !elem_of_app, list_elem_of_singleton; auto.
Qed.

End PdfFacts.

Lemma extract_text_from_pdf_primary_witness :
  Spec.primary Sample.text_fitz [] = Return "Jane Doe "
  ∧ Spec.blank "Jane Doe " = false
  ∧ ∃ trace,
      ResumeParser.extract_text_from_pdf
        Sample.text_fitz Sample.broken_pdfplumber [] []
        = (Return "Jane Doe ", trace)
      ∧ (PdfplumberOpen ∉ trace)
      ∧ (∀ i, PdfplumberExtractText i ∉ trace).
Proof.
  split; [reflexivity|]. split; [reflexivity|].
  apply (extract_text_from_pdf_primary
           Sample.text_fitz Sample.broken_pdfplumber [] "Jane Doe ");
    reflexivity.
Defined.

Lemma extract_text_from_pdf_fallback_witness :
  Spec.blank (Spec.text_of (Spec.primary Sample.broken_fitz [])) = true
  ∧ ∃ trace,
      PdfplumberOpen ∈ trace
      ∧ ResumeParser.extract_text_from_pdf
          Sample.broken_fitz Sample.broken_pdfplumber [] []
        = (Raise (Exception "Failed to extract text from PDF"), trace).
Proof.
  split; [reflexivity|].
  apply (extract_text_from_pdf_fallback
           Sample.broken_fitz Sample.broken_pdfplumber []).
  reflexivity.
Defined.

Example extract_text_from_pdf_scanned :
  ResumeParser.extract_text_from_pdf
    Sample.broken_fitz Sample.scan_pdfplumber [] []
  = (Return "x",
     [FitzOpen;
      Print "PyMuPDF extraction failed: "
            (Exception "cannot open broken document");
      PdfplumberOpen; PdfplumberExtractText 0]).
Proof. reflexivity. Qed.

(** ** [extract_phone] *)

(** Evaluates the character classes applied to the characters of a
    literal text. *)
Ltac eval_classes :=
  repeat match goal with
    | |- context [PyStr.isdecimal ?c] =>
        let b := eval vm_compute in (PyStr.isdecimal c) in
        change (PyStr.isdecimal c) with b
    | |- context [PyStr.isword ?c] =>
        let b := eval vm_compute in (PyStr.isword c) in
        change (PyStr.isword c) with b
    | |- context [PyStr.isspace ?c] =>
        let b := eval vm_compute in (PyStr.isspace c) in
        change (PyStr.isspace c) with b
    end.

Section PhoneFacts.
Import PyStr Spec ResumeParser.

(** The loop over the three patterns, unrolled. *)
Lemma extract_phone_unfold (text : string) :
  extract_phone text
  = match Re.search plain_pattern text with
    | Some m => Some m
    | None =>
        match Re.search international_pattern text with
        | Some m => Some m
        | None => Re.search parenthesized_pattern text
        end
    end.
Proof.
  unfold extract_phone, phone_patterns, first_match.
  by repeat case (Re.search _ text).
Qed.

Lemma search_from_unfold (r : Re.regex) (prev : option ascii) (s : string) :
  Re.search_from r prev s
  = match Re.match_here r prev s with
    | Some m => Some m
    | None =>
        match s with
        | EmptyString => None
        | String c s' => Re.search_from r (Some c) s'
        end
    end.
Proof. by destruct s. Qed.

(** The plain pattern has no match that starts on a character other than
    a digit. *)
Lemma plain_pattern_needs_digit (prev : option ascii) (c : ascii)
    (s : string) :
  isdecimal c = false →
  Re.match_here plain_pattern prev (String c s) = None.
Proof.
  intros Hc. unfold Re.match_here, plain_pattern. cbn.
  rewrite Hc. by case (xorb _ _).
Qed.

(** It matches the number where the number stands between characters
    that are not word characters. *)
Lemma plain_pattern_matches_number (prev : option ascii) (post : string) :
  Re.isword_at prev = false → Re.isword_at (Re.peek post) = false →
  Re.match_here plain_pattern prev ("123-456-7890" +:+ post)
  = Some "123-456-7890".
Proof.
  intros Hprev Hpost. unfold Re.match_here, plain_pattern. cbn.
  rewrite Hprev, Hpost. eval_classes. cbn.
  f_equal. by replace (_ - _)%nat with 12%nat by lia.
Qed.

Lemma search_plain_number (pre post : string) (prev : option ascii) :
  no_digit pre = true →
  Re.isword_at (char_before prev pre) = false →
  Re.isword_at (Re.peek post) = false →
  Re.search_from plain_pattern prev (pre +:+ "123-456-7890" +:+ post)
  = Some "123-456-7890".
Proof.
  revert prev. induction pre as [|c pre IH]; intros prev Hpre Hprev Hpost.
  - cbn in Hprev. change ("" +:+ ?x) with x.
    by rewrite search_from_unfold, plain_pattern_matches_number.
  - cbn in Hpre. apply andb_true_iff in Hpre as [Hc Hpre].
    apply negb_true_iff in Hc.
    change (String c pre +:+ ?x) with (String c (pre +:+ x)).
    rewrite search_from_unfold, (plain_pattern_needs_digit _ _ _ Hc).
    by apply IH.
Qed.

(** C3, as the specification states it, fails: a text may contain both
    numbers and yet the parenthesized one is returned, when the plain
    number is the end of a longer run of digits; and a plain number
    that stands earlier in the text is returned in place of both. *)
Lemma extract_phone_returns_parenthesized :
  contains "123-456-7890" "0123-456-7890 (987) 654-3210" = true
  ∧ contains "(987) 654-3210" "0123-456-7890 (987) 654-3210" = true
  ∧ extract_phone "0123-456-7890 (987) 654-3210" = Some "(987) 654-3210"
  ∧ extract_phone "555.555.5555, 123-456-7890, (987) 654-3210"
    = Some "555.555.5555".
Proof. repeat split; vm_refl. Qed.

(** C3, amended: [extract_phone] tries the three patterns in the order
    plain, international, parenthesized, and returns the leftmost match
    of the first pattern that has one, [None] when none has; so a match
    of the plain pattern is returned whenever there is one.  For every
    text in which ["123-456-7890"] comes after a prefix without digits
    and stands between characters that are not word characters (or the
    ends of the text), it returns ["123-456-7890"] whatever follows, a
    parenthesized number included; it also does on
    ["(987) 654-3210 or 123-456-7890"]. *)
Theorem extract_phone_precedence (text : string) :
  phone_patterns
    = [plain_pattern; international_pattern; parenthesized_pattern]
  ∧ extract_phone text
    = match Re.search plain_pattern text with
      | Some m => Some m
      | None =>
          match Re.search international_pattern text with
          | Some m => Some m
          | None => Re.search parenthesized_pattern text
          end
      end
  ∧ (∀ m, Re.search plain_pattern text = Some m →
          extract_phone text = Some m)
  ∧ (extract_phone text = None
     ↔ Re.search plain_pattern text = None
       ∧ Re.search international_pattern text = None
       ∧ Re.search parenthesized_pattern text = None)
  ∧ (∀ pre post,
       text = pre +:+ "123-456-7890" +:+ post →
       no_digit pre = true →
       Re.isword_at (char_before None pre) = false →
       Re.isword_at (Re.peek post) = false →
       extract_phone text = Some "123-456-7890")
  ∧ extract_phone "(987) 654-3210 or 123-456-7890" = Some "123-456-7890"
  ∧ extract_phone "Office: (987) 654-3210" = Some "(987) 654-3210"
  ∧ extract_phone "no phone in this text" = None.
Proof.
  split; [reflexivity|]. split; [apply extract_phone_unfold|].
  split; [|split; [|split]].
  - intros m Hm. by rewrite extract_phone_unfold, Hm.
  - rewrite extract_phone_unfold.
    destruct (Re.search plain_pattern text);
      destruct (Re.search international_pattern text);
      destruct (Re.search parenthesized_pattern text);
      split; try done; intros (? & ? & ?); done.
  - intros pre post -> Hpre Hbefore Hafter.
    rewrite extract_phone_unfold. unfold Re.search.
    by rewrite search_plain_number.
  - repeat split; vm_refl.
Qed.

Lemma extract_phone_precedence_witness :
  "Call 123-456-7890 or (987) 654-3210"
    = "Call " +:+ "123-456-7890" +:+ " or (987) 654-3210"
  ∧ no_digit "Call " = true
  ∧ Re.isword_at (char_before None "Call ") = false
  ∧ Re.isword_at (Re.peek " or (987) 654-3210") = false
  ∧ extract_phone "Call 123-456-7890 or (987) 654-3210"
    = Some "123-456-7890".
Proof.
  repeat (split; [reflexivity|]).
  apply (extract_phone_precedence "Call 123-456-7890 or (987) 654-3210")
    with (pre := "Call ") (post := " or (987) 654-3210"); reflexivity.
Defined.

End PhoneFacts.

(** ** The matcher and the words of a pattern *)

Section ReSemFacts.
Import PyStr ReSem.

Lemma all_ascii_complete (c : ascii) : In c all_ascii.
Proof.
  unfold all_ascii. apply in_map_iff. exists (nat_of_ascii c).
  split; [apply ascii_nat_embedding|].
  apply in_seq. pose proof (nat_ascii_bounded c). lia.
Qed.

Lemma class_within_spec (f q : ascii → bool) (c : ascii) :
  class_within f q = true → f c = true → q c = true.
Proof.
  unfold class_within. rewrite forallb_forall. intros H Hf.
  specialize (H c (all_ascii_complete c)). by rewrite Hf in H.
Qed.

Lemma class_meets_spec (f q : ascii → bool) (c : ascii) :
  class_meets f q = false → f c = true → q c = false.
Proof.
  unfold class_meets. intros H Hf.
  destruct (q c) eqn:Hq; [|done].
  assert (existsb (fun c => f c && q c) all_ascii = true) as Hex; [|congruence].
  apply existsb_exists. exists c.
  split; [apply all_ascii_complete|]. by rewrite Hf, Hq.
Qed.

Lemma filter_append (q : ascii → bool) (a b : string) :
  filter q (a +:+ b) = filter q a +:+ filter q b.
Proof.
  induction a as [|c a IH]; [done|]. cbn. rewrite IH. by destruct (q c).
Qed.

Lemma count_if_append (q : ascii → bool) (a b : string) :
  count_if q (a +:+ b) = (count_if q a + count_if q b)%nat.
Proof. unfold count_if. by rewrite filter_append, length_append. Qed.

Lemma all_append (q : ascii → bool) (a b : string) :
  all q (a +:+ b) = all q a && all q b.
Proof.
  induction a as [|c a IH]; [done|]. cbn. rewrite IH. by destruct (q c).
Qed.

Lemma all_concat_words (q : ascii → bool) (ws : list string) :
  Forall (fun w => all q w = true) ws → all q (concat_words ws) = true.
Proof.
  induction 1 as [|w ws Hw _ IH]; [done|]. cbn [concat_words].
  by rewrite all_append, Hw, IH.
Qed.

(** A word of the pattern is written with the characters the pattern
    consumes. *)
Lemma lang_alphabet (q : ascii → bool) (r : Re.regex) (w : string) :
  alphabet_within q r = true → lang r w → all q w = true.
Proof.
  revert w. induction r as [c|f| |r1 IH1 r2 IH2|lo hi r IH]; intros w;
    cbn [lang alphabet_within].
  - intros Hq ->. cbn. by rewrite Hq.
  - intros Hq (c & -> & Hf). cbn. by rewrite (class_within_spec _ _ _ Hq Hf).
  - by intros _ ->.
  - intros [H1 H2]%andb_true_iff (w1 & w2 & -> & Hw1 & Hw2).
    rewrite all_append. by rewrite IH1, IH2.
  - intros Hq (ws & -> & Hws & _). apply all_concat_words.
    eapply Forall_impl; [exact Hws|]. intros x. by apply IH.
Qed.

Lemma count_if_concat_words_ge (q : ascii → bool) (ws : list string) (m : nat) :
  Forall (fun w => (m ≤ count_if q w)%nat) ws →
  (length ws * m ≤ count_if q (concat_words ws))%nat.
Proof.
  induction 1 as [|w ws Hw _ IH]; [cbn; lia|]. cbn [concat_words length].
  rewrite count_if_append. lia.
Qed.

Lemma count_if_concat_words_le (q : ascii → bool) (ws : list string) (m : nat) :
  Forall (fun w => (count_if q w ≤ m)%nat) ws →
  (count_if q (concat_words ws) ≤ length ws * m)%nat.
Proof.
  induction 1 as [|w ws Hw _ IH]; [cbn; lia|]. cbn [concat_words length].
  rewrite count_if_append. lia.
Qed.

(** The bounds computed from the pattern hold on each of its words. *)
Lemma lang_min_count (q : ascii → bool) (r : Re.regex) (w : string) :
  lang r w → (min_count q r ≤ count_if q w)%nat.
Proof.
  revert w. induction r as [c|f| |r1 IH1 r2 IH2|lo hi r IH]; intros w;
    cbn [lang min_count].
  - intros ->. unfold count_if. cbn. by destruct (q c).
  - intros (c & -> & Hf). unfold count_if. cbn [filter].
    destruct (class_within f q) eqn:Hq; [|destruct (q c); cbn; lia].
    by rewrite (class_within_spec _ _ _ Hq Hf).
  - intros _. lia.
  - intros (w1 & w2 & -> & Hw1 & Hw2). rewrite count_if_append.
    specialize (IH1 _ Hw1). specialize (IH2 _ Hw2). lia.
  - intros (ws & -> & Hws & Hlo & _).
    assert (length ws * min_count q r ≤ count_if q (concat_words ws))%nat.
    { apply count_if_concat_words_ge. eapply Forall_impl; [exact Hws|].
      intros x. apply IH. }
    nia.
Qed.

Lemma lang_max_count (q : ascii → bool) (r : Re.regex) (w : string) (h : nat) :
  lang r w → max_count q r = Some h → (count_if q w ≤ h)%nat.
Proof.
  revert w h.
  induction r as [c|f| |r1 IH1 r2 IH2|lo hi r IH]; intros w h;
    cbn [lang max_count].
  - intros -> [= <-]. unfold count_if. cbn. by destruct (q c).
  - intros (c & -> & Hf) [= <-]. unfold count_if. cbn [filter].
    destruct (class_meets f q) eqn:Hq; [destruct (q c); cbn; lia|].
    by rewrite (class_meets_spec _ _ _ Hq Hf).
  - intros -> [= <-]. done.
  - intros (w1 & w2 & -> & Hw1 & Hw2).
    destruct (max_count q r1) as [a|]; [|done].
    destruct (max_count q r2) as [b|]; [|done].
    intros [= <-]. rewrite count_if_append.
    specialize (IH1 _ _ Hw1 eq_refl). specialize (IH2 _ _ Hw2 eq_refl). lia.
  - intros (ws & -> & Hws & Hlo & Hhi).
    destruct (max_count q r) as [m|]; [|done].
    assert (count_if q (concat_words ws) ≤ length ws * m)%nat as Hle.
    { apply count_if_concat_words_le. eapply Forall_impl; [exact Hws|].
      intros x Hx. by apply (IH x m). }
    destruct m as [|m]; [intros [= <-]; lia|].
    destruct hi as [hi|]; [|done]. intros [= <-]. nia.
Qed.

Lemma exec_Repeat (lo : nat) (hi : option nat) (r : Re.regex)
    (prev : option ascii) (s : string)
    (k : option ascii → string → option string) :
  Re.exec (Re.Repeat lo hi r) prev s k
  = mandatory_loop (Re.exec r) k lo hi lo prev s.
Proof. reflexivity. Qed.

Lemma optional_loop_sound body L k (n : nat) prev s res :
  sound body L →
  optional_loop body k n prev s = Some res →
  ∃ ws s' prev', s = concat_words ws +:+ s' ∧ Forall L ws
                 ∧ (length ws ≤ n)%nat ∧ k prev' s' = Some res.
Proof.
  intros Hbody. revert prev s.
  induction n as [|n IH]; intros prev s; cbn.
  - intros Hk. exists [], s, prev. repeat split; [constructor|done|done].
  - destruct (body prev s (optional_loop body k n)) as [rest|] eqn:Hrun.
    + intros [= ->]. apply Hbody in Hrun as (w & s1 & p1 & -> & Hw & Hrest).
      apply IH in Hrest as (ws & s' & prev' & -> & Hws & Hlen & Hk).
      exists (w :: ws), s', prev'. cbn [concat_words length].
      rewrite append_assoc. repeat split; [by constructor|lia|done].
    + intros Hk. exists [], s, prev. repeat split; [constructor|cbn; lia|done].
Qed.

Lemma mandatory_loop_sound body L k (lo : nat) (hi : option nat) (n : nat)
    prev s res :
  sound body L →
  mandatory_loop body k lo hi n prev s = Some res →
  ∃ ws s' prev', s = concat_words ws +:+ s' ∧ Forall L ws
                 ∧ (n ≤ length ws)%nat
                 ∧ match hi with
                   | Some h => (length ws ≤ n + (h - lo))%nat
                   | None => True
                   end
                 ∧ k prev' s' = Some res.
Proof.
  intros Hbody. revert prev s.
  induction n as [|n IH]; intros prev s; cbn.
  - intros (ws & s' & prev' & -> & Hws & Hlen & Hk)%(optional_loop_sound _ L);
      [|done].
    exists ws, s', prev'. repeat split; [done|lia| |done].
    destruct hi; [lia|done].
  - intros (w & s1 & p1 & -> & Hw & Hrest)%Hbody.
    apply IH in Hrest as (ws & s' & prev' & -> & Hws & Hlen & Hhi & Hk).
    exists (w :: ws), s', prev'. cbn [concat_words length].
    rewrite append_assoc. repeat split; [by constructor|lia| |done].
    destruct hi; [lia|done].
Qed.

Lemma exec_sound (r : Re.regex) : sound (Re.exec r) (lang r).
Proof.
  induction r as [c|f| |r1 IH1 r2 IH2|lo hi r IH]; intros prev s k res.
  - cbn. destruct s as [|a s]; [done|].
    destruct (Ascii.eqb_spec a c) as [->|]; [|done].
    intros Hk. by exists (String c ""), s, (Some c).
  - cbn. destruct s as [|a s]; [done|].
    destruct (f a) eqn:Hf; [|done].
    intros Hk. exists (String a ""), s, (Some a). eauto.
  - cbn. destruct (xorb _ _); [|done].
    intros Hk. by exists "", s, prev.
  - cbn [Re.exec].
    intros (w1 & s1 & p1 & -> & Hw1 & Hrest)%IH1.
    apply IH2 in Hrest as (w2 & s' & prev' & -> & Hw2 & Hk).
    exists (w1 +:+ w2), s', prev'. rewrite append_assoc.
    split; [done|]. split; [|done]. cbn. eauto.
  - rewrite exec_Repeat.
    intros (ws & s' & prev' & -> & Hws & Hlo & Hhi & Hk)
      %(mandatory_loop_sound _ (lang r)); [|done].
    exists (concat_words ws), s', prev'. split; [done|]. split; [|done].
    cbn. exists ws. repeat split; [done..|].
    destruct hi; [lia|done].
Qed.

(** A match is a word of the pattern, and it stands in the text. *)
Lemma match_here_sound (r : Re.regex) (prev : option ascii) (s m : string) :
  Re.match_here r prev s = Some m → lang r m ∧ ∃ rest, s = m +:+ rest.
Proof.
  unfold Re.match_here.
  destruct (Re.exec r prev s _) as [rest|] eqn:Hrun; [|done].
  apply exec_sound in Hrun as (w & s' & _ & -> & Hw & [= <-]).
  rewrite take_append_length. intros [= <-]. eauto.
Qed.

Lemma search_from_sound (r : Re.regex) (prev : option ascii) (s m : string) :
  Re.search_from r prev s = Some m →
  lang r m ∧ ∃ pre post, s = pre +:+ m +:+ post.
Proof.
  revert prev. induction s as [|c s IH]; intros prev; cbn.
  - destruct (Re.match_here r prev "") as [m'|] eqn:Hm; [|done].
    intros [= ->]. apply match_here_sound in Hm as [Hl [rest ->]].
    split; [done|]. by exists "", rest.
  - destruct (Re.match_here r prev (String c s)) as [m'|] eqn:Hm.
    + intros [= ->]. apply match_here_sound in Hm as [Hl [rest ->]].
      split; [done|]. by exists "", rest.
    + intros (Hl & pre & post & ->)%IH. split; [done|].
      by exists (String c pre), post.
Qed.

Lemma search_sound (r : Re.regex) (text m : string) :
  Re.search r text = Some m → lang r m ∧ Spec.occurs_in m text.
Proof. apply search_from_sound. Qed.

Lemma count_if_occurs (q : ascii → bool) (m text : string) :
  Spec.occurs_in m text → (count_if q m ≤ count_if q text)%nat.
Proof. intros (pre & post & ->). rewrite !count_if_append. lia. Qed.

Lemma count_is_count_if (c : ascii) (s : string) :
  count c s = count_if (fun a => Ascii.eqb a c) s.
Proof.
  unfold count_if. induction s as [|a s IH]; [done|]. cbn.
  rewrite IH. by destruct (Ascii.eqb a c).
Qed.

End ReSemFacts.

(** ** The matcher with a group *)

Section ReGroupFacts.
Import PyStr ReGroupSem.

Lemma matches_alphabet (q : ascii → bool) :
  (∀ r cap w cap', matches r cap w cap' →
     alphabet_within q r = true → all q w = true)
  ∧ (∀ r n cap w cap', iter r n cap w cap' →
     alphabet_within q r = true → all q w = true).
Proof.
  apply matches_iter_ind; cbn [alphabet_within]; try done.
  - intros c _ Hq. cbn. by rewrite Hq.
  - intros f c _ Hf Hq. cbn. by rewrite (class_within_spec _ _ _ Hq Hf).
  - intros r1 r2 cap w1 cap1 w2 cap2 _ IH1 _ IH2 [H1 H2]%andb_true_iff.
    by rewrite all_append, IH1, IH2.
  - intros r1 r2 cap w cap' _ IH [H1 _]%andb_true_iff. auto.
  - intros r1 r2 cap w cap' _ IH [_ H2]%andb_true_iff. auto.
  - intros r n cap w1 cap1 w2 cap2 _ IH1 _ IH2 Hq.
    by rewrite all_append, IH1, IH2.
Qed.

Lemma matches_min_length :
  (∀ r cap w cap', matches r cap w cap' →
     (min_length r ≤ String.length w)%nat)
  ∧ (∀ r n cap w cap', iter r n cap w cap' →
     (n * min_length r ≤ String.length w)%nat).
Proof.
  apply matches_iter_ind; cbn [min_length String.length]; try lia.
  - intros r1 r2 cap w1 cap1 w2 cap2 _ IH1 _ IH2.
    rewrite length_append. lia.
  - intros lo hi r n cap w cap' Hlo _ IH. nia.
  - intros r n cap w1 cap1 w2 cap2 _ IH1 _ IH2.
    rewrite length_append. lia.
Qed.

Lemma matches_min_count (q : ascii → bool) :
  (∀ r cap w cap', matches r cap w cap' →
     (min_count q r ≤ ReSem.count_if q w)%nat)
  ∧ (∀ r n cap w cap', iter r n cap w cap' →
     (n * min_count q r ≤ ReSem.count_if q w)%nat).
Proof.
  apply matches_iter_ind; cbn [min_count]; try (intros; lia).
  - intros c _. unfold ReSem.count_if. cbn. destruct (q c); cbn; lia.
  - intros f c _ Hf. unfold ReSem.count_if. cbn [filter].
    destruct (ReSem.class_within f q) eqn:Hq; [|destruct (q c); cbn; lia].
    by rewrite (class_within_spec _ _ _ Hq Hf).
  - intros r1 r2 cap w1 cap1 w2 cap2 _ IH1 _ IH2.
    rewrite count_if_append. lia.
  - intros lo hi r n cap w cap' Hlo _ IH. nia.
  - intros r n cap w1 cap1 w2 cap2 _ IH1 _ IH2.
    rewrite count_if_append. lia.
Qed.

(** The group keeps what it holds, or takes a word of a group of the
    pattern. *)
Lemma matches_group_ok (q : ascii → bool) :
  (∀ r cap w cap', matches r cap w cap' →
     group_within q r = true → group_ok q cap → group_ok q cap')
  ∧ (∀ r n cap w cap', iter r n cap w cap' →
     group_within q r = true → group_ok q cap → group_ok q cap').
Proof.
  apply matches_iter_ind; cbn [group_within]; try done.
  - intros r1 r2 cap w1 cap1 w2 cap2 _ IH1 _ IH2 [H1 H2]%andb_true_iff. auto.
  - intros r1 r2 cap w cap' _ IH [H1 _]%andb_true_iff. auto.
  - intros r1 r2 cap w cap' _ IH [_ H2]%andb_true_iff. auto.
  - intros r cap w cap' Hm _ [[Hq Hlen]%andb_true_iff _]%andb_true_iff _.
    intros g [= <-]. split.
    + by apply (proj1 (matches_alphabet q) _ _ _ _ Hm).
    + apply Nat.ltb_lt in Hlen.
      pose proof (proj1 matches_min_length _ _ _ _ Hm) as Hmin.
      intros ->. cbn in Hmin. lia.
  - intros r n cap w1 cap1 w2 cap2 _ IH1 _ IH2 Hq Hcap. auto.
Qed.

(** A group that is filled stays filled, and a pattern that must go
    through its group fills it. *)
Lemma matches_sets_group :
  (∀ r cap w cap', matches r cap w cap' →
     (is_Some cap → is_Some cap')
     ∧ (sets_group r = true → is_Some cap'))
  ∧ (∀ r n cap w cap', iter r n cap w cap' →
     (is_Some cap → is_Some cap')
     ∧ ((0 < n)%nat → sets_group r = true → is_Some cap')).
Proof.
  apply matches_iter_ind; cbn [sets_group]; try (split; [done|done]).
  - intros r1 r2 cap w1 cap1 w2 cap2 _ [K1 S1] _ [K2 S2]. split; [auto|].
    intros [H|H]%orb_true_iff; auto.
  - intros r1 r2 cap w cap' _ [K S]. split; [done|].
    intros [H _]%andb_true_iff. auto.
  - intros r1 r2 cap w cap' _ [K S]. split; [done|].
    intros [_ H]%andb_true_iff. auto.
  - intros lo hi r n cap w cap' Hlo _ [K S]. split; [done|].
    intros [Hpos%Nat.ltb_lt H]%andb_true_iff. apply S; [lia|done].
  - intros r cap. split; [done|lia].
  - intros r n cap w1 cap1 w2 cap2 _ [K1 S1] _ [K2 S2]. split; [auto|].
    intros _ H. auto.
Qed.

Lemma exec_g_Repeat (lo : nat) (hi : option nat) (r : ReGroup.regex)
    (s : string) (cap : option string)
    (k : string → option string → option (string * option string)) :
  ReGroup.exec (ReGroup.Repeat lo hi r) s cap k
  = mandatory_loop_g (ReGroup.exec r) k lo hi lo s cap.
Proof. reflexivity. Qed.

Lemma optional_loop_g_sound body r k (n : nat) s cap res :
  sound_g body r →
  optional_loop_g body k n s cap = Some res →
  ∃ m w s' cap', s = w +:+ s' ∧ iter r m cap w cap' ∧ k s' cap' = Some res.
Proof.
  intros Hbody. revert s cap.
  induction n as [|n IH]; intros s cap; cbn.
  - intros Hk. exists 0%nat, "", s, cap. repeat split; [constructor|done].
  - destruct (body s cap (optional_loop_g body k n)) as [res'|] eqn:Hrun.
    + intros [= ->]. apply Hbody in Hrun as (w & s1 & c1 & -> & Hw & Hrest).
      apply IH in Hrest as (m & w' & s' & cap' & -> & Hit & Hk).
      exists (S m), (w +:+ w'), s', cap'. rewrite append_assoc.
      repeat split; [by econstructor|done].
    + intros Hk. exists 0%nat, "", s, cap. repeat split; [constructor|done].
Qed.

Lemma mandatory_loop_g_sound body r k (lo : nat) (hi : option nat) (n : nat)
    s cap res :
  sound_g body r →
  mandatory_loop_g body k lo hi n s cap = Some res →
  ∃ m w s' cap', (n ≤ m)%nat ∧ s = w +:+ s' ∧ iter r m cap w cap'
                 ∧ k s' cap' = Some res.
Proof.
  intros Hbody. revert s cap.
  induction n as [|n IH]; intros s cap; cbn.
  - intros (m & w & s' & cap' & -> & Hit & Hk)%(optional_loop_g_sound _ r);
      [|done].
    exists m, w, s', cap'. repeat split; [lia|done..].
  - intros (w & s1 & c1 & -> & Hw & Hrest)%Hbody.
    apply IH in Hrest as (m & w' & s' & cap' & Hm & -> & Hit & Hk).
    exists (S m), (w +:+ w'), s', cap'. rewrite append_assoc.
    repeat split; [lia|by econstructor|done].
Qed.

Lemma exec_g_sound (r : ReGroup.regex) : sound_g (ReGroup.exec r) r.
Proof.
  induction r as [|c|f|r1 IH1 r2 IH2|r1 IH1 r2 IH2|lo hi r IH|r IH];
    intros s cap k res.
  - cbn. intros Hk. exists "", s, cap. repeat split; [constructor|done].
  - cbn. destruct s as [|a s]; [done|].
    destruct (Ascii.eqb_spec a c) as [->|]; [|done].
    intros Hk. exists (String c ""), s, cap. repeat split; [constructor|done].
  - cbn. destruct s as [|a s]; [done|].
    destruct (f a) eqn:Hf; [|done].
    intros Hk. exists (String a ""), s, cap.
    repeat split; [by constructor|done].
  - cbn [ReGroup.exec].
    intros (w1 & s1 & c1 & -> & Hw1 & Hrest)%IH1.
    apply IH2 in Hrest as (w2 & s' & cap' & -> & Hw2 & Hk).
    exists (w1 +:+ w2), s', cap'. rewrite append_assoc.
    repeat split; [by econstructor|done].
  - cbn [ReGroup.exec].
    destruct (ReGroup.exec r1 s cap k) as [res'|] eqn:Hrun.
    + intros [= ->]. apply IH1 in Hrun as (w & s' & cap' & -> & Hw & Hk).
      exists w, s', cap'. repeat split; [by apply M_Alt_l|done].
    + intros (w & s' & cap' & -> & Hw & Hk)%IH2.
      exists w, s', cap'. repeat split; [by apply M_Alt_r|done].
  - rewrite exec_g_Repeat.
    intros (m & w & s' & cap' & Hm & -> & Hit & Hk)
      %(mandatory_loop_g_sound _ r); [|done].
    exists w, s', cap'. repeat split; [by econstructor|done].
  - cbn [ReGroup.exec].
    intros (w & s' & cap' & -> & Hw & Hk)%IH.
    rewrite take_append_length in Hk.
    exists w, s', (Some w). repeat split; [by econstructor|done].
Qed.

Lemma match_here_g_sound (r : ReGroup.regex) (s : string)
    (m : ReGroup.match_object) :
  ReGroup.match_here r s = Some m →
  matches r None (ReGroup.group0 m) (ReGroup.group1 m)
  ∧ ∃ rest, s = ReGroup.group0 m +:+ rest.
Proof.
  unfold ReGroup.match_here.
  destruct (ReGroup.exec r s None _) as [[rest cap]|] eqn:Hrun; [|done].
  apply exec_g_sound in Hrun as (w & s' & cap' & -> & Hw & [= <- <-]).
  rewrite take_append_length. intros [= <-]. cbn. eauto.
Qed.

Lemma search_g_sound (r : ReGroup.regex) (s : string)
    (m : ReGroup.match_object) :
  ReGroup.search r s = Some m →
  matches r None (ReGroup.group0 m) (ReGroup.group1 m)
  ∧ Spec.occurs_in (ReGroup.group0 m) s.
Proof.
  induction s as [|c s IH]; cbn.
  - destruct (ReGroup.match_here r "") as [m'|] eqn:Hm; [|done].
    intros [= ->]. apply match_here_g_sound in Hm as [Hl [rest Hs]].
    split; [done|]. exists "", rest. by rewrite <- Hs.
  - destruct (ReGroup.match_here r (String c s)) as [m'|] eqn:Hm.
    + intros [= ->]. apply match_here_g_sound in Hm as [Hl [rest Hs]].
      split; [done|]. exists "", rest. by rewrite <- Hs.
    + intros (Hl & pre & post & ->)%IH. split; [done|].
      by exists (String c pre), post.
Qed.

End ReGroupFacts.

(** ** Characters *)

Section CharFacts.
Import PyStr ReSem.

Lemma forall_ascii (P : ascii → bool) :
  forallb P all_ascii = true → ∀ c, P c = true.
Proof.
  rewrite forallb_forall. intros H c. apply H, all_ascii_complete.
Qed.

Lemma isdecimal_not_space (c : ascii) : isdecimal c = true → isspace c = false.
Proof.
  intros Hc.
  pose proof (forall_ascii (fun c => implb (isdecimal c) (negb (isspace c)))
                ltac:(vm_refl) c) as H.
  cbv beta in H.
  rewrite Hc in H. by apply negb_true_iff in H.
Qed.

Lemma isdecimal_not_sign (c : ascii) :
  isdecimal c = true → Ascii.eqb c "+" = false ∧ Ascii.eqb c "-" = false.
Proof.
  intros Hc.
  pose proof (forall_ascii
                (fun c => implb (isdecimal c)
                            (negb (Ascii.eqb c "+") && negb (Ascii.eqb c "-")))
                ltac:(vm_refl) c) as H.
  cbv beta in H.
  rewrite Hc in H. cbn in H. apply andb_true_iff in H as [H1 H2].
  by rewrite negb_true_iff in H1, H2.
Qed.

Lemma isdecimal_code (c : ascii) : isdecimal c = true → 48 ≤ code c ≤ 57.
Proof. unfold isdecimal, in_range. lia. Qed.

Lemma isdecimal_lower_char (c : ascii) :
  isdecimal (lower_char c) = isdecimal c.
Proof.
  pose proof (forall_ascii
                (fun c => Bool.eqb (isdecimal (lower_char c)) (isdecimal c))
                ltac:(vm_refl) c) as H.
  cbv beta in H.
  by apply Bool.eqb_prop in H.
Qed.

Lemma isspace_lower_char (c : ascii) : isspace (lower_char c) = isspace c.
Proof.
  pose proof (forall_ascii
                (fun c => Bool.eqb (isspace (lower_char c)) (isspace c))
                ltac:(vm_refl) c) as H.
  cbv beta in H.
  by apply Bool.eqb_prop in H.
Qed.

Lemma lower_char_idempotent (c : ascii) :
  lower_char (lower_char c) = lower_char c.
Proof.
  pose proof (forall_ascii
                (fun c => Ascii.eqb (lower_char (lower_char c)) (lower_char c))
                ltac:(vm_refl) c) as H.
  cbv beta in H.
  by apply Ascii.eqb_eq in H.
Qed.

Lemma lower_idempotent (s : string) : lower (lower s) = lower s.
Proof.
  induction s as [|c s IH]; [done|]. cbn.
  by rewrite lower_char_idempotent, IH.
Qed.

Lemma lower_append (a b : string) : lower (a +:+ b) = lower a +:+ lower b.
Proof. induction a as [|c a IH]; [done|]. cbn. by rewrite IH. Qed.

Lemma count_if_lower_decimal (s : string) :
  count_if isdecimal (lower s) = count_if isdecimal s.
Proof.
  unfold count_if. induction s as [|c s IH]; [done|]. cbn.
  rewrite isdecimal_lower_char. destruct (isdecimal c); cbn; lia.
Qed.

Lemma count_if_any (s : string) : count_if Props.any_char s = String.length s.
Proof.
  unfold count_if. induction s as [|c s IH]; [done|]. cbn. by rewrite IH.
Qed.

Lemma count_if_zero_all (q : ascii → bool) (s : string) :
  all q s = true → count_if (fun c => negb (q c)) s = 0%nat.
Proof.
  unfold count_if. induction s as [|c s IH]; [done|]. cbn.
  intros [-> Hs]%andb_true_iff. cbn. auto.
Qed.

End CharFacts.

(** ** [int] on a run of digits *)

Section IntFacts.
Import PyStr.

Lemma rstrip_no_space (s : string) :
  all (fun c => negb (isspace c)) s = true → rstrip s = s.
Proof.
  induction s as [|c s IH]; [done|]. cbn.
  intros [Hc Hs]%andb_true_iff. apply negb_true_iff in Hc.
  rewrite (IH Hs), Hc. by destruct s.
Qed.

Lemma strip_digits (g : string) : all isdecimal g = true → strip g = g.
Proof.
  intros Hg. unfold strip.
  assert (all (fun c => negb (isspace c)) g = true) as Hns.
  { induction g as [|c g IH]; [done|]. cbn in *.
    apply andb_true_iff in Hg as [Hc Hg].
    by rewrite (isdecimal_not_space _ Hc), IH. }
  assert (lstrip g = g) as ->; [|by apply rstrip_no_space].
  destruct g as [|c g]; [done|]. cbn in *.
  apply andb_true_iff in Hns as [Hc _]. apply negb_true_iff in Hc.
  by rewrite Hc.
Qed.

Lemma digits_value_digits (g : string) (acc : Z) (after_digit : bool) :
  all isdecimal g = true → 0 ≤ acc →
  after_digit = true ∨ g ≠ "" →
  ∃ n, PyInt.digits_value acc after_digit g = Some n ∧ 0 ≤ n.
Proof.
  revert acc after_digit.
  induction g as [|c g IH]; intros acc after_digit; cbn.
  - intros _ Hacc [->|?]; [eauto|done].
  - intros [Hc Hg]%andb_true_iff Hacc _. rewrite Hc.
    apply IH; [done| |by left]. pose proof (isdecimal_code _ Hc). lia.
Qed.

(** On a run of digits that is not empty, [int] gives a natural number,
    or refuses a run longer than the limit with [ValueError]. *)
Lemma int_digits (limit : option nat) (g : string) :
  all isdecimal g = true → g ≠ "" →
  (∃ n, PyInt.int limit g = Return n ∧ 0 ≤ n)
  ∨ PyInt.int limit g = Raise ValueError.
Proof.
  intros Hg Hne. unfold PyInt.int. rewrite (strip_digits _ Hg).
  destruct g as [|c g]; [done|].
  pose proof Hg as Hg'. cbn in Hg'. apply andb_true_iff in Hg' as [Hc _].
  destruct (isdecimal_not_sign _ Hc) as [-> ->].
  destruct (digits_value_digits (String c g) 0 false Hg) as (n & -> & Hn);
    [lia|by right|].
  destruct (PyInt.too_long _ _); eauto.
Qed.

End IntFacts.

(** ** The extractors *)

Section ExtractorFacts.
Import PyStr ReSem Spec Props ResumeParser DataPrivacyManager.

Lemma take_drop (k : nat) (s : string) : take k s +:+ drop k s = s.
Proof.
  revert s. induction k as [|k IH]; intros [|c s]; cbn; try done.
  by rewrite IH.
Qed.

Lemma length_drop (k : nat) (s : string) :
  String.length (drop k s) = (String.length s - k)%nat.
Proof. revert s. induction k as [|k IH]; intros [|c s]; cbn; auto. Qed.

Lemma length_take (k : nat) (s : string) :
  String.length (take k s) = Nat.min k (String.length s).
Proof. revert s. induction k as [|k IH]; intros [|c s]; cbn; auto. Qed.

(** A string with one separator is two pieces around it. *)
Lemma count_one_split (sep : ascii) (s : string) :
  count sep s = 1%nat →
  ∃ a b, s = a +:+ String sep b ∧ count sep a = 0%nat ∧ count sep b = 0%nat.
Proof.
  induction s as [|c s IH]; [done|]. cbn.
  destruct (Ascii.eqb_spec c sep) as [->|Hne]; cbn.
  - intros [= Hs]. by exists "", s.
  - intros (a & b & -> & Ha & Hb)%IH. exists (String c a), b. cbn.
    destruct (Ascii.eqb_spec c sep); [done|]. by rewrite Ha.
Qed.

Lemma first_match_search (patterns : list Re.regex) (text m : string) :
  first_match patterns text = Some m →
  ∃ pattern, pattern ∈ patterns ∧ Re.search pattern text = Some m.
Proof.
  induction patterns as [|p ps IH]; [done|]. cbn.
  destruct (Re.search p text) as [m'|] eqn:Hp.
  - intros [= ->]. exists p. split; [by left|done].
  - intros (p' & Hin & Hs)%IH. exists p'. split; [by right|done].
Qed.

Lemma phone_patterns_bounds (pattern : Re.regex) :
  pattern ∈ phone_patterns →
  alphabet_within phone_char pattern = true
  ∧ (10 ≤ min_count isdecimal pattern)%nat
  ∧ ∃ h, max_count isdecimal pattern = Some h ∧ (h ≤ 13)%nat.
Proof.
  unfold phone_patterns.
  intros [->|[->|[->|[]%elem_of_nil]%elem_of_cons]%elem_of_cons]%elem_of_cons.
  - split; [vm_refl|]. split; [vm_compute; lia|].
    exists 10%nat. split; [vm_refl|lia].
  - split; [vm_refl|]. split; [vm_compute; lia|].
    exists 13%nat. split; [vm_refl|lia].
  - split; [vm_refl|]. split; [vm_compute; lia|].
    exists 10%nat. split; [vm_refl|lia].
Qed.

(** A match of one of the phone patterns stands in the text and holds
    ten to thirteen digits. *)
Lemma phone_match_digits (text m : string) :
  extract_phone text = Some m →
  occurs_in m text ∧ (10 ≤ count_if isdecimal m ≤ 13)%nat.
Proof.
  intros (pattern & Hin & [Hlang Hocc]%search_sound)%first_match_search.
  destruct (phone_patterns_bounds _ Hin) as (_ & Hmin & h & Hmax & Hh).
  split; [done|].
  pose proof (lang_min_count isdecimal _ _ Hlang).
  pose proof (lang_max_count isdecimal _ _ _ Hlang Hmax). lia.
Qed.

(** X1: a phone number returned by [extract_phone] stands in the text as
    it is returned; it is written with digits, white space and the
    characters [-.+()] only, and holds between ten and thirteen digits. *)
Theorem extract_phone_shape (text m : string) :
  extract_phone text = Some m →
  occurs_in m text
  ∧ all phone_char m = true
  ∧ (10 ≤ count_if isdecimal m ≤ 13)%nat.
Proof.
  intros Hm. destruct (phone_match_digits _ _ Hm) as [Hocc Hdigits].
  split; [done|]. split; [|done].
  apply first_match_search in Hm as (pattern & Hin & [Hlang _]%search_sound).
  destruct (phone_patterns_bounds _ Hin) as (Halpha & _).
  by apply (lang_alphabet _ pattern).
Qed.

Lemma extract_phone_shape_witness :
  extract_phone "Call (987) 654-3210 today" = Some "(987) 654-3210"
  ∧ occurs_in "(987) 654-3210" "Call (987) 654-3210 today"
  ∧ all phone_char "(987) 654-3210" = true
  ∧ (10 ≤ count_if isdecimal "(987) 654-3210" ≤ 13)%nat.
Proof.
  split; [vm_refl|].
  apply (extract_phone_shape "Call (987) 654-3210 today" "(987) 654-3210").
  vm_refl.
Defined.

(** X2: on a text with fewer than ten digits, the empty text included,
    [extract_phone] returns [None]. *)
Theorem extract_phone_few_digits (text : string) :
  (count_if isdecimal text < 10)%nat → extract_phone text = None.
Proof.
  intros Hfew. destruct (extract_phone text) as [m|] eqn:Hm; [|done].
  apply phone_match_digits in Hm as (Hocc & Hten & _).
  pose proof (count_if_occurs isdecimal _ _ Hocc). lia.
Qed.

Lemma extract_phone_few_digits_witness :
  (count_if isdecimal "call 555-1234 after 5" < 10)%nat
  ∧ extract_phone "call 555-1234 after 5" = None.
Proof.
  split; [vm_compute; lia|].
  apply (extract_phone_few_digits "call 555-1234 after 5"). vm_compute. lia.
Defined.

Lemma hash_phone_short (phone : string) :
  (String.length (filter isdecimal phone) ≤ 10)%nat →
  _hash_phone (VStr phone)
  = Return ("XXX-" +:+ sha_prefix 6 (filter isdecimal phone)).
Proof.
  intros Hlen. unfold _hash_phone. apply Nat.ltb_ge in Hlen. by rewrite Hlen.
Qed.

Lemma hash_phone_long (phone : string) :
  (10 < String.length (filter isdecimal phone))%nat →
  ∃ country_code number,
    filter isdecimal phone = country_code +:+ number
    ∧ String.length number = 10%nat
    ∧ _hash_phone (VStr phone)
      = Return ("+" +:+ country_code +:+ "-XXX-" +:+ sha_prefix 6 number).
Proof.
  intros Hlen. unfold _hash_phone.
  exists (drop_last 10 (filter isdecimal phone)),
         (take_last 10 (filter isdecimal phone)).
  unfold drop_last, take_last. rewrite take_drop, length_drop.
  split; [done|]. split; [lia|].
  apply Nat.ltb_lt in Hlen. by rewrite Hlen.
Qed.

(** X3: [_hash_phone] never raises on a string.  It keeps nothing of the
    separators: with at most ten digits the result is [XXX-] and six
    hexadecimal digits of the digest of the digits; with more, the digits
    before the last ten are shown as they are, after a [+], and the last
    ten go to the digest.  A phone without digits gives ["XXX-e3b0c4"]. *)
Theorem hash_phone_shape (phone : string) :
  let digits := filter isdecimal phone in
  ((String.length digits ≤ 10)%nat →
     _hash_phone (VStr phone) = Return ("XXX-" +:+ sha_prefix 6 digits))
  ∧ ((10 < String.length digits)%nat →
     ∃ country_code number,
       digits = country_code +:+ number
       ∧ String.length number = 10%nat
       ∧ _hash_phone (VStr phone)
         = Return ("+" +:+ country_code +:+ "-XXX-" +:+ sha_prefix 6 number))
  ∧ (digits = "" → _hash_phone (VStr phone) = Return "XXX-e3b0c4")
  ∧ (∀ phone', filter isdecimal phone' = digits →
       _hash_phone (VStr phone') = _hash_phone (VStr phone)).
Proof.
  intros digits. split; [|split; [|split]].
  - apply hash_phone_short.
  - apply hash_phone_long.
  - intros Hnone. rewrite hash_phone_short; fold digits; rewrite Hnone.
    + vm_refl.
    + cbn. lia.
  - intros phone' Hsame. unfold _hash_phone. by rewrite Hsame.
Qed.

Lemma hash_phone_shape_witness :
  (10 < String.length (filter isdecimal "+1 (555) 123-4567"))%nat
  ∧ ∃ country_code number,
      filter isdecimal "+1 (555) 123-4567" = country_code +:+ number
      ∧ String.length number = 10%nat
      ∧ _hash_phone (VStr "+1 (555) 123-4567")
        = Return ("+" +:+ country_code +:+ "-XXX-" +:+ sha_prefix 6 number).
Proof.
  split; [vm_compute; lia|].
  apply (hash_phone_shape "+1 (555) 123-4567"). vm_compute. lia.
Defined.

(** X4: the phone number [extract_phone] returns is always accepted by
    [_hash_phone]: the result is [XXX-] and six hexadecimal digits, or a
    [+], a country code of one to three digits, [-XXX-] and six
    hexadecimal digits. *)
Theorem extract_phone_then_hash (text m : string) :
  extract_phone text = Some m →
  _hash_phone (VStr m)
    = Return ("XXX-" +:+ sha_prefix 6 (filter isdecimal m))
  ∨ ∃ country_code number,
      filter isdecimal m = country_code +:+ number
      ∧ (1 ≤ String.length country_code ≤ 3)%nat
      ∧ String.length number = 10%nat
      ∧ _hash_phone (VStr m)
        = Return ("+" +:+ country_code +:+ "-XXX-" +:+ sha_prefix 6 number).
Proof.
  intros (_ & Hlo & Hhi)%phone_match_digits. unfold count_if in *.
  destruct (Nat.le_gt_cases (String.length (filter isdecimal m)) 10) as [H|H].
  - left. by apply hash_phone_short.
  - right. destruct (hash_phone_long m H) as (cc & number & Hd & Hn & Hh).
    exists cc, number. split; [done|]. split; [|done].
    rewrite Hd, length_append in Hhi, H. lia.
Qed.

Lemma extract_phone_then_hash_witness :
  extract_phone "mobile +44 20-7946-0958, office (987) 654-3210"
    = Some "(987) 654-3210"
  ∧ (_hash_phone (VStr "(987) 654-3210")
       = Return ("XXX-" +:+ sha_prefix 6 (filter isdecimal "(987) 654-3210"))
     ∨ ∃ country_code number,
         filter isdecimal "(987) 654-3210" = country_code +:+ number
         ∧ (1 ≤ String.length country_code ≤ 3)%nat
         ∧ String.length number = 10%nat
         ∧ _hash_phone (VStr "(987) 654-3210")
           = Return ("+" +:+ country_code +:+ "-XXX-"
                     +:+ sha_prefix 6 number)).
Proof.
  split; [vm_refl|].
  apply (extract_phone_then_hash
           "mobile +44 20-7946-0958, office (987) 654-3210").
  vm_refl.
Defined.

Lemma email_pattern_bounds :
  alphabet_within email_char Resume.email_pattern = true
  ∧ min_count is_at Resume.email_pattern = 1%nat
  ∧ max_count is_at Resume.email_pattern = Some 1%nat
  ∧ min_count any_char Resume.email_pattern = 6%nat.
Proof. repeat split; vm_refl. Qed.

(** A match of the e-mail pattern stands in the text and holds one [@]. *)
Lemma email_match_one_at (text e : string) :
  Resume.extract_email text = Some e →
  occurs_in e text ∧ count "@" e = 1%nat.
Proof.
  intros [Hlang Hocc]%search_sound.
  destruct email_pattern_bounds as (_ & Hmin & Hmax & _).
  split; [done|].
  pose proof (lang_min_count is_at _ _ Hlang) as H1.
  pose proof (lang_max_count is_at _ _ _ Hlang Hmax) as H2.
  rewrite Hmin in H1. rewrite count_is_count_if. fold is_at. lia.
Qed.

(** X5: an address returned by [extract_email] stands in the text as it
    is returned; it holds exactly one [@], at least six characters, and
    only letters, digits and the characters [._%+-@|]. *)
Theorem extract_email_shape (text e : string) :
  Resume.extract_email text = Some e →
  occurs_in e text
  ∧ count "@" e = 1%nat
  ∧ (6 ≤ String.length e)%nat
  ∧ all email_char e = true.
Proof.
  intros He. destruct (email_match_one_at _ _ He) as [Hocc Hone].
  apply search_sound in He as [Hlang _].
  destruct email_pattern_bounds as (Halpha & _ & _ & Hlen).
  pose proof (lang_min_count any_char _ _ Hlang) as H3.
  rewrite Hlen, count_if_any in H3.
  repeat split; [done..|]. by apply (lang_alphabet _ Resume.email_pattern).
Qed.

Lemma extract_email_shape_witness :
  Resume.extract_email "Contact: <jane.doe@example.com>"
    = Some "jane.doe@example.com"
  ∧ occurs_in "jane.doe@example.com" "Contact: <jane.doe@example.com>"
  ∧ count "@" "jane.doe@example.com" = 1%nat
  ∧ (6 ≤ String.length "jane.doe@example.com")%nat
  ∧ all email_char "jane.doe@example.com" = true.
Proof.
  split; [vm_refl|].
  apply (extract_email_shape "Contact: <jane.doe@example.com>"). vm_refl.
Defined.

(** X6: on a text without [@], the empty text included, [extract_email]
    returns [None]. *)
Theorem extract_email_no_at (text : string) :
  count "@" text = 0%nat → Resume.extract_email text = None.
Proof.
  intros Hnone. destruct (Resume.extract_email text) as [e|] eqn:He; [|done].
  apply email_match_one_at in He as (Hocc & Hone).
  pose proof (count_if_occurs is_at _ _ Hocc) as H.
  unfold is_at in H. rewrite <- !count_is_count_if in H. lia.
Qed.

Lemma extract_email_no_at_witness :
  count "@" "jane.doe at example.com" = 0%nat
  ∧ Resume.extract_email "jane.doe at example.com" = None.
Proof.
  split; [vm_refl|].
  apply (extract_email_no_at "jane.doe at example.com"). vm_refl.
Defined.

(** X7: the address [extract_email] returns is always accepted by
    [_hash_email]: it is [username@domain], and the result is the eight
    hexadecimal digits of the digest of the username, [@], and the
    domain unchanged. *)
Theorem extract_email_then_hash (text e : string) :
  Resume.extract_email text = Some e →
  ∃ username domain,
    e = username +:+ "@" +:+ domain
    ∧ _hash_email (VStr e)
      = Return (sha_prefix 8 username +:+ "@" +:+ domain).
Proof.
  intros (_ & Hone)%email_match_one_at.
  apply count_one_split in Hone as (username & domain & -> & Hu & Hd).
  exists username, domain. split; [done|].
  unfold _hash_email. by rewrite (split_at_sep _ _ _ Hu), (split_no_sep _ _ Hd).
Qed.

Lemma extract_email_then_hash_witness :
  Resume.extract_email "Contact: <jane.doe@example.com>"
    = Some "jane.doe@example.com"
  ∧ ∃ username domain,
      "jane.doe@example.com" = username +:+ "@" +:+ domain
      ∧ _hash_email (VStr "jane.doe@example.com")
        = Return (sha_prefix 8 username +:+ "@" +:+ domain).
Proof.
  split; [vm_refl|].
  apply (extract_email_then_hash "Contact: <jane.doe@example.com>"). vm_refl.
Defined.

End ExtractorFacts.

(** ** [extract_years_experience] *)

Section YearsFacts.
Import PyStr ReGroupSem Props Resume.

Lemma exp_patterns_group (pattern : ReGroup.regex) :
  pattern ∈ exp_patterns →
  sets_group pattern = true
  ∧ group_within isdecimal pattern = true
  ∧ (1 ≤ min_count isdecimal pattern)%nat.
Proof.
  unfold exp_patterns.
  intros [->|[->|[->|[]%elem_of_nil]%elem_of_cons]%elem_of_cons]%elem_of_cons;
    (split; [vm_refl|]; split; [vm_refl|vm_compute; lia]).
Qed.

(** What the group of a match of one of the patterns holds is a run of
    digits that is not empty, and the match holds a digit. *)
Lemma exp_pattern_match (pattern : ReGroup.regex) (s : string)
    (m : ReGroup.match_object) :
  pattern ∈ exp_patterns → ReGroup.search pattern s = Some m →
  (∃ g, ReGroup.group1 m = Some g ∧ all isdecimal g = true ∧ g ≠ "")
  ∧ (1 ≤ ReSem.count_if isdecimal s)%nat.
Proof.
  intros (Hsets & Hwithin & Hmin)%exp_patterns_group
         [Hm Hocc]%search_g_sound.
  split.
  - destruct (proj2 (proj1 matches_sets_group _ _ _ _ Hm) Hsets) as [g Hg].
    exists g. split; [done|].
    apply (proj1 (matches_group_ok isdecimal) _ _ _ _ Hm Hwithin); [|done].
    by intros g'.
  - pose proof (proj1 (matches_min_count isdecimal) _ _ _ _ Hm).
    pose proof (count_if_occurs isdecimal _ _ Hocc). lia.
Qed.

Lemma first_int_total (limit : option nat) (patterns : list ReGroup.regex)
    (lowered : string) :
  (∀ pattern, pattern ∈ patterns → pattern ∈ exp_patterns) →
  ∃ years, first_int limit patterns lowered = Return years
           ∧ (∀ n, years = Some n → 0 ≤ n)
           ∧ (ReSem.count_if isdecimal lowered = 0%nat → years = None).
Proof.
  induction patterns as [|p ps IH]; intros Hin; cbn.
  - exists None. by repeat split.
  - destruct IH as (years & Hrest & Hpos & Hnone).
    { intros q Hq. apply Hin. by right. }
    destruct (ReGroup.search p lowered) as [m|] eqn:Hm; [|by exists years].
    destruct (exp_pattern_match p lowered m) as [(g & Hg & Hdec & Hne) Hdigit];
      [apply Hin; by left|done|].
    rewrite Hg. cbn.
    destruct (int_digits limit g Hdec Hne) as [(n & -> & Hn)| ->].
    + exists (Some n). split; [done|]. split; [by intros ? [= <-]|lia].
    + by exists years.
Qed.

Lemma years_returns (limit : option nat) (text : string) :
  ∃ years, extract_years_experience limit text = Return years
           ∧ (∀ n, years = Some n → 0 ≤ n).
Proof.
  destruct (first_int_total limit exp_patterns (lower text))
    as (years & H & Hpos & _); [done|]. by exists years.
Qed.

(** X8: [extract_years_experience] never raises; the number it returns
    is natural; on a text without digits, the empty text included, it
    returns [None]. *)
Theorem extract_years_experience_total (limit : option nat) (text : string) :
  ∃ years, extract_years_experience limit text = Return years
           ∧ (∀ n, years = Some n → 0 ≤ n)
           ∧ (ReSem.count_if isdecimal text = 0%nat → years = None).
Proof.
  unfold extract_years_experience.
  destruct (first_int_total limit exp_patterns (lower text))
    as (years & H & Hpos & Hnone); [done|].
  exists years. rewrite count_if_lower_decimal in Hnone. by repeat split.
Qed.

Lemma extract_years_experience_total_witness :
  ∃ years,
    extract_years_experience (Some 4300%nat) "Ten years of experience"
      = Return years
    ∧ (∀ n, years = Some n → 0 ≤ n)
    ∧ (ReSem.count_if isdecimal "Ten years of experience" = 0%nat
       → years = None).
Proof.
  apply (extract_years_experience_total (Some 4300%nat)
           "Ten years of experience").
Defined.

Example extract_years_experience_plus :
  extract_years_experience (Some 4300%nat) "5+ years of experience"
  = Return (Some 5).
Proof. vm_refl. Qed.

Example extract_years_experience_field :
  extract_years_experience (Some 4300%nat) "10 yrs in the field"
  = Return (Some 10).
Proof. vm_refl. Qed.

(** The first pattern goes first, wherever the other ones match. *)
Example extract_years_experience_order :
  extract_years_experience (Some 4300%nat)
    "Experience: 3 years as lead, 8 years of experience in all"
  = Return (Some 8).
Proof. vm_refl. Qed.

(** A number that [int] refuses is passed over. *)
Example extract_years_experience_refused :
  extract_years_experience (Some 2%nat)
    "123 years of experience, 7 yrs in the field"
  = Return (Some 7).
Proof. vm_refl. Qed.

End YearsFacts.

(** ** Blank texts *)

Section BlankFacts.
Import PyStr ReSem Spec Props ResumeParser.

Lemma lstrip_empty (t : string) : lstrip t = "" → all isspace t = true.
Proof.
  induction t as [|c t IH]; [done|]. cbn.
  destruct (isspace c); [done|discriminate].
Qed.

Lemma lstrip_head (t : string) (c : ascii) (s : string) :
  lstrip t = String c s → isspace c = false.
Proof.
  induction t as [|a t IH]; [done|]. cbn.
  destruct (isspace a) eqn:Ha; [done|]. by intros [= <- _].
Qed.

Lemma rstrip_head (c : ascii) (s : string) :
  isspace c = false → rstrip (String c s) ≠ "".
Proof. intros Hc. cbn. rewrite Hc. by destruct (rstrip s). Qed.

Lemma blank_all_space (t : string) : blank t = true → all isspace t = true.
Proof.
  unfold blank, strip. destruct (lstrip t) as [|c s] eqn:Hl.
  - intros _. by apply lstrip_empty.
  - pose proof (rstrip_head c s (lstrip_head _ _ _ Hl)) as Hne.
    by destruct (rstrip (String c s)).
Qed.

Lemma count_if_disjoint (p q : ascii → bool) (s : string) :
  all p s = true → (∀ c, p c = true → q c = false) → count_if q s = 0%nat.
Proof.
  intros Hs Hpq. unfold count_if.
  induction s as [|c s IH]; [done|]. cbn in *.
  apply andb_true_iff in Hs as [Hc Hs]. rewrite (Hpq _ Hc). auto.
Qed.

Lemma space_not_decimal (c : ascii) : isspace c = true → isdecimal c = false.
Proof.
  intros Hc. destruct (isdecimal c) eqn:Hd; [|done].
  by rewrite (isdecimal_not_space _ Hd) in Hc.
Qed.

Lemma space_not_at (c : ascii) : isspace c = true → is_at c = false.
Proof.
  unfold is_at. intros Hc. destruct (Ascii.eqb_spec c "@") as [->|]; done.
Qed.

Lemma all_lower_space (t : string) :
  all isspace t = true → all isspace (lower t) = true.
Proof.
  induction t as [|c t IH]; [done|]. cbn.
  intros [Hc Ht]%andb_true_iff. by rewrite isspace_lower_char, Hc, IH.
Qed.

Lemma taxonomy_not_blank (k : string) :
  k ∈ taxonomy_keywords → all isspace k = false.
Proof.
  assert (forallb (fun k => negb (all isspace k)) taxonomy_keywords = true)
    as H by vm_refl.
  rewrite forallb_forall in H. intros Hk%list_elem_of_In.
  by apply negb_true_iff, H.
Qed.

(** Nothing is found in a text that is empty or all white space. *)
Lemma extractors_blank (limit : option nat) (text : string) :
  blank text = true → parsed limit text = empty_profile.
Proof.
  intros Hsp%blank_all_space. unfold parsed, empty_profile.
  assert (count_if is_at text = 0%nat) as Hats.
  { apply (count_if_disjoint isspace); [done|]. apply space_not_at. }
  assert (count_if isdecimal text = 0%nat) as Hdigits.
  { apply (count_if_disjoint isspace); [done|]. apply space_not_decimal. }
  assert (Resume.extract_email text = None) as ->.
  { destruct (Resume.extract_email text) as [e|] eqn:He; [|done].
    apply email_match_one_at in He as [Hocc Hone].
    pose proof (count_if_occurs is_at _ _ Hocc) as H.
    rewrite count_is_count_if in Hone. fold is_at in Hone. lia. }
  assert (extract_phone text = None) as ->.
  { destruct (extract_phone text) as [m|] eqn:Hm; [|done].
    apply phone_match_digits in Hm as [Hocc Hten].
    pose proof (count_if_occurs isdecimal _ _ Hocc). lia. }
  assert (Resume.extract_years_experience limit text = Return None) as ->.
  { unfold Resume.extract_years_experience.
    destruct (first_int_total limit Resume.exp_patterns (lower text))
      as (years & -> & _ & Hnone); [done|].
    rewrite Hnone; [done|]. by rewrite count_if_lower_decimal. }
  assert (extract_tech_stack text = []) as ->; [|done].
  destruct (extract_tech_stack text) as [|k l] eqn:Hstack; [done|].
  assert (k ∈ extract_tech_stack text) as Hk by (rewrite Hstack; by left).
  apply elem_of_extract_tech_stack in Hk as [Htax Hin].
  apply contains_spec in Hin as (pre & post & Heq).
  pose proof (all_lower_space _ Hsp) as Hall.
  rewrite Heq, !all_append in Hall.
  apply andb_true_iff in Hall as [_ [Hk _]%andb_true_iff].
  by rewrite (taxonomy_not_blank _ Htax) in Hk.
Qed.

End BlankFacts.

(** ** [parse_resume] *)

Section ParseFacts.
Import PyStr Spec Props ResumeParser Resume DataPrivacyManager.

Variable fitz_open : list Z → result (list (result string)).
Variable pdfplumber_open : list Z → result (list (result (option string))).
Variable docx_open : list Z → docx_outcome.
Variable max_str_digits : option nat.

(** A failure of [extract_text_from_pdf] is the failure of the second
    attempt: pdfplumber was opened before. *)
Lemma pdf_failure (file_content : list Z) (tr tr' : list event) (e : exn) :
  extract_text_from_pdf fitz_open pdfplumber_open file_content tr
    = (Raise e, tr') →
  e = Exception "Failed to extract text from PDF"
  ∧ ∃ before after, tr' = before ++ PdfplumberOpen :: after.
Proof.
  unfold extract_text_from_pdf, io_bind at 1.
  match goal with
  | |- context [io_try ?m ?h tr] => destruct (io_try m h tr) as [[text|e1] tr1] eqn:Hfirst
  end.
  2:{ exfalso. revert Hfirst. unfold io_try.
      match goal with |- context [match ?m tr with _ => _ end] =>
        destruct (m tr) as [[?|?] ?] end; [done|].
      unfold io_bind, io_print, io_ret. done. }
  destruct (falsy (strip text)); [|done].
  unfold io_try, io_bind at 1, io_call.
  destruct (pdfplumber_open file_content) as [pdf|e2]; cbn.
  - destruct (pdfplumber_pages_run pdf 0 text (tr1 ++ [PdfplumberOpen]))
      as (evs & ->).
    destruct (concat_pages (map page_text pdf)); [done|].
    unfold io_bind, io_print, io_raise. intros [= <- <-]. split; [done|].
    eexists tr1, _. by rewrite <- !app_assoc.
  - unfold io_print, io_raise. intros [= <- <-]. split; [done|].
    eexists tr1, _. by rewrite <- !app_assoc.
Qed.

(** X9: whatever the two libraries do, the only exception that leaves
    [extract_text_from_pdf] is [Exception("Failed to extract text from
    PDF")], and it leaves after pdfplumber was called; an exception of a
    library never gets out as it is. *)
Theorem extract_text_from_pdf_raises_only (file_content : list Z)
    (tr tr' : list event) (e : exn) :
  extract_text_from_pdf fitz_open pdfplumber_open file_content tr
    = (Raise e, tr') →
  e = Exception "Failed to extract text from PDF" ∧ PdfplumberOpen ∈ tr'.
Proof.
  intros (-> & before & after & ->)%pdf_failure. split; [done|].
  apply elem_of_app. right. by left.
Qed.

Lemma io_try_bind {A B : Type} (m : io A) (k : A → io B)
    (handler : exn → io B) (tr : list event) :
  io_try (io_bind m k) handler tr
  = match m tr with
    | (Return a, tr') => io_try (k a) handler tr'
    | (Raise e, tr') => handler e tr'
    end.
Proof. unfold io_try, io_bind. by destruct (m tr) as [[a|e] tr']. Qed.

Lemma io_try_Return {A : Type} (m : io A) (handler : exn → io A)
    (tr tr' : list event) (a : A) :
  m tr = (Return a, tr') → io_try m handler tr = (Return a, tr').
Proof. unfold io_try. by intros ->. Qed.

(** The years never make [parse_resume] raise. *)
Lemma parse_resume_after_text (text : string) (tr : list event) :
  (let* years := io_lift (extract_years_experience max_str_digits text) in
   io_ret
     (<["email" := optional_str (extract_email text)]>
     (<["phone" := optional_str (extract_phone text)]>
     (<["years_experience" := optional_int years]>
     (<["tech_stack" := VList (extract_tech_stack text)]> ∅))))) tr
  = (Return (parsed max_str_digits text), tr).
Proof.
  unfold io_bind, io_lift, io_ret, parsed.
  by destruct (years_returns max_str_digits text) as (years & -> & _).
Qed.

(** [parse_resume] on a PDF, from what [extract_text_from_pdf] does. *)
Lemma parse_resume_pdf (file_content : list Z) (file_type : string)
    (tr : list event) :
  lower file_type = "pdf" →
  parse_resume fitz_open pdfplumber_open docx_open max_str_digits
    file_content file_type tr
  = match extract_text_from_pdf fitz_open pdfplumber_open file_content tr with
    | (Return text, tr') => (Return (parsed max_str_digits text), tr')
    | (Raise e, tr') =>
        (Raise (Exception ("Failed to parse resume: " +:+ str_exn e)), tr')
    end.
Proof.
  intros Hpdf. unfold parse_resume. rewrite Hpdf.
  cbn [String.eqb Ascii.eqb Bool.eqb]. rewrite io_try_bind.
  destruct (extract_text_from_pdf _ _ _ tr) as [[text|e] tr']; [|done].
  apply io_try_Return, parse_resume_after_text.
Qed.

Lemma parse_resume_docx (file_content : list Z) (file_type : string)
    (tr : list event) :
  lower file_type = "docx" →
  parse_resume fitz_open pdfplumber_open docx_open max_str_digits
    file_content file_type tr
  = match docx_open file_content with
    | Paragraphs texts =>
        (Return (parsed max_str_digits (join newline texts)), tr)
    | DocxError str_e =>
        (Raise (Exception ("Failed to parse resume: "
                           +:+ "Failed to extract text from DOCX: "
                           +:+ str_e)), tr)
    end.
Proof.
  intros Hdocx. unfold parse_resume. rewrite Hdocx.
  cbn [String.eqb Ascii.eqb Bool.eqb]. rewrite io_try_bind.
  unfold io_lift at 1, extract_text_from_docx.
  destruct (docx_open file_content) as [texts|str_e]; [|done].
  apply io_try_Return, parse_resume_after_text.
Qed.

(** X10: a file type that is neither [pdf] nor [docx], in any letter
    case, makes [parse_resume] raise [Exception("Failed to parse resume:
    Unsupported file type: ...")], the type written as it was given; no
    library is called. *)
Theorem parse_resume_unsupported (file_content : list Z) (file_type : string)
    (tr : list event) :
  lower file_type ≠ "pdf" → lower file_type ≠ "docx" →
  parse_resume fitz_open pdfplumber_open docx_open max_str_digits
    file_content file_type tr
  = (Raise (Exception ("Failed to parse resume: Unsupported file type: "
                       +:+ file_type)), tr).
Proof.
  intros Hpdf%String.eqb_neq Hdocx%String.eqb_neq.
  unfold parse_resume. rewrite Hpdf, Hdocx. by rewrite io_try_bind.
Qed.

(** X11: every exception that leaves [parse_resume] is an [Exception]
    whose message starts with [Failed to parse resume: ], followed by the
    message of the PDF failure, of the DOCX failure, or of the
    unsupported type. *)
Theorem parse_resume_raises_only (file_content : list Z) (file_type : string)
    (tr tr' : list event) (e : exn) :
  parse_resume fitz_open pdfplumber_open docx_open max_str_digits
    file_content file_type tr = (Raise e, tr') →
  e = Exception ("Failed to parse resume: Failed to extract text from PDF")
  ∨ (∃ str_e,
       docx_open file_content = DocxError str_e
       ∧ e = Exception ("Failed to parse resume: "
                        +:+ "Failed to extract text from DOCX: " +:+ str_e))
  ∨ e = Exception ("Failed to parse resume: Unsupported file type: "
                   +:+ file_type).
Proof.
  destruct (String.eqb_spec (lower file_type) "pdf") as [Hpdf|Hpdf].
  - rewrite (parse_resume_pdf _ _ _ Hpdf).
    destruct (extract_text_from_pdf _ _ _ tr) as [[text|e1] tr1] eqn:Hrun;
      [done|].
    apply pdf_failure in Hrun as [-> _].
    intros [= <- _]. by left.
  - destruct (String.eqb_spec (lower file_type) "docx") as [Hdocx|Hdocx].
    + rewrite (parse_resume_docx _ _ _ Hdocx).
      destruct (docx_open file_content) as [texts|str_e]; [done|].
      intros [= <- _]. right. left. by exists str_e.
    + apply String.eqb_neq in Hpdf, Hdocx.
      unfold parse_resume. rewrite Hpdf, Hdocx, io_try_bind.
      intros [= <- _]. by right; right.
Qed.

Lemma dom_parsed (text : string) :
  dom (parsed max_str_digits text) = parsed_keys.
Proof.
  unfold parsed, parsed_keys. rewrite !dom_insert_L, dom_empty_L.
  apply set_eq. intros key.
  rewrite !elem_of_union, !elem_of_singleton, elem_of_empty. tauto.
Qed.

Lemma parse_resume_returns (file_content : list Z) (file_type : string)
    (tr tr' : list event) (record : gmap string value) :
  parse_resume fitz_open pdfplumber_open docx_open max_str_digits
    file_content file_type tr = (Return record, tr') →
  ∃ text, record = parsed max_str_digits text.
Proof.
  destruct (String.eqb_spec (lower file_type) "pdf") as [Hpdf|Hpdf].
  - rewrite (parse_resume_pdf _ _ _ Hpdf).
    destruct (extract_text_from_pdf _ _ _ tr) as [[text|e1] tr1]; [|done].
    intros [= <- _]. by exists text.
  - destruct (String.eqb_spec (lower file_type) "docx") as [Hdocx|Hdocx].
    + rewrite (parse_resume_docx _ _ _ Hdocx).
      destruct (docx_open file_content) as [texts|str_e]; [|done].
      intros [= <- _]. by eexists.
    + apply String.eqb_neq in Hpdf, Hdocx.
      unfold parse_resume. by rewrite Hpdf, Hdocx, io_try_bind.
Qed.

(** X12: a record returned by [parse_resume] always has the four keys
    email, phone, years_experience and tech_stack, and no other; what was
    not found is [None] under its key, the tech stack is always a list,
    and the years are a natural number. *)
Theorem parse_resume_record (file_content : list Z) (file_type : string)
    (tr tr' : list event) (record : gmap string value) :
  parse_resume fitz_open pdfplumber_open docx_open max_str_digits
    file_content file_type tr = (Return record, tr') →
  dom record = parsed_keys
  ∧ (record !! "email" = Some VNone ∨ ∃ e, record !! "email" = Some (VStr e))
  ∧ (record !! "phone" = Some VNone ∨ ∃ p, record !! "phone" = Some (VStr p))
  ∧ (record !! "years_experience" = Some VNone
     ∨ ∃ n, record !! "years_experience" = Some (VInt n) ∧ 0 ≤ n)
  ∧ (∃ l, record !! "tech_stack" = Some (VList l)).
Proof.
  intros [text ->]%parse_resume_returns.
  split; [apply dom_parsed|]. unfold parsed.
  split; [|split; [|split]].
  - rewrite lookup_insert_eq. destruct (extract_email text); eauto.
  - rewrite lookup_insert_ne, lookup_insert_eq by done.
    destruct (extract_phone text); eauto.
  - rewrite !lookup_insert_ne, lookup_insert_eq by done.
    destruct (years_returns max_str_digits text)
      as ([n|] & -> & Hpos); cbn; eauto.
  - rewrite !lookup_insert_ne, lookup_insert_eq by done. eauto.
Qed.

(** X13: a record returned by [parse_resume] makes [anonymize_data] raise
    unless both an e-mail and a phone were found: [AttributeError] when
    the e-mail is [None], [TypeError] when the e-mail was found and the
    phone is [None]; when both were found it returns, and the years and
    the tech stack are unchanged. *)
Theorem parse_resume_then_anonymize (file_content : list Z)
    (file_type : string) (tr tr' : list event) (record : gmap string value) :
  parse_resume fitz_open pdfplumber_open docx_open max_str_digits
    file_content file_type tr = (Return record, tr') →
  (record !! "email" = Some VNone →
     anonymize_data record = Raise AttributeError)
  ∧ (∀ e, record !! "email" = Some (VStr e) →
          record !! "phone" = Some VNone →
          anonymize_data record = Raise TypeError)
  ∧ (∀ e p, record !! "email" = Some (VStr e) →
            record !! "phone" = Some (VStr p) →
            ∃ out, anonymize_data record = Return out
                   ∧ out !! "years_experience" = record !! "years_experience"
                   ∧ out !! "tech_stack" = record !! "tech_stack").
Proof.
  intros Hrun. pose proof Hrun as [text ->]%parse_resume_returns.
  split; [|split].
  - intros Hemail. unfold anonymize_data, hash_field. by rewrite Hemail.
  - intros e Hemail Hphone.
    assert (∃ h, _hash_email (VStr e) = Return h) as [h Hhash].
    { pose proof Hemail as He. unfold parsed in He.
      rewrite lookup_insert_eq in He.
      destruct (extract_email text) as [e'|] eqn:He'; [|done].
      injection He as ->.
      apply email_match_one_at in He' as [_ Hone].
      by apply hash_email_returns. }
    unfold anonymize_data, hash_field. rewrite Hemail.
    cbn [mbind result_bind]. rewrite Hhash. cbn [mbind result_bind].
    rewrite lookup_insert_ne by done. by rewrite Hphone.
  - intros e p Hemail Hphone.
    assert (well_formed (parsed max_str_digits text) = true) as Hwf.
    { unfold well_formed, structurally_valid. rewrite Hemail, Hphone.
      assert (parsed max_str_digits text !! "full_name" = None) as ->.
      { apply not_elem_of_dom. rewrite dom_parsed. unfold parsed_keys.
        rewrite !elem_of_union, !elem_of_singleton. by intros [[[?|?]|?]|?]. }
      cbn. unfold parsed in Hemail. rewrite lookup_insert_eq in Hemail.
      destruct (extract_email text) as [e'|] eqn:He; [|done].
      injection Hemail as ->.
      apply email_match_one_at in He as (_ & ->). done. }
    destruct (anonymize_data_returns _ Hwf) as [out Hout].
    exists out. split; [done|].
    split; apply (anonymize_data_frame _ _ _ Hout);
      unfold personal_fields; rewrite !not_elem_of_cons;
      repeat split; try discriminate; apply not_elem_of_nil.
Qed.

(** X14: when the text of a PDF comes out empty or all white space,
    [parse_resume] does not fail: it returns the record in which nothing
    was found. *)
Theorem parse_resume_blank_pdf (file_content : list Z) (file_type text : string)
    (tr tr' : list event) :
  lower file_type = "pdf" →
  extract_text_from_pdf fitz_open pdfplumber_open file_content tr
    = (Return text, tr') →
  blank text = true →
  parse_resume fitz_open pdfplumber_open docx_open max_str_digits
    file_content file_type tr = (Return empty_profile, tr').
Proof.
  intros Hpdf Hrun Hblank. rewrite (parse_resume_pdf _ _ _ Hpdf), Hrun.
  by rewrite (extractors_blank _ _ Hblank).
Qed.

End ParseFacts.

Lemma extract_text_from_pdf_raises_only_witness :
  ResumeParser.extract_text_from_pdf
    Sample.broken_fitz Sample.broken_pdfplumber [] []
  = (Raise (Exception "Failed to extract text from PDF"),
     [FitzOpen;
      Print "PyMuPDF extraction failed: "
        (Exception "cannot open broken document");
      PdfplumberOpen;
      Print "pdfplumber extraction failed: " (Exception "No /Root object")])
  ∧ Exception "Failed to extract text from PDF"
    = Exception "Failed to extract text from PDF"
  ∧ PdfplumberOpen ∈
      [FitzOpen;
       Print "PyMuPDF extraction failed: "
         (Exception "cannot open broken document");
       PdfplumberOpen;
       Print "pdfplumber extraction failed: " (Exception "No /Root object")].
Proof.
  split; [vm_refl|].
  apply (extract_text_from_pdf_raises_only
           Sample.broken_fitz Sample.broken_pdfplumber [] []).
  vm_refl.
Defined.

Lemma parse_resume_unsupported_witness :
  PyStr.lower "Doc" ≠ "pdf" ∧ PyStr.lower "Doc" ≠ "docx"
  ∧ Resume.parse_resume Sample.text_fitz Sample.scan_pdfplumber
      Cases.resume_docx Cases.default_limit [] "Doc" []
    = (Raise (Exception ("Failed to parse resume: Unsupported file type: "
                         +:+ "Doc")), []).
Proof.
  assert (PyStr.lower "Doc" ≠ "pdf") as Hpdf by discriminate.
  assert (PyStr.lower "Doc" ≠ "docx") as Hdocx by discriminate.
  split; [exact Hpdf|]. split; [exact Hdocx|].
  exact (parse_resume_unsupported Sample.text_fitz Sample.scan_pdfplumber
           Cases.resume_docx Cases.default_limit [] "Doc" [] Hpdf Hdocx).
Defined.

Lemma parse_resume_raises_only_witness :
  Resume.parse_resume Sample.text_fitz Sample.scan_pdfplumber
    Cases.broken_docx Cases.default_limit [] "docx" []
  = (Raise (Exception "Failed to parse resume: Failed to extract text from DOCX: File is not a zip file"),
     [])
  ∧ (Exception "Failed to parse resume: Failed to extract text from DOCX: File is not a zip file"
     = Exception ("Failed to parse resume: Failed to extract text from PDF")
     ∨ (∃ str_e,
          Cases.broken_docx [] = DocxError str_e
          ∧ Exception "Failed to parse resume: Failed to extract text from DOCX: File is not a zip file"
            = Exception ("Failed to parse resume: "
                         +:+ "Failed to extract text from DOCX: " +:+ str_e))
     ∨ Exception "Failed to parse resume: Failed to extract text from DOCX: File is not a zip file"
       = Exception ("Failed to parse resume: Unsupported file type: "
                    +:+ "docx")).
Proof.
  split; [vm_refl|].
  apply (parse_resume_raises_only Sample.text_fitz Sample.scan_pdfplumber
           Cases.broken_docx Cases.default_limit [] "docx" [] []).
  vm_refl.
Defined.

Lemma parse_resume_record_witness :
  Resume.parse_resume Sample.broken_fitz Sample.broken_pdfplumber
    Cases.resume_docx Cases.default_limit [] "DOCX" []
  = (Return Cases.resume_record, [])
  ∧ dom Cases.resume_record = Props.parsed_keys
  ∧ (Cases.resume_record !! "email" = Some VNone
     ∨ ∃ e, Cases.resume_record !! "email" = Some (VStr e))
  ∧ (Cases.resume_record !! "phone" = Some VNone
     ∨ ∃ p, Cases.resume_record !! "phone" = Some (VStr p))
  ∧ (Cases.resume_record !! "years_experience" = Some VNone
     ∨ ∃ n, Cases.resume_record !! "years_experience" = Some (VInt n)
            ∧ 0 ≤ n)
  ∧ (∃ l, Cases.resume_record !! "tech_stack" = Some (VList l)).
Proof.
  split; [vm_refl|].
  apply (parse_resume_record Sample.broken_fitz Sample.broken_pdfplumber
           Cases.resume_docx Cases.default_limit [] "DOCX" [] []).
  vm_refl.
Defined.

Lemma parse_resume_then_anonymize_witness :
  Resume.parse_resume Sample.text_fitz Sample.scan_pdfplumber
    Cases.resume_docx Cases.default_limit [] "pdf" []
  = (Return Props.empty_profile,
     [FitzOpen; FitzGetText 0; FitzGetText 1; FitzClose])
  ∧ (Props.empty_profile !! "email" = Some VNone →
       DataPrivacyManager.anonymize_data Props.empty_profile
       = Raise AttributeError)
  ∧ (∀ e, Props.empty_profile !! "email" = Some (VStr e) →
          Props.empty_profile !! "phone" = Some VNone →
          DataPrivacyManager.anonymize_data Props.empty_profile
          = Raise TypeError)
  ∧ (∀ e p, Props.empty_profile !! "email" = Some (VStr e) →
            Props.empty_profile !! "phone" = Some (VStr p) →
            ∃ out, DataPrivacyManager.anonymize_data Props.empty_profile
                   = Return out
                   ∧ out !! "years_experience"
                     = Props.empty_profile !! "years_experience"
                   ∧ out !! "tech_stack"
                     = Props.empty_profile !! "tech_stack").
Proof.
  split; [vm_refl|].
  apply (parse_resume_then_anonymize Sample.text_fitz Sample.scan_pdfplumber
           Cases.resume_docx Cases.default_limit [] "pdf" []
           [FitzOpen; FitzGetText 0; FitzGetText 1; FitzClose]).
  vm_refl.
Defined.

Lemma parse_resume_blank_pdf_witness :
  PyStr.lower "PDF" = "pdf"
  ∧ ResumeParser.extract_text_from_pdf
      Sample.image_fitz Sample.image_pdfplumber [] []
    = (Return "",
       [FitzOpen; FitzGetText 0; FitzClose; PdfplumberOpen;
        PdfplumberExtractText 0])
  ∧ Spec.blank "" = true
  ∧ Resume.parse_resume Sample.image_fitz Sample.image_pdfplumber
      Cases.resume_docx Cases.default_limit [] "PDF" []
    = (Return Props.empty_profile,
       [FitzOpen; FitzGetText 0; FitzClose; PdfplumberOpen;
        PdfplumberExtractText 0]).
Proof.
  assert (PyStr.lower "PDF" = "pdf") as Hpdf by vm_refl.
  assert (ResumeParser.extract_text_from_pdf
            Sample.image_fitz Sample.image_pdfplumber [] []
          = (Return "",
             [FitzOpen; FitzGetText 0; FitzClose; PdfplumberOpen;
              PdfplumberExtractText 0])) as Hrun by vm_refl.
  assert (Spec.blank "" = true) as Hblank by vm_refl.
  split; [exact Hpdf|]. split; [exact Hrun|]. split; [exact Hblank|].
  exact (parse_resume_blank_pdf Sample.image_fitz Sample.image_pdfplumber
           Cases.resume_docx Cases.default_limit [] "PDF" "" [] _
           Hpdf Hrun Hblank).
Defined.

(** ** More on [DataPrivacyManager] *)

Section PrivacyMore.
Import PyStr ReSem Spec Props DataPrivacyManager.

Lemma count_append (c : ascii) (a b : string) :
  count c (a +:+ b) = (count c a + count c b)%nat.
Proof. rewrite !count_is_count_if. apply count_if_append. Qed.

Lemma split_pieces (sep : ascii) (s p : string) :
  p ∈ split sep s → count sep p = 0%nat.
Proof.
  revert p. induction s as [|c s IH]; intros p; cbn.
  - by intros ->%list_elem_of_singleton.
  - destruct (Ascii.eqb_spec c sep) as [->|Hne].
    + intros [->|Hp]%elem_of_cons; [done|by apply IH].
    + destruct (split sep s) as [|q qs]; cbn.
      * intros ->%list_elem_of_singleton. cbn.
        by destruct (Ascii.eqb_spec c sep).
      * intros [->|Hp]%elem_of_cons.
        -- cbn. destruct (Ascii.eqb_spec c sep); [done|].
           apply IH. by left.
        -- apply IH. by right.
Qed.

Lemma hex_not_at (c : ascii) : is_hex c = true → Ascii.eqb c "@" = false.
Proof.
  intros Hc.
  pose proof (forall_ascii
                (fun c => implb (is_hex c) (negb (Ascii.eqb c "@")))
                ltac:(vm_refl) c) as H.
  cbv beta in H. rewrite Hc in H. by apply negb_true_iff in H.
Qed.

Lemma count_at_hex (s : string) : all is_hex s = true → count "@" s = 0%nat.
Proof.
  induction s as [|c s IH]; [done|]. cbn.
  intros [Hc Hs]%andb_true_iff. by rewrite (hex_not_at _ Hc), IH.
Qed.

Lemma Return_inj {A : Type} (a b : A) : Return a = Return b → a = b.
Proof. congruence. Qed.

(** What [_hash_email] accepts, and what it gives. *)
Lemma hash_email_Return (v : value) (h : string) :
  _hash_email v = Return h →
  (∃ s, v = VStr s ∧ count "@" s = 1%nat) ∧ count "@" h = 1%nat.
Proof.
  destruct v as [|s| |]; try done. unfold _hash_email.
  pose proof (length_split "@" s) as Hlen.
  pose proof (split_pieces "@" s) as Hpieces.
  destruct (split "@" s) as [|u [|d [|x l]]]; try done.
  intros <-%Return_inj. split.
  - exists s. split; [done|]. cbn in Hlen. lia.
  - cbv zeta. rewrite !count_append.
    rewrite (count_at_hex (sha_prefix 8 u)) by apply sha_prefix_8_hex.
    rewrite (Hpieces d) by (right; by left). done.
Qed.

Lemma hash_phone_Return (v : value) (h : string) :
  _hash_phone v = Return h → ∃ s, v = VStr s.
Proof. destruct v; try done. eauto. Qed.

Lemma hash_name_Return (v : value) (h : string) :
  _hash_name v = Return h → ∃ s, v = VStr s.
Proof. destruct v; try done. eauto. Qed.

Lemma anonymize_data_well_formed_input (data out : gmap string value) :
  anonymize_data data = Return out → well_formed data = true.
Proof.
  intros (m1 & m2 & H1 & H2 & H3)%anonymize_data_inv.
  pose proof (hash_field_lookup _ _ _ _ H1) as L1.
  pose proof (hash_field_lookup _ _ _ _ H2) as L2.
  pose proof (hash_field_lookup _ _ _ _ H3) as L3.
  rewrite (hash_field_lookup_ne _ "phone" _ _ _ H1) in L2 by done.
  rewrite (hash_field_lookup_ne _ "full_name" _ _ _ H2) in L3 by done.
  rewrite (hash_field_lookup_ne _ "full_name" _ _ _ H1) in L3 by done.
  unfold well_formed, structurally_valid.
  destruct (data !! "email") as [v|].
  - destruct L1 as (h & [(s & -> & Hs) _]%hash_email_Return & _).
    cbn. rewrite Hs. cbn.
    destruct (data !! "phone") as [p|], (data !! "full_name") as [n|]; cbn.
    + destruct L2 as (? & [? ->]%hash_phone_Return & _).
      by destruct L3 as (? & [? ->]%hash_name_Return & _).
    + by destruct L2 as (? & [? ->]%hash_phone_Return & _).
    + by destruct L3 as (? & [? ->]%hash_name_Return & _).
    + done.
  - destruct (data !! "phone") as [p|], (data !! "full_name") as [n|]; cbn.
    + destruct L2 as (? & [? ->]%hash_phone_Return & _).
      by destruct L3 as (? & [? ->]%hash_name_Return & _).
    + by destruct L2 as (? & [? ->]%hash_phone_Return & _).
    + by destruct L3 as (? & [? ->]%hash_name_Return & _).
    + done.
Qed.

(** X15: [anonymize_data] returns exactly on the records in which each
    of full_name, email and phone is absent or a string, the e-mail
    holding one [@]; on every other record it raises. *)
Theorem anonymize_data_returns_iff (data : gmap string value) :
  (∃ out, anonymize_data data = Return out) ↔ well_formed data = true.
Proof.
  split.
  - intros [out Hout]. by apply (anonymize_data_well_formed_input _ out).
  - apply anonymize_data_returns.
Qed.

Lemma anonymize_data_returns_iff_witness :
  (∃ out, anonymize_data Sample.jane = Return out)
  ↔ well_formed Sample.jane = true.
Proof. apply (anonymize_data_returns_iff Sample.jane). Defined.

(** X16: what [anonymize_data] returns can be given to it again: the
    hashed e-mail still has one [@], the hashed fields are strings, and
    the second pass returns a record with the same keys. *)
Theorem anonymize_data_again (data out : gmap string value) :
  anonymize_data data = Return out →
  well_formed out = true
  ∧ ∃ out', anonymize_data out = Return out' ∧ dom out' = dom data.
Proof.
  intros Hout.
  assert (well_formed out = true) as Hwf.
  { pose proof Hout as (m1 & m2 & H1 & H2 & H3)%anonymize_data_inv.
    pose proof (hash_field_lookup _ _ _ _ H1) as L1.
    assert (out !! "email" = m1 !! "email") as Hemail.
    { rewrite (hash_field_lookup_ne _ "email" _ _ _ H3) by done.
      by rewrite (hash_field_lookup_ne _ "email" _ _ _ H2). }
    assert (∀ key, key ∈ personal_fields → absent_or_str (out !! key) = true)
      as Hstr.
    { intros key Hkey.
      pose proof (anonymize_data_personal _ _ _ Hout Hkey) as Hp.
      destruct (data !! key); [by destruct Hp as [h ->]|by rewrite Hp]. }
    unfold well_formed, structurally_valid.
    rewrite !Hstr by (apply list_elem_of_In; cbn; tauto). cbn.
    rewrite Hemail. destruct (data !! "email") as [v|].
    - destruct L1 as (h & [_ Hone]%hash_email_Return & ->). cbn.
      by rewrite Hone.
    - by rewrite L1. }
  split; [done|].
  destruct (anonymize_data_returns _ Hwf) as [out' Hout'].
  exists out'. split; [done|].
  by rewrite (anonymize_data_dom _ _ Hout'), (anonymize_data_dom _ _ Hout).
Qed.

Lemma anonymize_data_again_witness :
  anonymize_data Sample.jane = Return Sample.jane_anonymized
  ∧ well_formed Sample.jane_anonymized = true
  ∧ ∃ out', anonymize_data Sample.jane_anonymized = Return out'
            ∧ dom out' = dom Sample.jane.
Proof.
  split; [vm_refl|].
  apply (anonymize_data_again Sample.jane Sample.jane_anonymized). vm_refl.
Defined.

Lemma sha_prefix_4_length (s : string) :
  String.length (sha_prefix 4 s) = 4%nat.
Proof.
  unfold sha_prefix, SHA256.hexdigest.
  by generalize (SHA256.digest (encode s)).
Qed.

Lemma first_char_take (t : string) :
  t ≠ "" → first_char t = Return (take 1 t) ∧ String.length (take 1 t) = 1%nat.
Proof. by destruct t. Qed.

(** The anonymized form of a name of two words or more. *)
Lemma hash_name_words (name first : string) (rest : list string) :
  split_ws name = first :: rest → rest ≠ [] →
  _hash_name (VStr name)
  = Return (take 1 first +:+ "." +:+
            sha_prefix 4 (join " " (removelast rest)) +:+ "." +:+
            take 1 (List.last rest "") +:+ ".").
Proof.
  intros Hparts Hrest.
  pose proof (split_ws_nonempty name) as Hne. rewrite Hparts in Hne.
  destruct rest as [|second rest]; [done|].
  assert (List.last (first :: second :: rest) ""
          = List.last (second :: rest) "") as Hlast by done.
  destruct (first_char_take first) as [Hf _]; [apply Hne; by left|].
  destruct (first_char_take (List.last (second :: rest) "")) as [Hl _].
  { apply Hne. right. apply last_elem_of. done. }
  unfold _hash_name. rewrite Hparts.
  cbn [length Nat.leb List.hd tl]. rewrite Hlast, Hf, Hl. done.
Qed.

(** X17: [_hash_name] never raises on a string.  A name of two words or
    more comes out as nine characters: the first character of the first
    word, a dot, four hexadecimal digits for the words in between, a dot,
    the first character of the last word, a dot.  A name of one word or
    none comes out as the eight hexadecimal digits of the digest of the
    name as it was typed. *)
Theorem hash_name_shape (name : string) :
  ((length (split_ws name) < 2)%nat →
     _hash_name (VStr name) = Return (sha_prefix 8 name))
  ∧ (∀ first rest, split_ws name = first :: rest → rest ≠ [] →
       let last := List.last rest "" in
       let hashed := take 1 first +:+ "." +:+
                     sha_prefix 4 (join " " (removelast rest)) +:+ "." +:+
                     take 1 last +:+ "." in
       _hash_name (VStr name) = Return hashed
       ∧ String.length hashed = 9%nat).
Proof.
  split.
  - intros Hlen. unfold _hash_name. apply Nat.leb_gt in Hlen.
    by rewrite Hlen.
  - intros first rest Hparts Hrest last hashed.
    split; [by apply hash_name_words|].
    pose proof (split_ws_nonempty name) as Hne. rewrite Hparts in Hne.
    destruct (first_char_take first) as [_ Hf1]; [apply Hne; by left|].
    destruct (first_char_take last) as [_ Hl1].
    { apply Hne. right. apply last_elem_of. by destruct rest. }
    unfold hashed.
    rewrite !length_append, Hf1, Hl1, sha_prefix_4_length. done.
Qed.

Lemma hash_name_shape_witness :
  split_ws "Jane Q. Doe" = "Jane" :: ["Q."; "Doe"]
  ∧ _hash_name (VStr "Jane Q. Doe") = Return "J.b5cc.D.".
Proof.
  split; [vm_refl|].
  apply (proj2 (hash_name_shape "Jane Q. Doe") "Jane" ["Q."; "Doe"]);
    [vm_refl|discriminate].
Defined.

(** X18: two names of exactly two words each, whose words start with
    the same characters, get the same anonymized name: the hashed middle
    is the digest of the empty string, [e3b0]. *)
Theorem hash_name_two_words (name name' a b a' b' : string) :
  split_ws name = [a; b] → split_ws name' = [a'; b'] →
  take 1 a = take 1 a' → take 1 b = take 1 b' →
  _hash_name (VStr name) = Return (take 1 a +:+ ".e3b0." +:+ take 1 b +:+ ".")
  ∧ _hash_name (VStr name') = _hash_name (VStr name).
Proof.
  intros Hn Hn' Ha Hb.
  rewrite (hash_name_words name a [b] Hn), (hash_name_words name' a' [b'] Hn')
    by done.
  cbn [List.last removelast join]. rewrite <- Ha, <- Hb.
  assert (sha_prefix 4 "" = "e3b0") as -> by vm_refl. done.
Qed.

Lemma hash_name_two_words_witness :
  split_ws "John Smith" = ["John"; "Smith"]
  ∧ split_ws "  Jane   Sanders " = ["Jane"; "Sanders"]
  ∧ _hash_name (VStr "John Smith") = Return "J.e3b0.S."
  ∧ _hash_name (VStr "  Jane   Sanders ") = _hash_name (VStr "John Smith").
Proof.
  split; [vm_refl|]. split; [vm_refl|].
  apply (hash_name_two_words "John Smith" "  Jane   Sanders "
           "John" "Smith" "Jane" "Sanders"); vm_refl.
Defined.

Lemma hex_isword (c : ascii) : is_hex c = true → isword c = true.
Proof.
  intros Hc.
  pose proof (forall_ascii (fun c => implb (is_hex c) (isword c))
                ltac:(vm_refl) c) as H.
  cbv beta in H. by rewrite Hc in H.
Qed.

Lemma decimal_isword (c : ascii) : isdecimal c = true → isword c = true.
Proof.
  intros Hc.
  pose proof (forall_ascii (fun c => implb (isdecimal c) (isword c))
                ltac:(vm_refl) c) as H.
  cbv beta in H. by rewrite Hc in H.
Qed.

Lemma all_impl (p q : ascii → bool) (s : string) :
  (∀ c, p c = true → q c = true) → all p s = true → all q s = true.
Proof.
  intros Hpq. induction s as [|c s IH]; [done|]. cbn.
  intros [Hc Hs]%andb_true_iff. by rewrite (Hpq _ Hc), IH.
Qed.

(** X21: an identifier returned by [generate_candidate_id] has 28
    characters, all of them letters, digits or underscores, whatever the
    e-mail holds: it has no path separator and no dot. *)
Theorem generate_candidate_id_chars (data : gmap string value)
    (utcnow : datetime) (candidate_id : string) :
  generate_candidate_id data utcnow = Return candidate_id →
  String.length candidate_id = 28%nat ∧ all isword candidate_id = true.
Proof.
  unfold generate_candidate_id. destruct (get_email data) as [|s| |]; try done.
  intros <-%Return_inj.
  destruct (sha_prefix_8_hex s) as [Hlen Hhex].
  destruct (strftime_digits utcnow) as [Hlen' Hdec].
  split.
  - rewrite !length_append, Hlen, Hlen'. done.
  - rewrite !all_append.
    rewrite (all_impl _ _ _ hex_isword Hhex).
    by rewrite (all_impl _ _ _ decimal_isword Hdec).
Qed.

Lemma generate_candidate_id_chars_witness :
  generate_candidate_id
    (<["email" := VStr "../../etc/passwd@x.y"]> ∅) Sample.noon
    = Return "CAND_c640df3a_20240307120005"
  ∧ String.length "CAND_c640df3a_20240307120005" = 28%nat
  ∧ all isword "CAND_c640df3a_20240307120005" = true.
Proof.
  split; [vm_refl|].
  apply (generate_candidate_id_chars
           (<["email" := VStr "../../etc/passwd@x.y"]> ∅) Sample.noon).
  vm_refl.
Defined.

End PrivacyMore.

(** ** The candidate files *)

Section PathFacts.
Import PyStr ReSem Spec Props DataPrivacyManager.

Lemma count_all_zero (q : ascii → bool) (c : ascii) (t : string) :
  all q t = true → q c = false → count c t = 0%nat.
Proof.
  intros Hall Hc. induction t as [|a t IH]; [done|]. cbn in *.
  apply andb_true_iff in Hall as [Ha Ht].
  destruct (Ascii.eqb_spec a c) as [->|_]; [congruence|]. by apply IH.
Qed.

Lemma generated_id_word (data : gmap string value) (utcnow : datetime)
    (candidate_id : string) :
  generate_candidate_id data utcnow = Return candidate_id →
  all isword candidate_id = true.
Proof.
  unfold generate_candidate_id. destruct (get_email data) as [|e| |]; try done.
  intros <-%Return_inj.
  destruct (sha_prefix_8_hex e) as [_ Hhex].
  destruct (strftime_digits utcnow) as [_ Hdec].
  rewrite !all_append, (all_impl _ _ _ hex_isword Hhex).
  by rewrite (all_impl _ _ _ decimal_isword Hdec).
Qed.

Lemma splitroot_relative (key : string) :
  count "/" key = 0%nat → splitroot key = ("", key).
Proof.
  destruct key as [|c key]; [done|]. cbn.
  by destruct (Ascii.eqb c "/").
Qed.

Lemma path_parts_name (name : string) :
  count "/" name = 0%nat → (2 ≤ String.length name)%nat →
  path_parts name = [name].
Proof.
  intros Hsep Hlen. unfold path_parts. rewrite (split_no_sep _ _ Hsep).
  destruct name as [|a [|b name]]; cbn in Hlen; try lia.
  cbn. by destruct (Ascii.eqb a ".").
Qed.

Lemma file_name_plain (candidate_id : string) :
  count "/" candidate_id = 0%nat →
  count "/" (candidate_id +:+ "_anonymized.json") = 0%nat
  ∧ (2 ≤ String.length (candidate_id +:+ "_anonymized.json"))%nat.
Proof.
  intros Hsep. rewrite count_append, length_append, Hsep. cbn. lia.
Qed.

(** The path of an identifier without slash is the name in the
    directory. *)
Lemma file_path_plain (candidate_id : string) :
  count "/" candidate_id = 0%nat →
  file_path candidate_id
  = "candidates/" +:+ candidate_id +:+ "_anonymized.json".
Proof.
  intros [Hsep Hlen]%file_name_plain. unfold file_path, truediv.
  by rewrite (splitroot_relative _ Hsep), (path_parts_name _ Hsep Hlen).
Qed.

(** pathlib drops a [.] in front of a name. *)
Lemma truediv_dot (parts : list string) (name : string) :
  count "/" name = 0%nat →
  truediv parts (String "." (String "/" name)) = truediv parts name.
Proof.
  intros Hsep. unfold truediv. rewrite (splitroot_relative _ Hsep).
  change (splitroot (String "." (String "/" name)))
    with (EmptyString, String "." (String "/" name)).
  cbn [falsy]. cbv beta iota.
  assert (path_parts (String "." (String "/" name)) = path_parts name)
    as Hparts; [|by rewrite Hparts].
  unfold path_parts.
  by change (split "/" (String "." (String "/" name)))
    with ("." :: split "/" name).
Qed.

(** Two identifiers, one file. *)
Lemma file_path_dot (candidate_id : string) :
  count "/" candidate_id = 0%nat →
  file_path ("./" +:+ candidate_id) = file_path candidate_id.
Proof.
  intros [Hsep _]%file_name_plain. unfold file_path.
  by rewrite <- (truediv_dot _ _ Hsep).
Qed.

End PathFacts.

Section FileFacts.
Import PyStr Spec Props DataPrivacyManager.

(** A file system, and the reading of a file as JSON; a file that was
    written reads back as what was written. *)
Variable fs : Type.
Variable write_json : string → gmap string value → fs → result unit * fs.
Variable read_json : string → fs → option (gmap string value).
Hypothesis write_read : ∀ path record s s',
  write_json path record s = (Return tt, s') →
  read_json path s' = Some record.

(** X19: [save_anonymized_data] raises what [anonymize_data] raises, and
    then leaves the file system as it was.  When [anonymize_data]
    returns, the save is one writing, of the anonymized record with
    candidate_id and timestamp, at the path pathlib makes of the
    directory and the identifier: it returns or raises as that writing
    does, so that an error of [open] is the error of the save; when it
    returns, the file at that path reads back as that record.  For an
    identifier without slash the path is [candidates/<id>_anonymized.json],
    and the identifier with [./] in front names the same file. *)
Theorem save_anonymized_data_files (data : gmap string value)
    (candidate_id : string) (utcnow : datetime) (s : fs) :
  (∀ e, anonymize_data data = Raise e →
     save_anonymized_data write_json data candidate_id utcnow s
     = (Raise e, s))
  ∧ (∀ out, anonymize_data data = Return out →
       let record := <["timestamp" := VStr (Clock.isoformat utcnow)]>
                       (<["candidate_id" := VStr candidate_id]> out) in
       save_anonymized_data write_json data candidate_id utcnow s
       = write_json (file_path candidate_id) record s
       ∧ (∀ s', save_anonymized_data write_json data candidate_id utcnow s
                = (Return tt, s') →
                read_json (file_path candidate_id) s' = Some record))
  ∧ (count "/" candidate_id = 0%nat →
       file_path candidate_id
       = "candidates/" +:+ candidate_id +:+ "_anonymized.json"
       ∧ file_path ("./" +:+ candidate_id) = file_path candidate_id).
Proof.
  split; [|split].
  - intros e He. unfold save_anonymized_data. by rewrite He.
  - intros out Hout record.
    assert (save_anonymized_data write_json data candidate_id utcnow s
            = write_json (file_path candidate_id) record s) as Hsave.
    { unfold save_anonymized_data. by rewrite Hout. }
    split; [done|]. intros s' Hreturns. rewrite Hsave in Hreturns.
    by apply (write_read _ _ _ _ Hreturns).
  - intros Hplain. split; [by apply file_path_plain|by apply file_path_dot].
Qed.

(** X20: two candidates with the same e-mail whose identifiers are
    generated in the same second share one identifier and one file,
    [candidates/<id>_anonymized.json]: when both saves return, the file
    holds the record of the first after the first save and the record of
    the second one only after the second, and reads as it would had the
    first never been saved; on a file system where a writing makes the
    one before it at the same path forgotten, saving the second alone
    gives the very same state. *)
Theorem same_second_overwrites (data data' : gmap string value)
    (utcnow utcnow' : datetime) (email candidate_id : string)
    (s s1 s2 : fs) :
  get_email data = VStr email → get_email data' = VStr email →
  Clock.same_second utcnow utcnow' →
  generate_candidate_id data utcnow = Return candidate_id →
  save_anonymized_data write_json data candidate_id utcnow s
    = (Return tt, s1) →
  save_anonymized_data write_json data' candidate_id utcnow' s1
    = (Return tt, s2) →
  generate_candidate_id data' utcnow' = Return candidate_id
  ∧ file_path candidate_id
    = "candidates/" +:+ candidate_id +:+ "_anonymized.json"
  ∧ (∃ out out',
       anonymize_data data = Return out
       ∧ anonymize_data data' = Return out'
       ∧ read_json (file_path candidate_id) s1
         = Some (<["timestamp" := VStr (Clock.isoformat utcnow)]>
                   (<["candidate_id" := VStr candidate_id]> out))
       ∧ read_json (file_path candidate_id) s2
         = Some (<["timestamp" := VStr (Clock.isoformat utcnow')]>
                   (<["candidate_id" := VStr candidate_id]> out'))
       ∧ (∀ s2',
            save_anonymized_data write_json data' candidate_id utcnow' s
              = (Return tt, s2') →
            read_json (file_path candidate_id) s2'
            = read_json (file_path candidate_id) s2))
  ∧ ((∀ path record record' t t1,
        write_json path record t = (Return tt, t1) →
        write_json path record' t1 = write_json path record' t) →
     save_anonymized_data write_json data' candidate_id utcnow' s
     = (Return tt, s2)).
Proof.
  intros Hemail Hemail' (Hy & Hmo & Hd & Hh & Hmi & Hs) Hid Hsave1 Hsave2.
  split; [|split].
  - rewrite <- Hid. unfold generate_candidate_id, Clock.strftime.
    by rewrite Hemail, Hemail', Hy, Hmo, Hd, Hh, Hmi, Hs.
  - apply file_path_plain, (count_all_zero isword); [|done].
    by apply (generated_id_word data utcnow).
  - unfold save_anonymized_data in *.
    destruct (anonymize_data data) as [out|]; [|done].
    destruct (anonymize_data data') as [out'|]; [|done].
    cbv zeta in *. split.
    + exists out, out'. split; [done|]. split; [done|].
      split; [by apply (write_read _ _ _ _ Hsave1)|].
      split; [by apply (write_read _ _ _ _ Hsave2)|].
      intros s2' Halone.
      by rewrite (write_read _ _ _ _ Halone), (write_read _ _ _ _ Hsave2).
    + intros Hforgets. by rewrite <- (Hforgets _ _ _ _ _ Hsave1).
Qed.

End FileFacts.

Lemma flat_write_read (path : string) (record : gmap string value)
    (s s' : gmap string (gmap string value)) :
  Cases.flat_write path record s = (Return tt, s') →
  Cases.flat_read path s' = Some record.
Proof.
  unfold Cases.flat_write, Cases.flat_read.
  destruct (PyStr.split "/" path) as [|dir [|name [|]]]; try done.
  destruct (String.eqb dir "candidates"); [|done].
  intros [= <-]. by rewrite lookup_insert_eq.
Qed.

Lemma flat_write_forgets (path : string) (record record' : gmap string value)
    (t t1 : gmap string (gmap string value)) :
  Cases.flat_write path record t = (Return tt, t1) →
  Cases.flat_write path record' t1 = Cases.flat_write path record' t.
Proof.
  unfold Cases.flat_write.
  destruct (PyStr.split "/" path) as [|dir [|name [|]]]; try done.
  destruct (String.eqb dir "candidates"); [|done].
  intros [= <-]. by rewrite insert_insert_eq.
Qed.

(** An identifier with a slash names a file in a directory that is not
    there: [open] raises and so does the save. *)
Example save_anonymized_data_missing_directory :
  DataPrivacyManager.file_path "a/b" = "candidates/a/b_anonymized.json"
  ∧ DataPrivacyManager.save_anonymized_data Cases.flat_write
      Sample.jane "a/b" Sample.noon ∅
    = (Raise FileNotFoundError, ∅).
Proof. split; vm_refl. Qed.

Lemma save_anonymized_data_files_witness :
  DataPrivacyManager.anonymize_data Sample.jane
    = Return Sample.jane_anonymized
  ∧ DataPrivacyManager.save_anonymized_data Cases.flat_write
      Sample.jane "CAND_8c87b489_20240307120005" Sample.noon ∅
    = (Return tt, Cases.files_after_first)
  ∧ Cases.flat_read
      (DataPrivacyManager.file_path "CAND_8c87b489_20240307120005")
      Cases.files_after_first
    = Some (Cases.stored "CAND_8c87b489_20240307120005" Sample.noon
              Sample.jane_anonymized).
Proof.
  assert (DataPrivacyManager.anonymize_data Sample.jane
          = Return Sample.jane_anonymized) as Hout by vm_refl.
  assert (DataPrivacyManager.save_anonymized_data Cases.flat_write
            Sample.jane "CAND_8c87b489_20240307120005" Sample.noon ∅
          = (Return tt, Cases.files_after_first)) as Hsave by vm_refl.
  split; [exact Hout|]. split; [exact Hsave|].
  destruct (save_anonymized_data_files _ Cases.flat_write Cases.flat_read
              flat_write_read Sample.jane "CAND_8c87b489_20240307120005"
              Sample.noon ∅) as (_ & Hreturns & _).
  destruct (Hreturns _ Hout) as [_ Hread]. exact (Hread _ Hsave).
Defined.

Lemma same_second_overwrites_witness :
  DataPrivacyManager.get_email Sample.jane = VStr "jane@example.com"
  ∧ DataPrivacyManager.get_email Cases.jane_later = VStr "jane@example.com"
  ∧ Clock.same_second Sample.noon Sample.noon_later
  ∧ DataPrivacyManager.generate_candidate_id Sample.jane Sample.noon
    = Return "CAND_8c87b489_20240307120005"
  ∧ DataPrivacyManager.save_anonymized_data Cases.flat_write
      Sample.jane "CAND_8c87b489_20240307120005" Sample.noon ∅
    = (Return tt, Cases.files_after_first)
  ∧ DataPrivacyManager.save_anonymized_data Cases.flat_write
      Cases.jane_later "CAND_8c87b489_20240307120005" Sample.noon_later
      Cases.files_after_first
    = (Return tt, Cases.files_after_both)
  ∧ DataPrivacyManager.generate_candidate_id Cases.jane_later
      Sample.noon_later
    = Return "CAND_8c87b489_20240307120005"
  ∧ DataPrivacyManager.save_anonymized_data Cases.flat_write
      Cases.jane_later "CAND_8c87b489_20240307120005" Sample.noon_later ∅
    = (Return tt, Cases.files_after_both).
Proof.
  assert (Clock.same_second Sample.noon Sample.noon_later) as Hsame
    by (by repeat split).
  assert (DataPrivacyManager.generate_candidate_id Sample.jane Sample.noon
          = Return "CAND_8c87b489_20240307120005") as Hid by vm_refl.
  assert (DataPrivacyManager.save_anonymized_data Cases.flat_write
            Sample.jane "CAND_8c87b489_20240307120005" Sample.noon ∅
          = (Return tt, Cases.files_after_first)) as Hsave1 by vm_refl.
  assert (DataPrivacyManager.save_anonymized_data Cases.flat_write
            Cases.jane_later "CAND_8c87b489_20240307120005"
            Sample.noon_later Cases.files_after_first
          = (Return tt, Cases.files_after_both)) as Hsave2 by vm_refl.
  destruct (same_second_overwrites _ Cases.flat_write Cases.flat_read
              flat_write_read Sample.jane Cases.jane_later
              Sample.noon Sample.noon_later "jane@example.com"
              "CAND_8c87b489_20240307120005" ∅ Cases.files_after_first
              Cases.files_after_both eq_refl eq_refl Hsame Hid Hsave1 Hsave2)
    as (Hid' & _ & _ & Halone).
  split; [reflexivity|]. split; [reflexivity|]. split; [exact Hsame|].
  split; [exact Hid|]. split; [exact Hsave1|]. split; [exact Hsave2|].
  split; [exact Hid'|]. exact (Halone flat_write_forgets).
Defined.

(** ** [PromptManager] *)

Section PromptFacts.
Import PyStr Spec Props PromptManager.

Lemma place_category_of (tech_lower tech : string)
    (categorized : gmap string (list string)) :
  place TECH_CATEGORIES tech_lower tech categorized
  = match category_of tech_lower with
    | Some category =>
        <[category := default [] (categorized !! category) ++ [tech]]>
          categorized
    | None => categorized
    end.
Proof.
  unfold category_of, TECH_CATEGORIES. cbn [place List.find snd fst fmap].
  repeat (case_bool_decide; [done|]). done.
Qed.

Lemma category_of_name (tech_lower category : string) :
  category_of tech_lower = Some category → category ∈ category_names.
Proof.
  unfold category_of, TECH_CATEGORIES. cbn [List.find snd].
  repeat (case_bool_decide; [intros [= <-]; by vm_compute|]). done.
Qed.

(** The categories do not share a keyword: the category that claims a
    technology is the one that holds it. *)
Lemma category_of_iff (category tech_lower : string) (keywords : list string) :
  (category, keywords) ∈ TECH_CATEGORIES →
  category_of tech_lower = Some category ↔ tech_lower ∈ keywords.
Proof.
  unfold TECH_CATEGORIES. intros Hin.
  repeat (apply elem_of_cons in Hin as [[= -> ->]|Hin]);
    [..|by apply elem_of_nil in Hin].
  all: split;
    [ unfold category_of, TECH_CATEGORIES; cbn [List.find snd fst fmap option_fmap option_map];
      repeat (case_bool_decide;
              [first [by intros _ | intros; discriminate]|]);
      intros; discriminate
    | intros H;
      repeat (apply elem_of_cons in H as [->|H]; [vm_refl|]);
      by apply elem_of_nil in H ].
Qed.

Lemma empty_categories_lookup (category : string) (keywords : list string) :
  (category, keywords) ∈ TECH_CATEGORIES →
  empty_categories !! category = Some [].
Proof.
  unfold TECH_CATEGORIES. intros Hin.
  repeat (apply elem_of_cons in Hin as [[= -> ->]|Hin]; [vm_refl|]).
  by apply elem_of_nil in Hin.
Qed.

Lemma categorize_from (tech_stack : list string)
    (categorized : gmap string (list string))
    (category : string) (keywords l : list string) :
  (category, keywords) ∈ TECH_CATEGORIES →
  categorized !! category = Some l →
  fold_left
    (fun categorized tech =>
       let tech_lower := lower tech in
       place TECH_CATEGORIES tech_lower tech categorized)
    tech_stack categorized !! category
  = Some (l ++ List.filter (in_category keywords) tech_stack).
Proof.
  intros Hin. revert categorized l.
  induction tech_stack as [|tech tech_stack IH]; intros categorized l Hl.
  - cbn. by rewrite app_nil_r.
  - cbn [fold_left List.filter]. cbv zeta. rewrite place_category_of.
    pose proof (category_of_iff category (lower tech) keywords Hin) as Hiff.
    unfold in_category at 1.
    destruct (category_of (lower tech)) as [c0|] eqn:Hc0.
    + destruct (decide (c0 = category)) as [->|Hne].
      * rewrite bool_decide_eq_true_2 by (by apply Hiff).
        rewrite (IH _ (l ++ [tech])); [by rewrite <- app_assoc|].
        by rewrite lookup_insert_eq, Hl.
      * rewrite bool_decide_eq_false_2.
        2:{ intros H%Hiff. congruence. }
        apply IH. by rewrite lookup_insert_ne.
    + rewrite bool_decide_eq_false_2; [by apply IH|].
      intros H%Hiff. congruence.
Qed.

Lemma categorize_dom_from (tech_stack : list string)
    (categorized : gmap string (list string)) :
  dom categorized = category_names →
  dom (fold_left
         (fun categorized tech =>
            let tech_lower := lower tech in
            place TECH_CATEGORIES tech_lower tech categorized)
         tech_stack categorized) = category_names.
Proof.
  revert categorized.
  induction tech_stack as [|tech tech_stack IH]; intros categorized Hdom;
    [done|].
  cbn [fold_left]. cbv zeta. apply IH. rewrite place_category_of.
  destruct (category_of (lower tech)) as [c0|] eqn:Hc0; [|done].
  rewrite dom_insert_L, Hdom. apply category_of_name in Hc0.
  apply (subseteq_union_1_L (C := gset string)).
  by apply singleton_subseteq_l.
Qed.

(** X22: the record [categorize_tech_stack] returns always has the six
    categories as its keys, also for an empty stack; under each category
    stands the list of the technologies of the stack whose lower-case
    form is a keyword of that category, in the order and the letter case
    of the stack; a technology that no category knows is in no list. *)
Theorem categorize_tech_stack_lists (tech_stack : list string) :
  dom (categorize_tech_stack tech_stack) = category_names
  ∧ (∀ category keywords,
       (category, keywords) ∈ TECH_CATEGORIES →
       categorize_tech_stack tech_stack !! category
       = Some (List.filter (in_category keywords) tech_stack)).
Proof.
  split.
  - apply categorize_dom_from. vm_refl.
  - intros category keywords Hin. unfold categorize_tech_stack.
    rewrite (categorize_from _ _ _ _ [] Hin); [done|].
    by apply (empty_categories_lookup _ keywords).
Qed.

Lemma categorize_tech_stack_lists_witness :
  categorize_tech_stack ["React"; "COBOL"; "python"; "Go"] !! "languages"
  = Some ["python"; "Go"].
Proof.
  rewrite (proj2 (categorize_tech_stack_lists
                    ["React"; "COBOL"; "python"; "Go"]) "languages"
             ["python"; "java"; "javascript"; "typescript"; "c++"; "c#";
              "ruby"; "php"; "swift"; "kotlin"; "go"; "rust"]).
  - vm_refl.
  - by left.
Defined.

Lemma taxonomy_category (k : string) :
  k ∈ taxonomy_keywords →
  ∃ category keywords, (category, keywords) ∈ TECH_CATEGORIES ∧ k ∈ keywords.
Proof.
  change taxonomy_keywords
    with (concat (map snd TECH_CATEGORIES)).
  intros (keywords & Hkws & Hk)%list_elem_of_In%in_concat.
  apply in_map_iff in Hkws as ([category kws] & <- & Hin).
  exists category, kws. split; by apply list_elem_of_In.
Qed.

(** X23: nothing that [extract_tech_stack] finds is lost when its result
    is categorized: every keyword found stands in the list of one
    category, and of one only. *)
Theorem categorize_extracted (text k : string) :
  k ∈ ResumeParser.extract_tech_stack text →
  ∃ category l,
    categorize_tech_stack (ResumeParser.extract_tech_stack text) !! category
      = Some l
    ∧ k ∈ l
    ∧ (∀ category' l',
         categorize_tech_stack (ResumeParser.extract_tech_stack text)
           !! category' = Some l' →
         k ∈ l' → category' = category).
Proof.
  intros Hk. pose proof Hk as [Htax _]%elem_of_extract_tech_stack.
  pose proof (taxonomy_lowercase _ Htax) as Hlow.
  destruct (taxonomy_category _ Htax) as (category & keywords & Hin & Hkw).
  assert (dom (categorize_tech_stack (ResumeParser.extract_tech_stack text))
          = category_names) as Hdom.
  { apply categorize_dom_from. vm_refl. }
  assert (∀ category keywords,
            (category, keywords) ∈ TECH_CATEGORIES →
            categorize_tech_stack (ResumeParser.extract_tech_stack text)
              !! category
            = Some (List.filter (in_category keywords)
                      (ResumeParser.extract_tech_stack text))) as Hlists.
  { intros c kws Hc. unfold categorize_tech_stack.
    rewrite (categorize_from _ _ _ _ [] Hc); [done|].
    by apply (empty_categories_lookup _ kws). }
  exists category, (List.filter (in_category keywords)
                      (ResumeParser.extract_tech_stack text)).
  split; [by apply Hlists|]. split.
  - apply list_elem_of_In, filter_In. split; [by apply list_elem_of_In|].
    unfold in_category. rewrite Hlow. by apply bool_decide_eq_true_2.
  - intros category' l' Hl' Hkl'.
    assert (category' ∈ category_names) as Hname.
    { rewrite <- Hdom. by apply elem_of_dom_2 in Hl'. }
    assert (∃ keywords', (category', keywords') ∈ TECH_CATEGORIES)
      as [keywords' Hin'].
    { unfold category_names in Hname. apply elem_of_list_to_set in Hname.
      apply list_elem_of_fmap in Hname as ([c kws] & -> & Hc). by exists kws. }
    rewrite (Hlists _ _ Hin') in Hl'. injection Hl' as <-.
    apply list_elem_of_In, filter_In in Hkl' as [_ Hk'].
    unfold in_category in Hk'. rewrite Hlow in Hk'.
    apply bool_decide_eq_true_1 in Hk'.
    apply (category_of_iff _ _ _ Hin') in Hk'.
    apply (category_of_iff _ _ _ Hin) in Hkw. congruence.
Qed.

Lemma categorize_extracted_witness :
  "react" ∈ ResumeParser.extract_tech_stack "I use Python and react daily"
  ∧ ∃ category l,
      categorize_tech_stack
        (ResumeParser.extract_tech_stack "I use Python and react daily")
        !! category = Some l
      ∧ "react" ∈ l
      ∧ (∀ category' l',
           categorize_tech_stack
             (ResumeParser.extract_tech_stack "I use Python and react daily")
             !! category' = Some l' →
           "react" ∈ l' → category' = category).
Proof.
  assert ("react" ∈ ResumeParser.extract_tech_stack
                      "I use Python and react daily") as H.
  { apply list_elem_of_In. vm_compute. tauto. }
  split; [exact H|].
  exact (categorize_extracted "I use Python and react daily" "react" H).
Defined.

(** X24: [get_role_focus] and [get_behavioral_focus] never fail with a
    [KeyError]; a position that is not, letter for letter, one of the
    nine roles gets the focus of the Software Engineer. *)
Theorem role_focus_fallback (position : string) :
  (∃ focus, get_role_focus position = Some focus)
  ∧ (∃ focus, get_behavioral_focus position = Some focus)
  ∧ (position ∉ role_names →
       get_role_focus position
       = Some "system design, code quality, testing, performance optimization"
       ∧ get_behavioral_focus position
         = Some "problem-solving, team collaboration, code review practices").
Proof.
  unfold get_role_focus, get_behavioral_focus, role_or_default.
  assert (∃ fallback, lookup_role ROLE_FOCUS_AREAS "Software Engineer"
                      = Some fallback) as [fallback Hf] by (eexists; reflexivity).
  rewrite Hf. cbn [mbind option_bind].
  split; [eauto|]. split; [eauto|].
  intros Hnot.
  assert (lookup_role ROLE_FOCUS_AREAS position = None) as ->.
  { unfold role_names in Hnot. revert Hnot.
    generalize ROLE_FOCUS_AREAS. intros table.
    induction table as [|[role info] table IH]; [done|]. cbn.
    rewrite not_elem_of_cons. intros [Hne Hnot].
    destruct (String.eqb_spec role position); [done|]. by apply IH. }
  cbn [default]. injection Hf as <-. by split; vm_refl.
Qed.

Lemma role_focus_fallback_witness :
  ("data scientist" ∉ role_names)
  ∧ get_role_focus "data scientist"
    = Some "system design, code quality, testing, performance optimization".
Proof.
  assert ("data scientist" ∉ role_names) as H.
  { unfold role_names. cbn. rewrite !not_elem_of_cons.
    repeat split; try discriminate. apply not_elem_of_nil. }
  split; [exact H|].
  apply (proj2 (proj2 (role_focus_fallback "data scientist")) H).
Defined.

End PromptFacts.

(** ** [app.py] *)

Section AppFacts.
Import PyStr ReSem Spec Props App.

Lemma split_not_nil (sep : ascii) (s : string) : split sep s ≠ [].
Proof.
  pose proof (length_split sep s) as H. by destruct (split sep s).
Qed.

Lemma last_cons_not_nil (x : string) (l : list string) (d : string) :
  l ≠ [] → List.last (x :: l) d = List.last l d.
Proof. by destruct l. Qed.

Lemma last_split_append (sep : ascii) (a b d : string) :
  List.last (split sep (a +:+ String sep b)) d = List.last (split sep b) d.
Proof.
  induction a as [|c a IH]; cbn.
  - rewrite Ascii.eqb_refl. apply last_cons_not_nil, split_not_nil.
  - destruct (Ascii.eqb c sep).
    + rewrite last_cons_not_nil by apply split_not_nil. apply IH.
    + pose proof (length_split sep (a +:+ String sep b)) as Hlen.
      rewrite count_append in Hlen. cbn in Hlen.
      rewrite Ascii.eqb_refl in Hlen.
      destruct (split sep (a +:+ String sep b)) as [|p [|q ps]];
        cbn in Hlen; try lia.
      by rewrite <- IH.
Qed.

(** X25: the file type the form hands to [parse_resume] is what follows
    the last dot of the file name, in lower case; a name without dot is
    its own type; lowering it again changes nothing. *)
Theorem file_type_extension (stem ext : string) :
  count "." ext = 0%nat →
  file_type (stem +:+ "." +:+ ext) = lower ext
  ∧ file_type ext = lower ext
  ∧ lower (file_type (stem +:+ "." +:+ ext))
    = file_type (stem +:+ "." +:+ ext).
Proof.
  intros Hext. unfold file_type.
  change ("." +:+ ext) with (String "." ext).
  rewrite last_split_append, (split_no_sep _ _ Hext). cbn [List.last].
  by rewrite lower_idempotent.
Qed.

Lemma file_type_extension_witness :
  count "." "PDF" = 0%nat
  ∧ file_type ("Jane.Doe.resume" +:+ "." +:+ "PDF") = lower "PDF"
  ∧ file_type "PDF" = lower "PDF"
  ∧ lower (file_type ("Jane.Doe.resume" +:+ "." +:+ "PDF"))
    = file_type ("Jane.Doe.resume" +:+ "." +:+ "PDF").
Proof.
  split; [vm_refl|].
  apply (file_type_extension "Jane.Doe.resume" "PDF"). vm_refl.
Defined.

Lemma rstrip_idempotent (s : string) : rstrip (rstrip s) = rstrip s.
Proof.
  induction s as [|c s IH]; [done|]. cbn.
  destruct (rstrip s) as [|a r] eqn:Hr.
  - destruct (isspace c) eqn:Hc; [done|]. cbn. by rewrite Hc.
  - cbn -[rstrip] in IH |- *. change (rstrip (String c (String a r)))
      with (match rstrip (String a r) with
            | "" => if isspace c then "" else String c ""
            | r' => String c r'
            end).
    by rewrite IH.
Qed.

Lemma rstrip_keeps_head (c : ascii) (s : string) :
  isspace c = false → ∃ s', rstrip (String c s) = String c s'.
Proof. intros Hc. cbn. rewrite Hc. destruct (rstrip s); eauto. Qed.

Lemma strip_idempotent (t : string) : strip (strip t) = strip t.
Proof.
  unfold strip. destruct (lstrip t) as [|c s] eqn:Hl; [done|].
  pose proof (lstrip_head _ _ _ Hl) as Hc.
  destruct (rstrip_keeps_head c s Hc) as [s' Hs'].
  assert (lstrip (rstrip (String c s)) = rstrip (String c s)) as ->.
  { rewrite Hs'. cbn. by rewrite Hc. }
  apply rstrip_idempotent.
Qed.

Lemma lstrip_suffix (t : string) : ∃ pre, t = pre +:+ lstrip t.
Proof.
  induction t as [|c t [pre IH]]; [by exists ""|]. cbn.
  destruct (isspace c); [|by exists ""].
  exists (String c pre). cbn. by rewrite <- IH.
Qed.

Lemma rstrip_prefix (t : string) : ∃ post, t = rstrip t +:+ post.
Proof.
  induction t as [|c t [post IH]]; [by exists ""|]. cbn.
  destruct (rstrip t) as [|a r] eqn:Hr.
  - destruct (isspace c).
    + by exists (String c t).
    + exists t. done.
  - exists post. cbn. f_equal. exact IH.
Qed.

Lemma count_strip (c : ascii) (t : string) :
  count c t = 0%nat → count c (strip t) = 0%nat.
Proof.
  unfold strip. destruct (lstrip_suffix t) as [pre Hpre].
  destruct (rstrip_prefix (lstrip t)) as [post Hpost].
  intros H. rewrite Hpre, Hpost, !count_append in H. lia.
Qed.

(** X26: every entry [parse_tech_stack] returns is clean: not empty,
    without white space around it, without comma. *)
Theorem parse_tech_stack_clean (tech_stack_input entry : string) :
  entry ∈ parse_tech_stack tech_stack_input → clean_entry entry.
Proof.
  unfold parse_tech_stack.
  intros (t & <- & [Ht Hkeep]%filter_In)%list_elem_of_In%in_map_iff.
  repeat split.
  - intros Hempty. by rewrite Hempty in Hkeep.
  - apply strip_idempotent.
  - apply count_strip, split_pieces with (s := tech_stack_input).
    by apply list_elem_of_In.
Qed.

Lemma parse_tech_stack_clean_witness :
  "React" ∈ parse_tech_stack " Python ,, React,  ,AWS " ∧ clean_entry "React".
Proof.
  assert ("React" ∈ parse_tech_stack " Python ,, React,  ,AWS ") as H.
  { apply list_elem_of_In. vm_compute. tauto. }
  split; [exact H|].
  exact (parse_tech_stack_clean " Python ,, React,  ,AWS " "React" H).
Defined.

Lemma split_show (l : list string) :
  Forall (fun t => count "," t = 0%nat) l →
  split "," (show_tech_stack l)
  = match l with
    | [] => [""]
    | t :: l' => t :: map (String " ") l'
    end.
Proof.
  unfold show_tech_stack. induction 1 as [|t l Ht Hl IH]; [done|].
  destruct l as [|t' l].
  - cbn. by apply split_no_sep.
  - change (join ", " (t :: t' :: l))
      with (t +:+ String "," (String " " (join ", " (t' :: l)))).
    rewrite (split_at_sep _ _ _ Ht).
    change (split "," (String " " ?x))
      with (match split "," x with
            | p :: ps => String " " p :: ps
            | [] => [String " " ""]
            end).
    by rewrite IH.
Qed.

Lemma strip_space (t : string) : strip (String " " t) = strip t.
Proof. done. Qed.

Lemma keep_clean (pad t : string) (l : list string) :
  strip pad = strip t → strip t = t → t ≠ "" →
  List.map strip
    (List.filter (fun t => negb (falsy (strip t))) (pad :: l))
  = t :: List.map strip
           (List.filter (fun t => negb (falsy (strip t))) l).
Proof.
  intros Hpad Hstrip Hne. cbn [List.filter]. rewrite Hpad, Hstrip.
  destruct t; [done|]. cbn [falsy negb List.map]. by rewrite Hpad, Hstrip.
Qed.

Lemma keep_padded (l : list string) :
  Forall clean_entry l →
  List.map strip
    (List.filter (fun t => negb (falsy (strip t)))
       (List.map (String " ") l))
  = l.
Proof.
  induction 1 as [|t l (Hne & Hstrip & _) _ IH]; [done|].
  cbn [List.map]. rewrite (keep_clean _ t); [|apply strip_space|done..].
  by rewrite IH.
Qed.

(** X27: the text the form shows for a tech stack reads back as the same
    stack, entry for entry, when every entry is clean; the empty stack
    reads back as the empty stack. *)
Theorem parse_show_tech_stack (tech_stack : list string) :
  Forall clean_entry tech_stack →
  parse_tech_stack (show_tech_stack tech_stack) = tech_stack.
Proof.
  intros Hclean. unfold parse_tech_stack. rewrite split_show.
  2:{ eapply Forall_impl; [exact Hclean|]. by intros t (_ & _ & ?). }
  destruct Hclean as [|t l (Hne & Hstrip & _) Hl]; [done|].
  rewrite (keep_clean _ t); [|done..]. by rewrite keep_padded.
Qed.

Lemma parse_show_tech_stack_witness :
  Forall clean_entry ["python"; "sql server"; "c++"]
  ∧ parse_tech_stack (show_tech_stack ["python"; "sql server"; "c++"])
    = ["python"; "sql server"; "c++"].
Proof.
  assert (Forall clean_entry ["python"; "sql server"; "c++"]) as H.
  { repeat constructor; discriminate. }
  split; [exact H|].
  exact (parse_show_tech_stack ["python"; "sql server"; "c++"] H).
Defined.

End AppFacts.
